(** * Avatar factory core: registry, session engine, plugin pipeline, realtime proxy

    A shallow embedding of the orchestration core of the avatar factory and
    the properties of it that its specification states.

    Part I, the program:
    - [core/base_config.py]         ([Module BaseConfig])
    - [core/realtime_proxy.py]      ([Module RealtimeProxy])
    - [plugins/base_plugin.py]      ([Class Plugin], the plugin interface)
    - [core/speech_handler.py]      ([Class Speech], the speech interface)
    - [core/avatar_engine.py]       ([Module AvatarEngine])
    - [factory/instance_manager.py] ([Module InstanceManager])

    Python objects are records, methods are computations in a small
    state-and-exception monad over the object and the outside world.  The
    outside world carries a clock and the trace of everything the program
    does to its collaborators (log records, plugin calls, socket frames,
    speech calls), so that "was invoked" and "was transmitted" are
    statements about the trace.  What lies outside the program (files on
    disk, the network, the speech service, the plugins' own code) is given
    by type classes.

    Part II, the vocabulary of the properties, and concrete collaborators
    for worked examples ([Module Fixture]).

    Part III, the properties.

    Part IV, the rest of the core: the functions around the ones of
    Part III, at their edges and in composition. *)

From stdpp Require Import base gmap strings list fin_maps pretty.
From Stdlib Require Import ZArith Lia Ascii.

Local Set Warnings "-register-all".
Local Open Scope Z_scope.

(** * Part I: the program *)

(** ** Python values *)

(** The fragment of Python's value universe the core manipulates: JSON-like
    data.  Dictionaries that are only read by key are finite maps. *)
Inductive pyval :=
| PNone
| PBool (b : bool)
| PInt (z : Z)
| PStr (s : string)
| PList (l : list pyval)
| PDict (d : gmap string pyval).

Abbreviation pydict := (gmap string pyval).

(** Truth value of an object in an [if] ([bool(v)]). *)
Definition truthy (v : pyval) : bool :=
  match v with
  | PNone => false
  | PBool b => b
  | PInt z => negb (Z.eqb z 0)
  | PStr s => negb (String.eqb s "")
  | PList l => negb (Nat.eqb (length l) 0)
  | PDict d => negb (Nat.eqb (size d) 0)
  end.

(** [d.get(k, dflt)] *)
Definition dict_get (d : pydict) (k : string) (dflt : pyval) : pyval :=
  default dflt (d !! k).

(** [d.update(other)]: the keys of [other] win. *)
Definition dict_update (d other : pydict) : pydict := other ∪ d.

(** [isinstance(v, dict)] *)
Definition is_dict (v : pyval) : bool :=
  match v with PDict _ => true | _ => false end.

(** [type(v).__name__] *)
Definition type_name (v : pyval) : string :=
  match v with
  | PNone => "NoneType"
  | PBool _ => "bool"
  | PInt _ => "int"
  | PStr _ => "str"
  | PList _ => "list"
  | PDict _ => "dict"
  end.

(** ** Python strings

    The string methods the program calls, on strings as sequences of
    bytes. *)

(** [s.startswith(prefix)] *)
Fixpoint startswith (prefix s : string) : bool :=
  match prefix, s with
  | EmptyString, _ => true
  | String a prefix', String b s' => Ascii.eqb a b && startswith prefix' s'
  | String _ _, EmptyString => false
  end.

(** [s.endswith(suffix)]: [suffix] is one of the tails of [s]. *)
Fixpoint endswith (suffix s : string) : bool :=
  String.eqb suffix s ||
  match s with
  | EmptyString => false
  | String _ rest => endswith suffix rest
  end.

(** [sub in s]: [sub] starts one of the tails of [s]. *)
Fixpoint occurs (sub s : string) : bool :=
  startswith sub s ||
  match s with
  | EmptyString => false
  | String _ rest => occurs sub rest
  end.

(** [list(s)]: the characters of [s], each a string. *)
Fixpoint characters (s : string) : list pyval :=
  match s with
  | EmptyString => []
  | String a rest => PStr (String a EmptyString) :: characters rest
  end.

(** [s[i:-j]] *)
Definition slice (i j : nat) (s : string) : string :=
  String.substring i (String.length s - i - j) s.

(** [s.split(sep)] for a separator of one character: the pieces between
    the separators, one more than there are separators. *)
Fixpoint split (sep : Ascii.ascii) (s : string) : list string :=
  match s with
  | EmptyString => [EmptyString]
  | String c rest =>
      if Ascii.eqb c sep then EmptyString :: split sep rest
      else match split sep rest with
           | piece :: pieces => String c piece :: pieces
           | [] => [String c EmptyString]
           end
  end.

(** [sep.join(pieces)] *)
Fixpoint join (sep : string) (pieces : list string) : string :=
  match pieces with
  | [] => ""
  | [piece] => piece
  | piece :: rest => piece +:+ sep +:+ join sep rest
  end.

(** [s.rstrip(c)] for one character [c] *)
Fixpoint rstrip (c : Ascii.ascii) (s : string) : string :=
  match s with
  | EmptyString => EmptyString
  | String a rest =>
      match rstrip c rest with
      | EmptyString => if Ascii.eqb a c then EmptyString else String a EmptyString
      | stripped => String a stripped
      end
  end.

(** [s.replace(old, new)] for a non-empty [old]: the occurrences of [old]
    are replaced from the left, an occurrence that starts inside one
    already replaced does not count.  [skip] is the number of characters
    of a replaced occurrence still to pass over. *)
Fixpoint replace_from (old new : string) (skip : nat) (s : string) : string :=
  match s with
  | EmptyString => EmptyString
  | String a rest =>
      match skip with
      | Datatypes.S n => replace_from old new n rest
      | O =>
          if startswith old s
          then new +:+ replace_from old new (String.length old - 1) rest
          else String a (replace_from old new 0 rest)
      end
  end.

(** [new] behind every character of [s] *)
Fixpoint followed_by (new s : string) : string :=
  match s with
  | EmptyString => EmptyString
  | String a rest => String a (new +:+ followed_by new rest)
  end.

Definition replace (old new s : string) : string :=
  match old with
  | EmptyString => new +:+ followed_by new s
  | _ => replace_from old new 0 s
  end.

(** ** Exceptions and outcomes *)

(** An exception object: its class and [str(e)].  Only subclasses of
    [Exception] are modelled (what [except Exception] catches). *)
Record exn := Exception { exn_class : string; exn_str : string }.

Inductive outcome (A : Type) :=
| Returned (a : A)
| Raised (e : exn).
Arguments Returned {A} a.
Arguments Raised {A} e.

(** ** The outside world *)

Inductive level := DEBUG | INFO | WARNING | ERROR.

Inductive event :=
| Log (lvl : level) (msg : string)
| PluginInitialize (name : string) (cfg : pyval)
| PluginProcess (name : string) (message : pyval)
| PluginCleanup (name : string)
| WsSend (frame : string)
| WsClose
| SpeechInitialize
| SpeechStartAvatar (cfg : pyval)
| SpeechSpeak (text : pyval)
| SpeechStopAvatar.

Record World := { clock : Z; trace : list event }.

(** ** Computations

[M St A]: a method of an object with state [St].  The object and the
world survive an exception, as they do in Python. *)
Definition M (St A : Type) : Type := St -> World -> outcome A * St * World.

Section Computations.
Context {St : Type}.

Definition ret {A} (a : A) : M St A := fun s w => (Returned a, s, w).

Definition bind {A B} (m : M St A) (k : A -> M St B) : M St B :=
  fun s w =>
    match m s w with
    | (Returned a, s', w') => k a s' w'
    | (Raised e, s', w') => (Raised e, s', w')
    end.

Definition raise {A} (e : exn) : M St A := fun s w => (Raised e, s, w).

(** [try: m  except Exception as e: h e] *)
Definition try_except {A} (m : M St A) (h : exn -> M St A) : M St A :=
  fun s w =>
    match m s w with
    | (Raised e, s', w') => h e s' w'
    | r => r
    end.

Definition self : M St St := fun s w => (Returned s, s, w).
Definition update (f : St -> St) : M St unit := fun s w => (Returned tt, f s, w).

Definition emit (ev : event) : M St unit :=
  fun s w => (Returned tt, s, {| clock := clock w; trace := trace w ++ [ev] |}).

Definition logger (lvl : level) (msg : string) : M St unit := emit (Log lvl msg).

(** [datetime.now()]: the clock is read and moves on by one tick. *)
Definition datetime_now : M St Z :=
  fun s w => (Returned (clock w), s, {| clock := clock w + 1; trace := trace w |}).

(** An outcome decided elsewhere becomes a return or a raise here. *)
Definition lift_outcome {A} (o : outcome A) : M St A :=
  match o with Returned a => ret a | Raised e => raise e end.
End Computations.

(** What the Python runtime contributes and the model does not compute. *)
Class Runtime := {
  (** [json.dumps] of a value of the modelled universe *)
  json_dumps : pyval -> string;
  (** [datetime.isoformat()] of a clock reading *)
  isoformat : Z -> string;
  (** [repr(v)], as an f-string renders a value that is not a string *)
  repr : pyval -> string
}.

(** [f"{v}"] *)
Definition fmt `{Runtime} (v : pyval) : string :=
  match v with PStr s => s | _ => repr v end.

(** A method of a component stored in a field of the enclosing object. *)
Definition zoom {S1 S2 A} (proj : S1 -> S2) (inj : S2 -> S1 -> S1)
    (m : M S2 A) : M S1 A :=
  fun s w => let '(r, s2, w') := m (proj s) w in (r, inj s2 s, w').

Notation "x <~ m ;; k" := (bind m (fun x => k))
  (at level 100, m at next level, right associativity).
Notation "m ;;; k" := (bind m (fun _ => k))
  (at level 100, right associativity).

(** [for x in xs: body x] *)
Fixpoint for_each {St A} (xs : list A) (body : A -> M St unit) : M St unit :=
  match xs with
  | [] => ret tt
  | x :: rest => body x ;;; for_each rest body
  end.

(** ** core/realtime_proxy.py *)

Module RealtimeProxy.

(** What [self.headers] and [self.connection_params] hold: a dictionary,
    given by its items in insertion order (the order in which [connect]
    writes the parameters into the address), or whatever else a
    configuration has in its place.  A dictionary that comes as a plain
    value has its items in the order of its keys. *)
Inductive table :=
| Dict (items : list (string * pyval))
| NotDict (v : pyval).

(** The [websocket.WebSocketApp] object, as far as the proxy uses it: the
    address and the header it was created with, and whether the
    underlying socket is open. *)
Record WebSocketApp := {
    url : pyval;
    header : table;
    sock_connected : bool
  }.

Record t := {
    config : pyval;
    ws : option WebSocketApp;
    is_connected : bool;
    endpoint : pyval;
    headers : table;
    connection_params : table;
    message_queue : list pyval
  }.

Definition set_ws (v : option WebSocketApp) (p : t) : t :=
  {| config := config p; ws := v; is_connected := is_connected p;
     endpoint := endpoint p; headers := headers p;
     connection_params := connection_params p;
     message_queue := message_queue p |}.

Definition set_is_connected (v : bool) (p : t) : t :=
  {| config := config p; ws := ws p; is_connected := v;
     endpoint := endpoint p; headers := headers p;
     connection_params := connection_params p;
     message_queue := message_queue p |}.

Definition set_message_queue (v : list pyval) (p : t) : t :=
  {| config := config p; ws := ws p; is_connected := is_connected p;
     endpoint := endpoint p; headers := headers p;
     connection_params := connection_params p;
     message_queue := v |}.
Definition set_endpoint (v : pyval) (p : t) : t :=
  {| config := config p; ws := ws p; is_connected := is_connected p;
     endpoint := v; headers := headers p;
     connection_params := connection_params p;
     message_queue := message_queue p |}.

(** What the background thread delivers to the proxy. *)
Inductive callback := OnOpen | OnClose.

(** The network side the proxy relies on. *)
Class Network := {
    (** the provider-specific set-up of [__init__]: endpoint, parameters
        and headers as the configuration gives them, or the exception
        raised on a malformed one *)
    setup_connection_params : pyval -> outcome (pyval * table * table);
    (** the callbacks [run_forever] delivers for a socket to [url] while
        [connect] sleeps *)
    during_grace : pyval -> list callback;
    (** what [ws.send] makes of a payload that is neither a dictionary nor
        a string: the text it puts on the wire, or the exception it
        raises *)
    frame_other : pyval -> outcome string
  }.

Section Methods.
Context `{Runtime} `{Network}.

(** [RealtimeProxy(config)] *)
Definition new (cfg : pyval) : outcome t :=
  match setup_connection_params cfg with
  | Returned (ep, params, hdrs) =>
      Returned {| config := cfg; ws := None; is_connected := false;
                  endpoint := ep; headers := hdrs;
                  connection_params := params; message_queue := [] |}
  | Raised e => Raised e
  end.

(** [initialize]: logs and returns [True]. *)
Definition initialize : M t bool :=
  p <~ self ;;
  match config p with
  | PDict d =>
      logger INFO ("Realtime proxy initialized for provider: " +:+
                   fmt (dict_get d "provider" (PStr "unknown"))) ;;;
      ret true
  | _ =>
      raise (Exception "AttributeError" "object has no attribute 'get'")
  end.

(** [self.ws.send(data)]: the library raises when the socket is closed;
    there is no [send] on [None]. *)
Definition ws_send (data : string) : M t unit :=
  p <~ self ;;
  match ws p with
  | None =>
      raise (Exception "AttributeError"
               "'NoneType' object has no attribute 'send'")
  | Some sock =>
      if sock_connected sock then emit (WsSend data)
      else raise (Exception "WebSocketConnectionClosedException"
                    "Connection is already closed.")
  end.

(** The text handed to the socket for a message: a dictionary is
    serialised, a string goes out as it is, anything else is left to the
    socket library. *)
Definition frame_of (message : pyval) : M t string :=
  match message with
  | PDict _ => ret (json_dumps message)
  | PStr s => ret s
  | _ => lift_outcome (frame_other message)
  end.

Definition send (message : pyval) : M t bool :=
  p <~ self ;;
  if negb (is_connected p) then
    update (fun p => set_message_queue (message_queue p ++ [message]) p) ;;;
    ret false
  else
    try_except
      (data <~ frame_of message ;;
       ws_send data ;;;
       ret true)
      (fun e =>
         logger ERROR ("Failed to send message: " +:+ exn_str e) ;;;
         ret false).

(** [_on_open].  The loop runs over the queue as it stands on entry:
    with [is_connected] just set, [send] never appends to it. *)
Definition _on_open : M t unit :=
  logger INFO "Realtime WebSocket connection established" ;;;
  update (set_is_connected true) ;;;
  p <~ self ;;
  for_each (message_queue p) (fun message => send message ;;; ret tt) ;;;
  update (set_message_queue []).

(** [_on_close], called without a status and with no close callback
    registered. *)
Definition _on_close : M t unit :=
  logger INFO "WebSocket closed (code: None, msg: None)" ;;;
  update (set_is_connected false).

Definition deliver (cb : callback) : M t unit :=
  match cb with
  | OnOpen =>
      update (fun p =>
        match ws p with
        | Some sock =>
            set_ws (Some {| url := url sock; header := header sock;
                            sock_connected := true |}) p
        | None => p
        end) ;;;
      _on_open
  | OnClose =>
      update (fun p =>
        match ws p with
        | Some sock =>
            set_ws (Some {| url := url sock; header := header sock;
                            sock_connected := false |}) p
        | None => p
        end) ;;;
      _on_close
  end.

(** [bool(obj)] *)
Definition truthy_table (obj : table) : bool :=
  match obj with
  | Dict items => negb (Nat.eqb (length items) 0)
  | NotDict v => truthy v
  end.

(** [obj.items()]: only a dictionary has items. *)
Definition items_of (obj : table) : outcome (list (string * pyval)) :=
  match obj with
  | Dict items => Returned items
  | NotDict (PDict d) => Returned (map_to_list d)
  | NotDict v =>
      Raised (Exception "AttributeError"
                ("'" +:+ type_name v +:+ "' object has no attribute 'items'"))
  end.

Fixpoint lookup_header {V} (k : string) (hs : list (string * V)) : option V :=
  match hs with
  | [] => None
  | (k', v) :: rest => if String.eqb k k' then Some v else lookup_header k rest
  end.

(** [key in obj]: a key of a dictionary, a piece of a string, an element
    of a list; nothing else can be searched. *)
Definition contains (key : string) (obj : table) : outcome bool :=
  match obj with
  | Dict items =>
      Returned (match lookup_header key items with Some _ => true | None => false end)
  | NotDict (PDict d) =>
      Returned (match d !! key with Some _ => true | None => false end)
  | NotDict (PStr s) => Returned (occurs key s)
  | NotDict (PList l) =>
      Returned (existsb (fun v => match v with
                                  | PStr s => String.eqb s key
                                  | _ => false
                                  end) l)
  | NotDict v =>
      Raised (Exception "TypeError"
                ("argument of type '" +:+ type_name v +:+ "' is not iterable"))
  end.

(** [obj[key]] for a string [key] *)
Definition getitem (key : string) (obj : table) : outcome pyval :=
  match obj with
  | Dict items =>
      match lookup_header key items with
      | Some v => Returned v
      | None => Raised (Exception "KeyError" key)
      end
  | NotDict (PDict d) =>
      match d !! key with
      | Some v => Returned v
      | None => Raised (Exception "KeyError" key)
      end
  | NotDict (PStr _) =>
      Raised (Exception "TypeError" "string indices must be integers, not 'str'")
  | NotDict (PList _) =>
      Raised (Exception "TypeError"
                "list indices must be integers or slices, not str")
  | NotDict v =>
      Raised (Exception "TypeError"
                ("'" +:+ type_name v +:+ "' object is not subscriptable"))
  end.

(** ['&'.join(f"{k}={v}" ...)] *)
Fixpoint join_params (ps : list (string * pyval)) : string :=
  match ps with
  | [] => ""
  | [(k, v)] => k +:+ "=" +:+ fmt v
  | (k, v) :: rest => k +:+ "=" +:+ fmt v +:+ "&" +:+ join_params rest
  end.

(** [ws_url += suffix], where [ws_url] is a new string or the very object
    of [self.endpoint]: a string gives a new string, a list is extended
    in place by the characters of [suffix], nothing else can be added
    to. *)
Definition add_to_address (ws_url : pyval) (suffix : string) : M t pyval :=
  match ws_url with
  | PStr s => ret (PStr (s +:+ suffix))
  | PList l =>
      update (set_endpoint (PList (l ++ characters suffix))) ;;;
      ret (PList (l ++ characters suffix))
  | v =>
      raise (Exception "TypeError"
               ("unsupported operand type(s) for +=: '" +:+ type_name v +:+
                "' and 'str'"))
  end.

Definition connect : M t bool :=
  try_except
    (p <~ self ;;
     ws_url <~
       (if truthy_table (connection_params p) then
          items <~ lift_outcome (items_of (connection_params p)) ;;
          ret (PStr (fmt (endpoint p) +:+ "?" +:+ join_params items))
        else ret (endpoint p)) ;;
     has_key <~ lift_outcome (contains "api-key" (headers p)) ;;
     address <~
       (if has_key then
          key <~ lift_outcome (getitem "api-key" (headers p)) ;;
          ws_url <~ add_to_address ws_url ("&api-key=" +:+ fmt key) ;;
          ret (ws_url, Dict [])
        else ret (ws_url, headers p)) ;;
     p <~ self ;;
     logger INFO ("Connecting to WebSocket: " +:+ fmt (endpoint p)) ;;;
     update (set_ws (Some {| url := fst address; header := snd address;
                             sock_connected := false |})) ;;;
     for_each (during_grace (fst address)) deliver ;;;
     p <~ self ;;
     ret (is_connected p))
    (fun e =>
       logger ERROR ("Failed to connect to realtime API: " +:+ exn_str e) ;;;
       ret false).

Definition disconnect : M t unit :=
  p <~ self ;;
  match ws p with
  | Some sock =>
      try_except
        (emit WsClose ;;;
         update (set_ws (Some {| url := url sock; header := header sock;
                                 sock_connected := false |})) ;;;
         update (set_is_connected false) ;;;
         logger INFO "Realtime WebSocket disconnected")
        (fun e => logger ERROR ("Error disconnecting WebSocket: " +:+ exn_str e))
  | None => ret tt
  end.

(** [get_connection_status()['queued_messages']] *)
Definition queued_messages (p : t) : nat := length (message_queue p).

(** [_setup_azure_openai]: the endpoint, the connection parameters and
    the headers of the Azure OpenAI realtime service, or the exception of
    a section or an endpoint that is not what the code takes it for. *)
Definition _setup_azure_openai (config : pydict)
    : outcome (pyval * table * table) :=
  match dict_get config "openai" (PDict ∅) with
  | PDict azure_config =>
      match dict_get azure_config "endpoint" (PStr "") with
      | PStr endpoint =>
          let base_endpoint := rstrip "/" (replace "https://" "wss://" endpoint) in
          let deployment :=
            dict_get azure_config "deployment" (PStr "gpt-4o-realtime-preview") in
          let api_version :=
            dict_get azure_config "api_version" (PStr "2025-04-01-preview") in
          let api_key := dict_get azure_config "api_key" (PStr "") in
          Returned (PStr (base_endpoint +:+ "/openai/realtime"),
                    Dict [("api-version", api_version); ("deployment", deployment)],
                    Dict [("api-key", api_key)])
      | _ => Raised (Exception "AttributeError" "object has no attribute 'replace'")
      end
  | _ => Raised (Exception "AttributeError" "object has no attribute 'get'")
  end.
End Methods.

End RealtimeProxy.

(** ** Objects held in an ordered dictionary *)

(** [d[k] = v] on an insertion-ordered dictionary: an existing key keeps its
    place, a new one goes last. *)
Fixpoint dict_set {O} (k : string) (v : O) (d : list (string * O)) : list (string * O) :=
  match d with
  | [] => [(k, v)]
  | (k', v') :: rest =>
      if String.eqb k k' then (k, v) :: rest else (k', v') :: dict_set k v rest
  end.

(** [for name, obj in d.items(): body], the body being a method of [obj] that
    also sees the locals [L] of the enclosing function.  The body answers
    [true] for [break]; an exception leaves the loop with the objects
    touched so far in their new state. *)
Fixpoint for_items_from {O L} (body : string -> M (O * L) bool)
    (items : list (string * O)) (l : L) (w : World)
    : outcome unit * (list (string * O) * L) * World :=
  match items with
  | [] => (Returned tt, ([], l), w)
  | (name, o) :: rest =>
      match body name (o, l) w with
      | (Returned false, (o', l'), w') =>
          let '(r, (rest', l''), w'') := for_items_from body rest l' w' in
          (r, ((name, o') :: rest', l''), w'')
      | (Returned true, (o', l'), w') =>
          (Returned tt, ((name, o') :: rest, l'), w')
      | (Raised e, (o', l'), w') =>
          (Raised e, ((name, o') :: rest, l'), w')
      end
  end.

Definition for_items {O L} (body : string -> M (O * L) bool)
    : M (list (string * O) * L) unit :=
  fun '(items, l) w => for_items_from body items l w.

(** Runs [m] on the component [proj s] with fresh locals [l0]; the locals
    are handed back with the result. *)
Definition scoped {St O L A} (proj : St -> O) (inj : O -> St -> St) (l0 : L)
    (m : M (O * L) A) : M St (A * L) :=
  fun s w =>
    let '(r, (o', l'), w') := m (proj s, l0) w in
    (match r with Returned a => Returned (a, l') | Raised e => Raised e end,
     inj o' s, w').

(** ** plugins/base_plugin.py: the plugin interface *)

Module PluginResponse.
  (** What [process] hands back, read through the keys the engine looks at
      ([Optional[Dict]] with a string under ['content'], a dictionary under
      ['metadata'] and a flag under ['final']); an absent key is [None]. *)
Record t := {
    content : option string;
    metadata : option pydict;
    final : option bool
  }.
End PluginResponse.

(** The methods the engine and the manager call on a plugin object of class
    [P].  A method returns its outcome and the object's new state.
    [has_process] and [has_cleanup] are [hasattr(plugin, ...)]. *)
Class Plugin (P : Type) := {
  plugin_initialize : P -> pyval -> outcome bool * P;
  has_process : P -> bool;
  process : P -> pydict -> outcome (option PluginResponse.t) * P;
  has_cleanup : P -> bool;
  cleanup : P -> outcome unit * P
}.

(** ** core/speech_handler.py: the speech and avatar side channel *)

(** The calls the engine makes on a speech handler of state [S]; what they
    do is the speech service's business.  [initialize], [speak] and
    [stop_avatar] catch their own failures and answer with a flag.
    [start_avatar] does so from its test of the SDK on; before that it
    merges the configuration it is given, if that is not empty, into its
    own with [dict.update], outside any [try]: it can raise, but not on a
    configuration that is empty or a dictionary. *)
Class Speech (S : Type) := {
  speech_new : pyval -> outcome S;
  speech_initialize : S -> bool * S;
  start_avatar : S -> pyval -> outcome bool * S;
  speak : S -> pyval -> bool * S;
  stop_avatar : S -> bool * S;
  start_avatar_returns (h : S) (avatar_config : pyval) :
    truthy avatar_config = false \/ is_dict avatar_config = true ->
    exists b, fst (start_avatar h avatar_config) = Returned b
}.

(** ** core/avatar_engine.py *)

Module Response.
  (** The local [response] of [_process_through_plugins]: a dictionary that
      has exactly the keys ['content'] and ['metadata'] from its creation
      on. *)
Record t := { content : string; metadata : pydict }.

Definition to_dict (r : t) : pydict :=
  {[ "content" := PStr (content r); "metadata" := PDict (metadata r) ]}.

Definition set_content (c : string) (r : t) : t :=
  {| content := c; metadata := metadata r |}.
Definition update_metadata (m : pydict) (r : t) : t :=
  {| content := content r; metadata := dict_update (metadata r) m |}.
End Response.

Module AvatarEngine.

(** The configuration document, read through the two keys the engine
    asks for: [config.get('azure')] and [config.get('plugins', [])]. *)
Record BaseConfig := { azure : pyval; plugin_list : list pyval }.

(** An entry of [session_state['messages']]. *)
Record Message := { role : string; content : pyval; timestamp : string }.

Record SessionState := {
    active : bool;
    session_id : option string;
    start_time : option Z;
    messages : list Message;
    metrics : gmap string Z
  }.

Definition set_active (v : bool) (st : SessionState) : SessionState :=
  {| active := v; session_id := session_id st; start_time := start_time st;
     messages := messages st; metrics := metrics st |}.
Definition set_messages (v : list Message) (st : SessionState) : SessionState :=
  {| active := active st; session_id := session_id st;
     start_time := start_time st; messages := v; metrics := metrics st |}.
Definition set_metrics (v : gmap string Z) (st : SessionState) : SessionState :=
  {| active := active st; session_id := session_id st;
     start_time := start_time st; messages := messages st; metrics := v |}.

(** [_resolve_env_vars]: a string of the form [${NAME}] becomes the value
    of the environment variable [NAME] when it is set; dictionaries and
    lists are resolved value by value. *)
Fixpoint _resolve_env_vars (environ : gmap string string) (config : pyval) : pyval :=
  match config with
  | PDict d => PDict (_resolve_env_vars environ <$> d)
  | PList l => PList (map (_resolve_env_vars environ) l)
  | PStr s =>
      if startswith "${" s && endswith "}" s then
        let env_var := slice 2 1 s in
        PStr (default s (environ !! env_var))
      else config
  | _ => config
  end.
Section Engine.
Context {P S : Type}.

Record t := {
    instance_name : string;
    config_path : string;
    config : option BaseConfig;
    realtime_proxy : option RealtimeProxy.t;
    speech_handler : option S;
    plugins : list (string * P);
    persona : option pydict;
    session_state : SessionState;
    _initialized : bool
  }.

Definition set_config v (e : t) : t :=
  {| instance_name := instance_name e; config_path := config_path e;
     config := v; realtime_proxy := realtime_proxy e;
     speech_handler := speech_handler e; plugins := plugins e;
     persona := persona e; session_state := session_state e;
     _initialized := _initialized e |}.
Definition set_realtime_proxy v (e : t) : t :=
  {| instance_name := instance_name e; config_path := config_path e;
     config := config e; realtime_proxy := v;
     speech_handler := speech_handler e; plugins := plugins e;
     persona := persona e; session_state := session_state e;
     _initialized := _initialized e |}.
Definition set_speech_handler v (e : t) : t :=
  {| instance_name := instance_name e; config_path := config_path e;
     config := config e; realtime_proxy := realtime_proxy e;
     speech_handler := v; plugins := plugins e;
     persona := persona e; session_state := session_state e;
     _initialized := _initialized e |}.
Definition set_plugins v (e : t) : t :=
  {| instance_name := instance_name e; config_path := config_path e;
     config := config e; realtime_proxy := realtime_proxy e;
     speech_handler := speech_handler e; plugins := v;
     persona := persona e; session_state := session_state e;
     _initialized := _initialized e |}.
Definition set_persona v (e : t) : t :=
  {| instance_name := instance_name e; config_path := config_path e;
     config := config e; realtime_proxy := realtime_proxy e;
     speech_handler := speech_handler e; plugins := plugins e;
     persona := v; session_state := session_state e;
     _initialized := _initialized e |}.
Definition set_session_state v (e : t) : t :=
  {| instance_name := instance_name e; config_path := config_path e;
     config := config e; realtime_proxy := realtime_proxy e;
     speech_handler := speech_handler e; plugins := plugins e;
     persona := persona e; session_state := v;
     _initialized := _initialized e |}.
Definition set_initialized v (e : t) : t :=
  {| instance_name := instance_name e; config_path := config_path e;
     config := config e; realtime_proxy := realtime_proxy e;
     speech_handler := speech_handler e; plugins := plugins e;
     persona := persona e; session_state := session_state e;
     _initialized := v |}.

(** [AvatarEngine(instance_name, config_path)] *)
Definition new (name : string) (path : option string) : t :=
  {| instance_name := name;
     config_path :=
       match path with
       | Some p => if String.eqb p "" then "instances/" +:+ name +:+ "/config.yaml" else p
       | None => "instances/" +:+ name +:+ "/config.yaml"
       end;
     config := None; realtime_proxy := None; speech_handler := None;
     plugins := []; persona := None;
     session_state := {| active := false; session_id := None;
                         start_time := None; messages := [];
                         metrics := ∅ |};
     _initialized := false |}.
End Engine.

Arguments t : clear implicits.

(** The files of an instance on disk. *)
Class Files (P : Type) := {
    (** [yaml.safe_load] of the configuration at a path, environment
        placeholders resolved *)
    read_config : string -> outcome BaseConfig;
    (** [yaml.safe_load] of the persona at a path *)
    read_persona : string -> outcome pyval;
    (** the import of a plugin module for an instance and the construction
        of the class it declares: [None] when there is no such file or
        class *)
    import_plugin : string -> pyval -> outcome (option P)
  }.

Section Methods.
Context {P S : Type}.
Context `{Runtime} `{RealtimeProxy.Network} `{Plugin P} `{Speech S} `{Files P}.

Local Abbreviation engine := (t P S).

(** A call on [self.realtime_proxy]. *)
Definition on_realtime_proxy {A} (m : M RealtimeProxy.t A) : M engine A :=
  fun e w =>
    match realtime_proxy e with
    | Some p =>
        let '(r, p', w') := m p w in (r, set_realtime_proxy (Some p') e, w')
    | None =>
        (Raised (Exception "AttributeError" "'NoneType' object has no attribute"),
         e, w)
    end.

(** A call on [self.speech_handler]. *)
Definition on_speech_handler {A} (method : S -> outcome A * S) : M engine A :=
  fun e w =>
    match speech_handler e with
    | Some h =>
        let '(r, h') := method h in (r, set_speech_handler (Some h') e, w)
    | None =>
        (Raised (Exception "AttributeError" "'NoneType' object has no attribute"),
         e, w)
    end.

Fixpoint dict_lookup {O} (k : string) (d : list (string * O)) : option O :=
  match d with
  | [] => None
  | (k', v) :: rest => if String.eqb k k' then Some v else dict_lookup k rest
  end.

(** A call on [self.plugins[name]]. *)
Definition on_plugin {A} (name : string) (method : P -> outcome A * P)
    : M engine A :=
  fun e w =>
    match dict_lookup name (plugins e) with
    | Some p =>
        let '(r, p') := method p in
        (r, set_plugins (dict_set name p' (plugins e)) e, w)
    | None => (Raised (Exception "KeyError" name), e, w)
    end.

Definition load_config : M engine BaseConfig :=
  try_except
    (e <~ self ;;
     cfg <~ lift_outcome (read_config (config_path e)) ;;
     update (set_config (Some cfg)) ;;;
     logger INFO ("Configuration loaded for instance: " +:+ instance_name e) ;;;
     ret cfg)
    (fun ex =>
       logger ERROR ("Failed to load configuration: " +:+ exn_str ex) ;;;
       raise ex).

Definition _get_default_persona : pydict :=
  {[ "name" := PStr "Default Assistant";
     "voice" := PDict {[ "language" := PStr "en-US";
                         "model" := PStr "en-US-JennyNeural";
                         "pitch" := PStr "0Hz";
                         "rate" := PInt 1 ]};
     "avatar" := PDict {[ "character" := PStr "lisa";
                          "style" := PStr "casual-sitting";
                          "background_color" := PStr "#FFFFFF" ]};
     "personality" := PDict {[ "role" := PStr "Helpful Assistant";
                               "traits" := PList [PStr "helpful";
                                                  PStr "friendly";
                                                  PStr "professional"] ]};
     "system_prompt" := PStr "You are a helpful AI assistant." ]}.

Definition load_persona (persona_path : option string) : M engine pydict :=
  e <~ self ;;
  let dflt := "instances/" +:+ instance_name e +:+ "/persona.yaml" in
  let path :=
    match persona_path with
    | Some p => if String.eqb p "" then dflt else p
    | None => dflt
    end in
  try_except
    (v <~ lift_outcome (read_persona path) ;;
     match v with
     | PDict d =>
         update (set_persona (Some d)) ;;;
         logger INFO ("Persona loaded: " +:+
                      fmt (dict_get d "name" (PStr "Unknown"))) ;;;
         ret d
     | _ =>
         raise (Exception "AttributeError" "object has no attribute 'get'")
     end)
    (fun ex =>
       logger ERROR ("Failed to load persona: " +:+ exn_str ex) ;;;
       update (set_persona (Some _get_default_persona)) ;;;
       ret _get_default_persona).

Definition _load_plugin (plugin_name plugin_config : pyval) : M engine unit :=
  e <~ self ;;
  found <~ lift_outcome (import_plugin (instance_name e) plugin_name) ;;
  match found with
  | None => ret tt
  | Some p =>
      match plugin_name with
      | PStr name =>
          let cfg :=
            match plugin_config with
            | PDict d => dict_get d "config" (PDict ∅)
            | _ => PDict ∅
            end in
          update (fun e => set_plugins (dict_set name p (plugins e)) e) ;;;
          emit (PluginInitialize name cfg) ;;;
          on_plugin name (fun p => plugin_initialize p cfg) ;;;
          logger INFO ("Plugin loaded: " +:+ name)
      | _ =>
          raise (Exception "AttributeError" "object has no attribute 'split'")
      end
  end.

Definition load_plugins (plugin_list : option (list pyval)) : M engine unit :=
  e <~ self ;;
  let given :=
    match plugin_list with
    | Some (_ :: _) => plugin_list
    | _ =>
        match config e with
        | Some c => Some (AvatarEngine.plugin_list c)
        | None => plugin_list
        end
    end in
  match given with
  | None => raise (Exception "TypeError" "'NoneType' object is not iterable")
  | Some l =>
      for_each l (fun plugin_config =>
        let plugin_name :=
          match plugin_config with
          | PDict d => dict_get d "name" PNone
          | _ => plugin_config
          end in
        try_except
          (_load_plugin plugin_name plugin_config)
          (fun ex =>
             logger ERROR ("Failed to load plugin " +:+ fmt plugin_name +:+
                           ": " +:+ exn_str ex)))
  end.

(** [self.config.get('azure', {}).get(key)] *)
Definition azure_get (key : string) : M engine pyval :=
  e <~ self ;;
  match config e with
  | None =>
      raise (Exception "AttributeError" "'NoneType' object has no attribute 'get'")
  | Some c =>
      match azure c with
      | PNone => ret PNone
      | PDict d => ret (dict_get d key PNone)
      | _ => raise (Exception "AttributeError" "object has no attribute 'get'")
      end
  end.

(** [self.config.get('azure')] *)
Definition azure_config : M engine pyval :=
  e <~ self ;;
  match config e with
  | None =>
      raise (Exception "AttributeError" "'NoneType' object has no attribute 'get'")
  | Some c => ret (azure c)
  end.

Definition persona_falsy (e : engine) : bool :=
  match persona e with
  | None => true
  | Some d => negb (truthy (PDict d))
  end.

Definition initialize : M engine unit :=
  try_except
    (e <~ self ;;
     match config e with
     | None => load_config ;;; ret tt
     | Some _ => ret tt
     end ;;;
     e <~ self ;;
     (if persona_falsy e then load_persona None ;;; ret tt else ret tt) ;;;
     openai <~ azure_get "openai" ;;
     (if truthy openai then
        cfg <~ azure_config ;;
        proxy <~ lift_outcome (RealtimeProxy.new cfg) ;;
        update (set_realtime_proxy (Some proxy)) ;;;
        on_realtime_proxy RealtimeProxy.initialize ;;;
        ret tt
      else ret tt) ;;;
     speech <~ azure_get "speech" ;;
     (if truthy speech then
        cfg <~ azure_config ;;
        h <~ lift_outcome (speech_new cfg) ;;
        update (set_speech_handler (Some h)) ;;;
        emit SpeechInitialize ;;;
        on_speech_handler (fun h => let '(b, h') := speech_initialize h in
                                    (Returned b, h')) ;;;
        ret tt
      else ret tt) ;;;
     load_plugins None ;;;
     update (set_initialized true) ;;;
     e <~ self ;;
     logger INFO ("Avatar engine initialized for instance: " +:+ instance_name e))
    (fun ex =>
       logger ERROR ("Failed to initialize avatar engine: " +:+ exn_str ex) ;;;
       raise ex).

Definition fresh_metrics : gmap string Z :=
  {[ "messages_sent" := 0; "messages_received" := 0; "tokens_used" := 0 ]}.

Definition start_session (session_id : option string) : M engine pydict :=
  e <~ self ;;
  (if negb (_initialized e) then initialize else ret tt) ;;;
  sid <~ match session_id with
         | Some s =>
             if String.eqb s "" then (n <~ datetime_now ;; ret (isoformat n))
             else ret s
         | None => n <~ datetime_now ;; ret (isoformat n)
         end ;;
  started <~ datetime_now ;;
  update (set_session_state
            {| active := true; session_id := Some sid;
               start_time := Some started; messages := [];
               metrics := fresh_metrics |}) ;;;
  e <~ self ;;
  match realtime_proxy e with
  | Some _ => on_realtime_proxy RealtimeProxy.connect ;;; ret tt
  | None => ret tt
  end ;;;
  e <~ self ;;
  match speech_handler e with
  | Some _ =>
      match persona e with
      | Some d =>
          let cfg := dict_get d "avatar" (PDict ∅) in
          emit (SpeechStartAvatar cfg) ;;;
          on_speech_handler (fun h => start_avatar h cfg) ;;;
          ret tt
      | None =>
          raise (Exception "AttributeError"
                   "'NoneType' object has no attribute 'get'")
      end
  | None => ret tt
  end ;;;
  logger INFO ("Session started: " +:+ sid) ;;;
  ret {[ "session_id" := PStr sid; "status" := PStr "active" ]}.

(** One turn of the loop of [_process_through_plugins], as a method of
    the plugin that also sees the local [response]. *)
Definition process_step (message : pydict) (plugin_name : string)
    : M (P * Response.t) bool :=
  try_except
    (pl <~ self ;;
     if has_process (fst pl) then
       emit (PluginProcess plugin_name (PDict message)) ;;;
       plugin_response <~
         (fun '(p, r) w =>
            let '(o, p') := process p message in (o, (p', r), w)) ;;
       match plugin_response with
       | Some pr =>
           match PluginResponse.content pr with
           | Some c =>
               if truthy (PStr c)
               then update (fun '(p, r) => (p, Response.set_content c r))
               else ret tt
           | None => ret tt
           end ;;;
           match PluginResponse.metadata pr with
           | Some m =>
               if truthy (PDict m)
               then update (fun '(p, r) => (p, Response.update_metadata m r))
               else ret tt
           | None => ret tt
           end ;;;
           ret (default false (PluginResponse.final pr))
       | None => ret false
       end
     else ret false)
    (fun ex =>
       logger ERROR ("Plugin " +:+ plugin_name +:+ " processing error: " +:+
                     exn_str ex) ;;;
       ret false).

Definition empty_response : Response.t :=
  {| Response.content := ""; Response.metadata := ∅ |}.

Definition _process_through_plugins (message : pydict) : M engine pydict :=
  looped <~
    scoped plugins set_plugins empty_response
      (for_items (process_step message)) ;;
  ret (Response.to_dict (snd looped)).

Definition append_message (m : Message) (e : engine) : engine :=
  set_session_state
    (set_messages (messages (session_state e) ++ [m]) (session_state e)) e.

(** [self.session_state['metrics'][key] += 1] *)
Definition incr_metric (key : string) : M engine unit :=
  e <~ self ;;
  match metrics (session_state e) !! key with
  | Some n =>
      update (fun e =>
        set_session_state
          (set_metrics (<[key := n + 1]> (metrics (session_state e)))
             (session_state e)) e)
  | None => raise (Exception "KeyError" key)
  end.

(** [d[key]] *)
Definition subscript (d : pydict) (key : string) : M engine pyval :=
  match d !! key with
  | Some v => ret v
  | None => raise (Exception "KeyError" key)
  end.

Definition process_message (message : pydict) : M engine pydict :=
  e <~ self ;;
  if negb (active (session_state e)) then
    ret {[ "error" := PStr "No active session" ]}
  else
    let content := dict_get message "content" (PStr "") in
    n <~ datetime_now ;;
    update (append_message {| role := "user"; content := content;
                              timestamp := isoformat n |}) ;;;
    response <~ _process_through_plugins message ;;
    (if truthy (PDict response) then
       n <~ datetime_now ;;
       update (append_message
                 {| role := "assistant";
                    content := dict_get response "content" (PStr "");
                    timestamp := isoformat n |}) ;;;
       e <~ self ;;
       match speech_handler e with
       | Some _ =>
           if truthy (dict_get response "speak" (PBool true)) then
             text <~ subscript response "content" ;;
             emit (SpeechSpeak text) ;;;
             on_speech_handler (fun h => let '(b, h') := speak h text in
                                         (Returned b, h')) ;;;
             ret tt
           else ret tt
       | None => ret tt
       end
     else ret tt) ;;;
    incr_metric "messages_received" ;;;
    incr_metric "messages_sent" ;;;
    ret response.

(** One turn of a clean-up loop that shields each plugin
    ([stop_session]). *)
Definition cleanup_step_isolated (plugin_name : string) : M (P * unit) bool :=
  pl <~ self ;;
  if has_cleanup (fst pl) then
    try_except
      (emit (PluginCleanup plugin_name) ;;;
       fun '(p, u) w => let '(o, p') := cleanup p in (o, (p', u), w))
      (fun ex =>
         logger ERROR ("Plugin " +:+ plugin_name +:+ " cleanup error: " +:+
                       exn_str ex)) ;;;
    ret false
  else ret false.

Definition option_str (o : option string) : pyval :=
  match o with Some s => PStr s | None => PNone end.

Definition stop_session : M engine pydict :=
  e <~ self ;;
  if negb (active (session_state e)) then
    ret {[ "error" := PStr "No active session" ]}
  else
    let sid := session_id (session_state e) in
    match realtime_proxy e with
    | Some _ => on_realtime_proxy RealtimeProxy.disconnect
    | None => ret tt
    end ;;;
    e <~ self ;;
    match speech_handler e with
    | Some _ =>
        emit SpeechStopAvatar ;;;
        on_speech_handler (fun h => let '(b, h') := stop_avatar h in
                                    (Returned b, h')) ;;;
        ret tt
    | None => ret tt
    end ;;;
    scoped plugins set_plugins tt (for_items cleanup_step_isolated) ;;;
    n <~ datetime_now ;;
    e <~ self ;;
    match start_time (session_state e) with
    | None =>
        raise (Exception "TypeError"
                 "unsupported operand type(s) for -: 'datetime.datetime' and 'NoneType'")
    | Some started =>
        let duration := n - started in
        let final_metrics :=
          <["session_duration" := PInt duration]>
            (PInt <$> metrics (session_state e)) in
        update (fun e => set_session_state (set_active false (session_state e)) e) ;;;
        logger INFO ("Session stopped: " +:+ fmt (option_str sid)) ;;;
        ret {[ "session_id" := option_str sid;
               "status" := PStr "stopped";
               "metrics" := PDict final_metrics ]}
    end.

Definition get_conversation_history (e : engine) : list Message :=
  messages (session_state e).
End Methods.

End AvatarEngine.

(** ** factory/instance_manager.py *)

Module InstanceManager.

(** An entry of [instance_metadata]. *)
Record Metadata := {
    started_at : string;
    status : string;
    sessions : Z;
    stopped_at : option string
  }.

Section Manager.
Context {P S : Type}.

(** The engines are owned by the registry alone, so the registry holds
    them by value: a call on [self.instances[name]] writes the engine's
    new state back under its name. *)
Record t := {
    instances : gmap string (AvatarEngine.t P S);
    instance_metadata : gmap string Metadata;
    max_instances : Z
  }.

Definition set_instances v (m : t) : t :=
  {| instances := v; instance_metadata := instance_metadata m;
     max_instances := max_instances m |}.
Definition set_instance_metadata v (m : t) : t :=
  {| instances := instances m; instance_metadata := v;
     max_instances := max_instances m |}.

(** [InstanceManager()] *)
Definition new : t :=
  {| instances := ∅; instance_metadata := ∅; max_instances := 10 |}.
End Manager.

Arguments t : clear implicits.

(** [AvatarFactory.create_avatar(name)]: the engine built from the
    instance's files, or the exception raised on the way. *)
Class Factory (P S : Type) := {
    create_avatar : string -> outcome (AvatarEngine.t P S)
  }.

Section Methods.
Context {P S : Type}.
Context `{Runtime} `{RealtimeProxy.Network} `{Plugin P} `{Speech S}
  `{AvatarEngine.Files P} `{Factory P S}.

Local Abbreviation manager := (t P S).
Local Abbreviation engine := (AvatarEngine.t P S).

(** A method call on a local engine object; the object is handed back
    when the call returns. *)
Definition on_local {A} (avatar : engine) (m : M engine A) : M manager engine :=
  fun mg w =>
    let '(r, avatar', w') := m avatar w in
    (match r with Returned _ => Returned avatar' | Raised e => Raised e end,
     mg, w').

(** A method call on [self.instances[name]]. *)
Definition on_instance {A} (name : string) (m : M engine A) : M manager A :=
  fun mg w =>
    match instances mg !! name with
    | Some avatar =>
        let '(r, avatar', w') := m avatar w in
        (r, set_instances (<[name := avatar']> (instances mg)) mg, w')
    | None => (Raised (Exception "KeyError" name), mg, w)
    end.

Definition start_instance (instance_name : string) : M manager bool :=
  try_except
    (mg <~ self ;;
     match instances mg !! instance_name with
     | Some _ =>
         logger WARNING ("Instance " +:+ instance_name +:+ " is already running") ;;;
         ret true
     | None =>
         if Z.leb (max_instances mg) (Z.of_nat (size (instances mg))) then
           logger ERROR ("Maximum instance limit reached (" +:+
                         pretty (max_instances mg) +:+ ")") ;;;
           ret false
         else
           avatar <~ lift_outcome (create_avatar instance_name) ;;
           avatar <~ on_local avatar AvatarEngine.initialize ;;
           n <~ datetime_now ;;
           update (fun mg =>
             set_instance_metadata
               (<[instance_name := {| started_at := isoformat n;
                                      status := "running";
                                      sessions := 0;
                                      stopped_at := None |}]>
                  (instance_metadata mg))
               (set_instances (<[instance_name := avatar]> (instances mg)) mg)) ;;;
           logger INFO ("Instance started: " +:+ instance_name) ;;;
           ret true
     end)
    (fun ex =>
       logger ERROR ("Failed to start instance " +:+ instance_name +:+ ": " +:+
                     exn_str ex) ;;;
       ret false).

(** One turn of the clean-up loop of [stop_instance]. *)
Definition cleanup_step (plugin_name : string) : M (P * unit) bool :=
  pl <~ self ;;
  if has_cleanup (fst pl) then
    emit (PluginCleanup plugin_name) ;;;
    (fun '(p, u) w => let '(o, p') := cleanup p in (o, (p', u), w)) ;;;
    ret false
  else ret false.

Definition stop_instance (instance_name : string) : M manager bool :=
  try_except
    (mg <~ self ;;
     match instances mg !! instance_name with
     | None =>
         logger WARNING ("Instance " +:+ instance_name +:+ " is not running") ;;;
         ret false
     | Some avatar =>
         (if AvatarEngine.active (AvatarEngine.session_state avatar)
          then on_instance instance_name AvatarEngine.stop_session ;;; ret tt
          else ret tt) ;;;
         on_instance instance_name
           (scoped AvatarEngine.plugins AvatarEngine.set_plugins tt
              (for_items cleanup_step)) ;;;
         update (fun mg => set_instances (delete instance_name (instances mg)) mg) ;;;
         mg <~ self ;;
         match instance_metadata mg !! instance_name with
         | Some md =>
             n <~ datetime_now ;;
             update (set_instance_metadata
                       (<[instance_name := {| started_at := started_at md;
                                              status := "stopped";
                                              sessions := sessions md;
                                              stopped_at := Some (isoformat n) |}]>
                          (instance_metadata mg)))
         | None => ret tt
         end ;;;
         logger INFO ("Instance stopped: " +:+ instance_name) ;;;
         ret true
     end)
    (fun ex =>
       logger ERROR ("Failed to stop instance " +:+ instance_name +:+ ": " +:+
                     exn_str ex) ;;;
       ret false).

Definition restart_instance (instance_name : string) : M manager bool :=
  mg <~ self ;;
  match instances mg !! instance_name with
  | Some _ => stop_instance instance_name ;;; ret tt
  | None => ret tt
  end ;;;
  start_instance instance_name.

Definition get_instance (mg : manager) (instance_name : string) : option engine :=
  instances mg !! instance_name.

Definition start_session (instance_name : string) (session_id : option string)
    : M manager pydict :=
  let session :=
    result <~ on_instance instance_name (AvatarEngine.start_session session_id) ;;
    update (fun mg =>
      match instance_metadata mg !! instance_name with
      | Some md =>
          set_instance_metadata
            (<[instance_name := {| started_at := started_at md;
                                   status := status md;
                                   sessions := sessions md + 1;
                                   stopped_at := stopped_at md |}]>
               (instance_metadata mg)) mg
      | None => mg
      end) ;;;
    ret result in
  mg <~ self ;;
  match get_instance mg instance_name with
  | Some _ => session
  | None =>
      started <~ start_instance instance_name ;;
      if started then session
      else ret {[ "error" := PStr ("Failed to start instance " +:+ instance_name) ]}
  end.

Definition stop_session (instance_name : string) : M manager pydict :=
  mg <~ self ;;
  match get_instance mg instance_name with
  | None => ret {[ "error" := PStr ("Instance " +:+ instance_name +:+ " not running") ]}
  | Some _ => on_instance instance_name AvatarEngine.stop_session
  end.

Definition process_message (instance_name : string) (message : pydict)
    : M manager pydict :=
  mg <~ self ;;
  match get_instance mg instance_name with
  | None => ret {[ "error" := PStr ("Instance " +:+ instance_name +:+ " not running") ]}
  | Some avatar =>
      if negb (AvatarEngine.active (AvatarEngine.session_state avatar)) then
        ret {[ "error" := PStr "No active session" ]}
      else on_instance instance_name (AvatarEngine.process_message message)
  end.

Definition list_running_instances (mg : manager) : gset string :=
  dom (instances mg).
End Methods.

End InstanceManager.

(** ** core/base_config.py

    The configuration class as a whole; the engine above reads its
    configuration through the two keys of [AvatarEngine.BaseConfig]. *)

Module BaseConfig.

(** The configuration object: the document it wraps. *)
Record t := { config : pyval }.

(** [BaseConfig(config_data)]: [config_data or {}] *)
Definition new (config_data : pyval) : t :=
  {| config := if truthy config_data then config_data else PDict ∅ |}.

(** The loop of [get] over the pieces of the key. *)
Fixpoint get_from (keys : list string) (value dflt : pyval) : pyval :=
  match keys with
  | [] => value
  | k :: rest =>
      match value with
      | PDict d =>
          match d !! k with
          | Some PNone | None => dflt
          | Some v => get_from rest v dflt
          end
      | _ => dflt
      end
  end.

(** [get(key, default)]: nested keys in dot notation. *)
Definition get (c : t) (key : string) (dflt : pyval) : pyval :=
  get_from (split "." key) (config c) dflt.

(** The [TypeError] of an assignment into, or a membership test on,
    something that is not a dictionary.  Python's text names the type of
    the object. *)
Definition not_subscriptable : exn :=
  Exception "TypeError" "object does not support item assignment".

(** The loop of [set] and its last assignment, on the object the loop
    stands at: a piece of the key that is missing gets an empty
    dictionary; anything but a dictionary on the way raises, before
    anything has been written.  A key always has a piece ([split] never
    answers the empty list), so the case of no piece is never met. *)
Fixpoint set_in (keys : list string) (value : pyval) (node : pyval) : outcome pyval :=
  match node with
  | PDict d =>
      match keys with
      | [] => Returned node
      | [k] => Returned (PDict (<[k := value]> d))
      | k :: rest =>
          match set_in rest value (default (PDict ∅) (d !! k)) with
          | Returned child => Returned (PDict (<[k := child]> d))
          | Raised ex => Raised ex
          end
      end
  | _ => Raised not_subscriptable
  end.

(** [set(key, value)] *)
Definition set (key : string) (value : pyval) : M t unit :=
  c <~ self ;;
  config' <~ lift_outcome (set_in (split "." key) value (config c)) ;;
  update (fun _ => {| config := config' |}).

(** The inner function of [update], [deep_update(base, updates)]: a
    dictionary of [updates] is merged into a dictionary of [base] under
    the same key, any other value replaces what [base] has. *)
Fixpoint deep_update (updates : pyval) (base : pydict) {struct updates} : pydict :=
  match updates with
  | PDict us =>
      map_fold (fun key value acc =>
        match value, acc !! key with
        | PDict _, Some (PDict b) => <[key := PDict (deep_update value b)]> acc
        | _, _ => <[key := value]> acc
        end) base us
  | _ => base
  end.

(** [get_azure_config()] *)
Definition get_azure_config (c : t) : pyval := get c "azure" (PDict ∅).

(** [update(updates)] *)
Definition update (updates : pyval) : M t unit :=
  c <~ self ;;
  match updates with
  | PDict us =>
      match config c with
      | PDict base => update (fun _ => {| config := PDict (deep_update updates base) |})
      | _ =>
          if decide (us = ∅) then ret tt
          else raise not_subscriptable
      end
  | _ => raise (Exception "AttributeError" "object has no attribute 'items'")
  end.

End BaseConfig.

(** * Part II: the vocabulary of the properties *)

(** ** Observations *)

(** What a trace shows of the collaborators. *)

(** The world after more events. *)
Definition logged (w : World) (evs : list event) : World :=
  {| clock := clock w; trace := trace w ++ evs |}.

(** The frames handed to the socket, in order. *)
Definition frames (tr : list event) : list string :=
  omap (fun ev => match ev with WsSend f => Some f | _ => None end) tr.

(** The plugins whose [process] was called, in order. *)
Definition processed (tr : list event) : list string :=
  omap (fun ev => match ev with PluginProcess n _ => Some n | _ => None end) tr.

(** The plugins whose [cleanup] was called, in order. *)
Definition cleaned (tr : list event) : list string :=
  omap (fun ev => match ev with PluginCleanup n => Some n | _ => None end) tr.

(** The error records of the log, in order. *)
Definition errors (tr : list event) : list string :=
  omap (fun ev => match ev with Log ERROR msg => Some msg | _ => None end) tr.

(** An event that belongs to the end of a session: the socket is closed,
    the avatar stopped, a plugin cleaned up. *)
Definition finalizing (ev : event) : bool :=
  match ev with
  | WsClose | SpeechStopAvatar | PluginCleanup _ => true
  | _ => false
  end.

(** An event that belongs to the initialization of an engine: a plugin or
    the speech handler is initialized. *)
Definition initializing (ev : event) : bool :=
  match ev with
  | PluginInitialize _ _ | SpeechInitialize => true
  | _ => false
  end.

(** An event of a session start: a log record, a frame flushed to the
    socket, the start of the avatar. *)
Definition starting (ev : event) : bool :=
  match ev with
  | Log _ _ | WsSend _ | SpeechStartAvatar _ => true
  | _ => false
  end.

(** A message the socket can frame: a dictionary or a string. *)
Definition frameable (message : pyval) : bool :=
  match message with
  | PDict _ | PStr _ => true
  | _ => false
  end.

(** The frame of such a message. *)
Definition frame_text `{Runtime} (message : pyval) : string :=
  match message with
  | PStr s => s
  | _ => json_dumps message
  end.

(** The set-up left the proxy a string for its endpoint and dictionaries
    for its parameters and headers, as [_setup_azure_openai] does: what
    [connect] builds its address from. *)
Definition addressable (p : RealtimeProxy.t) : Prop :=
  exists ep ps hs,
    RealtimeProxy.endpoint p = PStr ep /\
    RealtimeProxy.connection_params p = RealtimeProxy.Dict ps /\
    RealtimeProxy.headers p = RealtimeProxy.Dict hs.

(** [send] called on each message in turn; the answers in order. *)
Fixpoint send_each `{Runtime} `{RealtimeProxy.Network} (ms : list pyval)
    : M RealtimeProxy.t (list bool) :=
  match ms with
  | [] => ret []
  | m :: rest =>
      b <~ RealtimeProxy.send m ;;
      bs <~ send_each rest ;;
      ret (b :: bs)
  end.

(** ** What the plugins of a pipeline answer

    Each plugin is called at most once per message, so what the loop of
    [_process_through_plugins] meets is decided by the plugins as they
    stand when the loop starts. *)

Section Answers.
Context {P : Type} `{Plugin P}.
Variable message : pydict.

(** The response a plugin hands back: none when it has no [process], when
    [process] raises, or when it returns [None]. *)
Definition response_of (p : P) : option PluginResponse.t :=
  if has_process p then
    match fst (process p message) with
    | Returned (Some pr) => Some pr
    | _ => None
    end
  else None.

(** The plugin answers with [final = True]. *)
Definition marks_final (p : P) : bool :=
  match response_of p with
  | Some pr => default false (PluginResponse.final pr)
  | None => false
  end.

(** The non-empty content the plugin answers with, if any. *)
Definition written_content (p : P) : option string :=
  match response_of p with
  | Some pr =>
      match PluginResponse.content pr with
      | Some c => if String.eqb c "" then None else Some c
      | None => None
      end
  | None => None
  end.

(** The metadata the plugin answers with. *)
Definition written_metadata (p : P) : pydict :=
  match response_of p with
  | Some pr => default ∅ (PluginResponse.metadata pr)
  | None => ∅
  end.

(** The plugins in registration order up to and including the first one
    that marks its response final. *)
Fixpoint reached (items : list (string * P)) : list (string * P) :=
  match items with
  | [] => []
  | (name, p) :: rest =>
      if marks_final p then [(name, p)] else (name, p) :: reached rest
  end.

(** The names of the plugins of a list that have a [process]. *)
Definition callable (items : list (string * P)) : list string :=
  (filter (fun np => has_process np.2 = true) items).*1.

(** A plugin after the loop has been at it. *)
Definition after_process (p : P) : P :=
  if has_process p then snd (process p message) else p.

(** What one plugin's answer does to the response. *)
Definition merge_one (p : P) (r : Response.t) : Response.t :=
  {| Response.content := default (Response.content r) (written_content p);
     Response.metadata := dict_update (Response.metadata r) (written_metadata p) |}.

(** What a turn of the loop leaves in the trace. *)
Definition step_events (name : string) (p : P) : list event :=
  if has_process p then
    PluginProcess name (PDict message) ::
    match fst (process p message) with
    | Raised ex =>
        [Log ERROR ("Plugin " +:+ name +:+ " processing error: " +:+ exn_str ex)]
    | Returned _ => []
    end
  else [].

Fixpoint loop_plugins (items : list (string * P)) : list (string * P) :=
  match items with
  | [] => []
  | (name, p) :: rest =>
      (name, after_process p) ::
      (if marks_final p then rest else loop_plugins rest)
  end.

Definition loop_response (items : list (string * P)) (r : Response.t) : Response.t :=
  fold_left (fun r np => merge_one np.2 r) (reached items) r.

Definition loop_events (items : list (string * P)) : list event :=
  concat (map (fun np => step_events np.1 np.2) (reached items)).
End Answers.

(** ** What the plugins of a clean-up loop do *)

Section CleanupVocabulary.
Context {P : Type} `{Plugin P}.

(** The plugin's [cleanup], if it has one, returns. *)
Definition cleanup_returns (p : P) : Prop :=
  has_cleanup p = true -> exists u, fst (cleanup p) = Returned u.

(** A plugin after a clean-up loop has been at it. *)
Definition after_cleanup (p : P) : P :=
  if has_cleanup p then snd (cleanup p) else p.

(** The names of the plugins of a list that have a [cleanup]. *)
Definition cleanable (items : list (string * P)) : list string :=
  (filter (fun np => has_cleanup np.2 = true) items).*1.
End CleanupVocabulary.

(** ** Sessions *)

(** The record [process_message] and [stop_session] answer with when there
    is no session. *)
Definition no_active_session : pydict := {[ "error" := PStr "No active session" ]}.

(** The session id a call of [start_session] settles on: the one given,
    or the time of the call when none (or an empty one) is given. *)
Definition chosen_session_id `{Runtime} (session_id : option string) (w : World)
    : string :=
  match session_id with
  | Some s => if String.eqb s "" then isoformat (clock w) else s
  | None => isoformat (clock w)
  end.

(** A session that has just started. *)
Definition fresh_session (sid : string) (started : Z) : AvatarEngine.SessionState :=
  {| AvatarEngine.active := true;
     AvatarEngine.session_id := Some sid;
     AvatarEngine.start_time := Some started;
     AvatarEngine.messages := [];
     AvatarEngine.metrics := AvatarEngine.fresh_metrics |}.

(** An engine on which [initialize] has run: the flag is set, and a speech
    handler comes with a persona. *)
Definition ready {P S} (e : AvatarEngine.t P S) : Prop :=
  AvatarEngine._initialized e = true /\
  (AvatarEngine.speech_handler e = None \/ AvatarEngine.persona e <> None).

(** The persona's ['avatar'] entry is one that [start_avatar] merges
    without an exception, nothing or a dictionary; or there is no speech
    handler to hand it to. *)
Definition avatar_config_merges {P S} (e : AvatarEngine.t P S) : Prop :=
  match AvatarEngine.speech_handler e, AvatarEngine.persona e with
  | Some _, Some d =>
      truthy (dict_get d "avatar" (PDict ∅)) = false \/
      is_dict (dict_get d "avatar" (PDict ∅)) = true
  | _, _ => True
  end.

(** Two states of an engine with the same set-up: the flag, the persona,
    whether there is a speech handler; and no session in [e'] that was not
    there in [e]. *)
Definition same_setup {P S} (e e' : AvatarEngine.t P S) : Prop :=
  (AvatarEngine.active (AvatarEngine.session_state e') = true ->
   AvatarEngine.active (AvatarEngine.session_state e) = true) /\
  AvatarEngine._initialized e' = AvatarEngine._initialized e /\
  AvatarEngine.persona e' = AvatarEngine.persona e /\
  (AvatarEngine.speech_handler e' = None <-> AvatarEngine.speech_handler e = None).

(** The engine has a persona. *)
Definition has_persona {P S} (e : AvatarEngine.t P S) : Prop :=
  AvatarEngine.persona e <> None.

(** An initialized engine with a speech handler has a persona. *)
Definition persona_before_speech {P S} (e : AvatarEngine.t P S) : Prop :=
  AvatarEngine._initialized e = true ->
  AvatarEngine.speech_handler e = None \/ AvatarEngine.persona e <> None.

(** What holds of an engine throughout its life: a session is active only
    on an initialized engine, and an initialized engine with a speech
    handler has a persona. *)
Definition session_invariant {P S} (e : AvatarEngine.t P S) : Prop :=
  (AvatarEngine.active (AvatarEngine.session_state e) = true ->
   AvatarEngine._initialized e = true) /\
  persona_before_speech e.

(** From [e] to [e'] no session appears and the flag is not taken back. *)
Definition flags_grow {P S} (e e' : AvatarEngine.t P S) : Prop :=
  (AvatarEngine.active (AvatarEngine.session_state e') = true ->
   AvatarEngine.active (AvatarEngine.session_state e) = true) /\
  (AvatarEngine._initialized e = true -> AvatarEngine._initialized e' = true).

(** The public methods of the engine that change it. *)
Inductive method :=
| LoadConfig
| LoadPersona (persona_path : option string)
| LoadPlugins (plugin_list : option (list pyval))
| Initialize
| StartSession (session_id : option string)
| ProcessMessage (message : pydict)
| StopSession.

Section EngineCalls.
Context {P S : Type}.
Context `{Runtime} `{RealtimeProxy.Network} `{Plugin P} `{Speech S}
        `{AvatarEngine.Files P}.

(** The engine and the world after a call, however the call ends. *)
Definition after (c : method) (e : AvatarEngine.t P S) (w : World)
    : AvatarEngine.t P S * World :=
  match c with
  | LoadConfig => let '(_, e', w') := AvatarEngine.load_config e w in (e', w')
  | LoadPersona path => let '(_, e', w') := AvatarEngine.load_persona path e w in (e', w')
  | LoadPlugins l => let '(_, e', w') := AvatarEngine.load_plugins l e w in (e', w')
  | Initialize => let '(_, e', w') := AvatarEngine.initialize e w in (e', w')
  | StartSession sid => let '(_, e', w') := AvatarEngine.start_session sid e w in (e', w')
  | ProcessMessage m => let '(_, e', w') := AvatarEngine.process_message m e w in (e', w')
  | StopSession => let '(_, e', w') := AvatarEngine.stop_session e w in (e', w')
  end.

(** The engines there can be: one fresh from the constructor, and one left
    by a call of a method on an engine there can be. *)
Inductive reachable : AvatarEngine.t P S -> Prop :=
| reachable_new (name : string) (path : option string) :
    reachable (AvatarEngine.new name path)
| reachable_after (c : method) (e : AvatarEngine.t P S) (w : World) :
    reachable e -> reachable (fst (after c e w)).
End EngineCalls.

(** ** The registry *)

(** The registry of [mg'] holds no name that [mg] does not hold, under the
    same bound. *)
Definition within {P S} (mg mg' : InstanceManager.t P S) : Prop :=
  dom (InstanceManager.instances mg') ⊆ dom (InstanceManager.instances mg) /\
  InstanceManager.max_instances mg' = InstanceManager.max_instances mg.

(** The bound on the registry. *)
Definition bounded {P S} (mg : InstanceManager.t P S) : Prop :=
  Z.of_nat (size (InstanceManager.instances mg)) <= InstanceManager.max_instances mg.

(** A call on the registry. *)
Inductive call := Start (name : string) | Stop (name : string).

Section Calls.
Context {P S : Type}.
Context `{Runtime} `{RealtimeProxy.Network} `{Plugin P} `{Speech S}
        `{AvatarEngine.Files P} `{InstanceManager.Factory P S}.

Definition perform (c : call) : M (InstanceManager.t P S) bool :=
  match c with
  | Start name => InstanceManager.start_instance name
  | Stop name => InstanceManager.stop_instance name
  end.

(** The calls of a list made one after the other; the answers in order. *)
Fixpoint perform_all (cs : list call) : M (InstanceManager.t P S) (list bool) :=
  match cs with
  | [] => ret []
  | c :: rest =>
      b <~ perform c ;;
      bs <~ perform_all rest ;;
      ret (b :: bs)
  end.
End Calls.

(** ** Properties of computations *)

(** [keeps R m]: whatever [m] does and however it ends, the object it
    leaves is [R]-related to the object it found. *)
Definition keeps {St A} (R : St -> St -> Prop) (m : M St A) : Prop :=
  forall s w, R s (snd (fst (m s w))).

(** [returns m]: [m] never ends in an exception. *)
Definition returns {St A} (m : M St A) : Prop :=
  forall s w, exists a, fst (fst (m s w)) = Returned a.

(** [emits Q m]: [m] leaves the clock alone and adds to the trace only
    events that satisfy [Q]. *)
Definition emits {St A} (Q : event -> bool) (m : M St A) : Prop :=
  forall s w, exists evs, snd (m s w) = logged w evs /\ forallb Q evs = true.

(** [triple I m Q]: started on an object that satisfies [I], [m] ends with
    an outcome and an object that satisfy [Q]. *)
Definition triple {St A} (I : St -> Prop) (m : M St A)
    (Q : outcome A -> St -> Prop) : Prop :=
  forall s w, I s -> Q (fst (fst (m s w))) (snd (fst (m s w))).

(** The postcondition that asks [J] of a normal return only. *)
Definition on_return {St A} (J : A -> St -> Prop) : outcome A -> St -> Prop :=
  fun r s => match r with Returned a => J a s | Raised _ => True end.

(** The postcondition that asks [I] however the computation ends. *)
Definition always {St A} (I : St -> Prop) : outcome A -> St -> Prop :=
  fun _ s => I s.

(** ** More observations *)

(** What [_on_open] leaves in the trace for one queued message: the frame
    handed to the socket, or the record of the failure. *)
Definition flushed_as `{Runtime} (message : pyval) (ev : event) : Prop :=
  (exists frame, ev = WsSend frame /\
                 (frameable message = true -> frame = frame_text message)) \/
  (exists reason, ev = Log ERROR ("Failed to send message: " +:+ reason)).

(** The name and the configuration [load_plugins] reads off an entry of
    the plugin list: an entry is a dictionary with a ['name'] and maybe a
    ['config'], or the bare name. *)
Definition entry_name (entry : pyval) : pyval :=
  match entry with
  | PDict d => dict_get d "name" PNone
  | _ => entry
  end.

Definition entry_config (entry : pyval) : pyval :=
  match entry with
  | PDict d => dict_get d "config" (PDict ∅)
  | _ => PDict ∅
  end.

(** The plugins whose [initialize] was called, in order. *)
Definition initialized_plugins (tr : list event) : list string :=
  omap (fun ev => match ev with PluginInitialize n _ => Some n | _ => None end) tr.

(** The name under which an entry of the plugin list gets a plugin
    object, if it gets one: the entry names a module that imports for the
    instance and declares the plugin class. *)
Definition loads {P} `{AvatarEngine.Files P} (instance : string) (entry : pyval)
    : option string :=
  match entry_name entry with
  | PStr name =>
      match AvatarEngine.import_plugin instance (PStr name) with
      | Returned (Some _) => Some name
      | _ => None
      end
  | _ => None
  end.

Section CleanupEvents.
Context {P : Type} `{Plugin P}.

(** What a turn of the shielded clean-up loop leaves in the trace. *)
Definition cleanup_events (name : string) (p : P) : list event :=
  if has_cleanup p then
    PluginCleanup name ::
    match fst (cleanup p) with
    | Raised ex =>
        [Log ERROR ("Plugin " +:+ name +:+ " cleanup error: " +:+ exn_str ex)]
    | Returned _ => []
    end
  else [].
End CleanupEvents.

(** [process_message] called on each message in turn; the answers in
    order. *)
Fixpoint process_each {P S} `{Runtime} `{RealtimeProxy.Network} `{Plugin P}
    `{Speech S} `{AvatarEngine.Files P} (ms : list pydict)
    : M (AvatarEngine.t P S) (list pydict) :=
  match ms with
  | [] => ret []
  | m :: rest =>
      r <~ AvatarEngine.process_message m ;;
      rs <~ process_each rest ;;
      ret (r :: rs)
  end.

(** ** More on the engine's flag *)

(** From [e] to [e'] the flag is the same. *)
Definition same_flag {P S} (e e' : AvatarEngine.t P S) : Prop :=
  AvatarEngine._initialized e' = AvatarEngine._initialized e.

(** From [e] to [e'] the flag is not taken back. *)
Definition stays_initialized {P S} (e e' : AvatarEngine.t P S) : Prop :=
  AvatarEngine._initialized e = true -> AvatarEngine._initialized e' = true.

(** ** The registry and its metadata *)

(** The metadata of [name] says that it is running. *)
Definition marked_running {P S} (mg : InstanceManager.t P S) (name : string) : Prop :=
  exists md,
    InstanceManager.instance_metadata mg !! name = Some md /\
    InstanceManager.status md = "running".

(** The registry and the metadata agree, and every engine of the registry
    is initialized. *)
Definition registry_consistent {P S} (mg : InstanceManager.t P S) : Prop :=
  (forall name,
     is_Some (InstanceManager.instances mg !! name) <-> marked_running mg name) /\
  (forall name e,
     InstanceManager.instances mg !! name = Some e ->
     AvatarEngine._initialized e = true).

(** The calls the manager takes from the application. *)
Inductive request :=
| Start_instance (name : string)
| Stop_instance (name : string)
| Restart_instance (name : string)
| Start_session (name : string) (session_id : option string)
| Stop_session (name : string)
| Process_message (name : string) (message : pydict).

Section Requests.
Context {P S : Type}.
Context `{Runtime} `{RealtimeProxy.Network} `{Plugin P} `{Speech S}
        `{AvatarEngine.Files P} `{InstanceManager.Factory P S}.

(** The manager and the world after a call, however the call ends. *)
Definition after_request (r : request) (mg : InstanceManager.t P S) (w : World)
    : InstanceManager.t P S * World :=
  match r with
  | Start_instance name =>
      let '(_, mg', w') := InstanceManager.start_instance name mg w in (mg', w')
  | Stop_instance name =>
      let '(_, mg', w') := InstanceManager.stop_instance name mg w in (mg', w')
  | Restart_instance name =>
      let '(_, mg', w') := InstanceManager.restart_instance name mg w in (mg', w')
  | Start_session name sid =>
      let '(_, mg', w') := InstanceManager.start_session name sid mg w in (mg', w')
  | Stop_session name =>
      let '(_, mg', w') := InstanceManager.stop_session name mg w in (mg', w')
  | Process_message name m =>
      let '(_, mg', w') := InstanceManager.process_message name m mg w in (mg', w')
  end.

(** The managers there can be: a new one, and one left by a call on a
    manager there can be. *)
Inductive served : InstanceManager.t P S -> Prop :=
| served_new : served InstanceManager.new
| served_after (r : request) (mg : InstanceManager.t P S) (w : World) :
    served mg -> served (fst (after_request r mg w)).
End Requests.

(** The registry between the removal of [name] and the update of its
    metadata. *)
Definition removed {P S} (name : string) (mg : InstanceManager.t P S) : Prop :=
  InstanceManager.instances mg !! name = None /\
  (forall n, n <> name ->
             is_Some (InstanceManager.instances mg !! n) <-> marked_running mg n) /\
  (forall n e, InstanceManager.instances mg !! n = Some e ->
               AvatarEngine._initialized e = true).

(** The plugins of an engine as the clean-up loop of [stop_instance] finds
    them: after the clean-up of [stop_session] when a session was
    active. *)
Definition plugins_at_cleanup {P S} `{Plugin P} (e : AvatarEngine.t P S)
    : list (string * P) :=
  if AvatarEngine.active (AvatarEngine.session_state e)
  then map (fun np => (np.1, after_cleanup np.2)) (AvatarEngine.plugins e)
  else AvatarEngine.plugins e.

(** ** Nested values and configurations *)

(** The size of a value, for induction on nested values. *)
Fixpoint pyval_size (v : pyval) : nat :=
  match v with
  | PList l => S (list_sum (map pyval_size l))
  | PDict d => S (map_fold (fun _ v n => pyval_size v + n)%nat 0%nat d)
  | _ => 1
  end.

(** The configuration refers to the environment variable [name]: one of
    its strings, at any depth of lists and dictionary values, is the
    placeholder for it. *)
Inductive refers_to (name : string) : pyval -> Prop :=
| refers_str (s : string) :
    startswith "${" s && endswith "}" s = true -> slice 2 1 s = name ->
    refers_to name (PStr s)
| refers_list (l : list pyval) (v : pyval) :
    v ∈ l -> refers_to name v -> refers_to name (PList l)
| refers_dict (d : pydict) (k : string) (v : pyval) :
    d !! k = Some v -> refers_to name v -> refers_to name (PDict d).

(** The character does not occur in the string. *)
Fixpoint free_of (c : Ascii.ascii) (s : string) : bool :=
  match s with
  | EmptyString => true
  | String a rest => negb (Ascii.eqb a c) && free_of c rest
  end.

(** The value a path of keys leads to through nested dictionaries. *)
Fixpoint value_at (path : list string) (v : pyval) : option pyval :=
  match path with
  | [] => Some v
  | k :: rest =>
      match v with
      | PDict d => d !! k ≫= value_at rest
      | _ => None
      end
  end.

(** A value that [update] stores as it is: anything but a dictionary
    (which it merges) and [None] (which [get] reads as missing). *)
Definition plain (v : pyval) : bool :=
  match v with
  | PDict _ | PNone => false
  | _ => true
  end.

(** ** Fixtures: concrete collaborators for worked examples *)

Module Fixture.

(** A serializer that shows the ['type'] of a message, a clock rendered
    as a tick count. *)
#[global] Instance runtime : Runtime := {|
    json_dumps v :=
      match v with
      | PDict d =>
          match d !! "type" with
          | Some (PStr s) => "{" +:+ s +:+ "}"
          | _ => "{}"
          end
      | _ => "null"
      end;
    isoformat z := "T" +:+ pretty z;
    repr _ := "<object>"
  |}.

#[global] Instance network : RealtimeProxy.Network := {|
    RealtimeProxy.setup_connection_params _ :=
      Returned (PStr "wss://example.test/openai/realtime",
                RealtimeProxy.Dict [], RealtimeProxy.Dict []);
    RealtimeProxy.during_grace _ := [RealtimeProxy.OnOpen];
  RealtimeProxy.frame_other _ := Raised (Exception "TypeError" "object has no len()")
  |}.

(** A plugin that answers from a script and counts its calls. *)
Record plugin := {
    answer : option (outcome (option PluginResponse.t));
    on_cleanup : option (outcome unit);
    calls : nat
  }.

Definition called (p : plugin) : plugin :=
  {| answer := answer p; on_cleanup := on_cleanup p; calls := Datatypes.S (calls p) |}.

#[global] Instance plugin_class : Plugin plugin := {|
    plugin_initialize p _ := (Returned true, called p);
    has_process p := match answer p with Some _ => true | None => false end;
    process p _ := (default (Returned None) (answer p), called p);
    has_cleanup p := match on_cleanup p with Some _ => true | None => false end;
    cleanup p := (default (Returned tt) (on_cleanup p), called p)
  |}.

Definition answers (c : string) (md : pydict) (fin : bool) : plugin :=
  {| answer := Some (Returned (Some {| PluginResponse.content := Some c;
                                        PluginResponse.metadata := Some md;
                                        PluginResponse.final := Some fin |}));
     on_cleanup := Some (Returned tt); calls := 0 |}.

Definition silent : plugin :=
  {| answer := Some (Returned None); on_cleanup := Some (Returned tt); calls := 0 |}.

Definition failing (msg : string) : plugin :=
  {| answer := Some (Raised (Exception "RuntimeError" msg));
     on_cleanup := Some (Raised (Exception "RuntimeError" msg)); calls := 0 |}.

(** What [dict.update] raises on a string that is not empty and on a
    number: the characters of a string are no pairs, a number cannot be
    iterated over. *)
Definition update_error (avatar_config : pyval) : option exn :=
  match avatar_config with
  | PStr _ =>
      Some (Exception "ValueError"
              "dictionary update sequence element #0 has length 1; 2 is required")
  | PInt _ => Some (Exception "TypeError" "'int' object is not iterable")
  | PBool _ => Some (Exception "TypeError" "'bool' object is not iterable")
  | _ => None
  end.

(** A speech handler without state whose calls report success.  As in
    [SpeechHandler.start_avatar], a configuration that is not empty is
    merged first, and the merge of a string or a number raises. *)
#[global] Instance speech : Speech unit.
Proof.
  refine {| speech_new _ := Returned tt;
            speech_initialize h := (true, h);
            start_avatar h avatar_config :=
              if truthy avatar_config then
                match update_error avatar_config with
                | Some ex => (Raised ex, h)
                | None => (Returned true, h)
                end
              else (Returned true, h);
            speak h _ := (true, h);
            stop_avatar h := (true, h) |}.
  intros h avatar_config [Hempty|Hdict].
  - rewrite Hempty. by exists true.
  - destruct avatar_config; try discriminate Hdict.
    exists true. by destruct (truthy _).
Defined.

(** An instance directory with a configuration that asks for the realtime
    service, the speech service and one plugin, and without a persona
    file. *)
Definition the_config : AvatarEngine.BaseConfig :=
  {| AvatarEngine.azure :=
       PDict {[ "openai" := PDict {[ "endpoint" := PStr "https://example.test" ]};
                "speech" := PDict {[ "region" := PStr "westus2" ]} ]};
     AvatarEngine.plugin_list := [PStr "rag_plugin"] |}.

#[global] Instance files : AvatarEngine.Files plugin := {|
    AvatarEngine.read_config _ := Returned the_config;
    AvatarEngine.read_persona _ :=
      Raised (Exception "FileNotFoundError" "No such file or directory");
    AvatarEngine.import_plugin _ name :=
      match name with
      | PStr "rag_plugin" => Returned (Some (answers "ctx" ∅ false))
      | _ => Returned None
      end
  |}.

(** A factory that knows every instance but ["missing"]. *)
#[global] Instance factory : InstanceManager.Factory plugin unit := {|
    InstanceManager.create_avatar name :=
      if String.eqb name "missing"
      then Raised (Exception "FileNotFoundError"
                     ("Instance configuration not found: instances/missing/config.yaml"))
      else Returned (AvatarEngine.set_config (Some the_config)
                       (AvatarEngine.new name None))
  |}.

Definition world0 : World := {| clock := 0; trace := [] |}.

(** A proxy whose socket has just opened, before [_on_open] ran. *)
Definition sock0 : RealtimeProxy.WebSocketApp :=
  {| RealtimeProxy.url := PStr "wss://example.test/openai/realtime";
     RealtimeProxy.header := RealtimeProxy.Dict [];
     RealtimeProxy.sock_connected := true |}.

Definition proxy0 : RealtimeProxy.t :=
  {| RealtimeProxy.config := PDict ∅;
     RealtimeProxy.ws := Some sock0;
     RealtimeProxy.is_connected := false;
     RealtimeProxy.endpoint := PStr "wss://example.test/openai/realtime";
     RealtimeProxy.headers := RealtimeProxy.Dict [];
     RealtimeProxy.connection_params := RealtimeProxy.Dict [];
     RealtimeProxy.message_queue := [] |}.


(** A proxy set up from a custom configuration that has nothing under
    ['headers'] ([headers: null]). *)
Definition custom_proxy : RealtimeProxy.t :=
  {| RealtimeProxy.config :=
       PDict {[ "provider" := PStr "custom";
                "custom" := PDict {[ "endpoint" := PStr "wss://example.test/realtime";
                                     "headers" := PNone ]} ]};
     RealtimeProxy.ws := None;
     RealtimeProxy.is_connected := false;
     RealtimeProxy.endpoint := PStr "wss://example.test/realtime";
     RealtimeProxy.headers := RealtimeProxy.NotDict PNone;
     RealtimeProxy.connection_params := RealtimeProxy.Dict [];
     RealtimeProxy.message_queue := [] |}.

(** An engine that is initialized, without a session, holding the given
    plugins. *)
Definition engine_with (name : string) (ps : list (string * plugin))
    : AvatarEngine.t plugin unit :=
  AvatarEngine.set_initialized true
    (AvatarEngine.set_plugins ps
       (AvatarEngine.set_persona (Some AvatarEngine._get_default_persona)
          (AvatarEngine.set_config (Some the_config)
             (AvatarEngine.new name None)))).

(** The same engine with a speech handler, and a persona whose
    ['avatar'] entry is [avatar]. *)
Definition with_avatar (avatar : pyval) (e : AvatarEngine.t plugin unit)
    : AvatarEngine.t plugin unit :=
  AvatarEngine.set_speech_handler (Some tt)
    (AvatarEngine.set_persona (Some {[ "avatar" := avatar ]}) e).

(** The same engine in a session. *)
Definition in_session (e : AvatarEngine.t plugin unit) : AvatarEngine.t plugin unit :=
  AvatarEngine.set_session_state
    {| AvatarEngine.active := true;
       AvatarEngine.session_id := Some "s1";
       AvatarEngine.start_time := Some 0;
       AvatarEngine.messages := [];
       AvatarEngine.metrics := AvatarEngine.fresh_metrics |} e.

(** A manager with room for [bound] instances that runs the given
    engines. *)
Definition manager_with (bound : Z) (es : list (AvatarEngine.t plugin unit))
    : InstanceManager.t plugin unit :=
  {| InstanceManager.instances :=
       list_to_map (map (fun e => (AvatarEngine.instance_name e, e)) es);
     InstanceManager.instance_metadata :=
       list_to_map (map (fun e => (AvatarEngine.instance_name e,
                                   {| InstanceManager.started_at := "T0";
                                      InstanceManager.status := "running";
                                      InstanceManager.sessions := 0;
                                      InstanceManager.stopped_at := None |})) es);
     InstanceManager.max_instances := bound |}.

(** The plugins of the merge scenario: a retrieval plugin that answers
    without closing the turn, a tools plugin that closes it, and a third
    plugin behind them. *)
Definition rag_plugin : plugin :=
  answers "ctx" {[ "plugin" := PStr "RAGPlugin"; "retrieved_docs" := PInt 2 ]} false.

Definition tools_plugin : plugin :=
  answers "Tool X: result"
    {[ "plugin" := PStr "ToolsPlugin"; "tools_executed" := PInt 1 ]} true.

Definition third_plugin : plugin := answers "third" {[ "plugin" := PStr "ThirdPlugin" ]} false.

Definition scenario_plugins : list (string * plugin) :=
  [("rag_plugin", rag_plugin); ("tools_plugin", tools_plugin);
   ("third_plugin", third_plugin)].

(** A plugin that raises, in front of one that closes the turn. *)
Definition raise_then_final : list (string * plugin) :=
  [("broken_plugin", failing "boom"); ("tools_plugin", tools_plugin);
   ("third_plugin", third_plugin)].

Definition hello : pydict := {[ "type" := PStr "text"; "content" := PStr "hello" ]}.

Definition two_messages : list pyval :=
  [PDict {[ "type" := PStr "session.update" ]};
   PDict {[ "type" := PStr "response.create" ]}].

(** A network on which no socket opens. *)
Definition offline_network : RealtimeProxy.Network := {|
    RealtimeProxy.setup_connection_params _ :=
      Returned (PStr "wss://example.test/openai/realtime",
                RealtimeProxy.Dict [], RealtimeProxy.Dict []);
    RealtimeProxy.during_grace _ := [];
    RealtimeProxy.frame_other _ := Raised (Exception "TypeError" "object has no len()")
  |}.

(** A network whose set-up is the one for Azure OpenAI. *)
Definition azure_network : RealtimeProxy.Network := {|
    RealtimeProxy.setup_connection_params cfg :=
      match cfg with
      | PDict d => RealtimeProxy._setup_azure_openai d
      | _ => Raised (Exception "AttributeError" "object has no attribute 'get'")
      end;
    RealtimeProxy.during_grace _ := [RealtimeProxy.OnOpen];
    RealtimeProxy.frame_other _ := Raised (Exception "TypeError" "object has no len()")
  |}.

(** The ['azure'] section of a configuration. *)
Definition azure_section : pydict :=
  {[ "openai" := PDict {[ "endpoint" := PStr "https://example.test/";
                          "api_key" := PStr "k1" ]} ]}.

(** A plugin whose [cleanup] raises, in front of one that cleans up. *)
Definition bad_then_good : list (string * plugin) :=
  [("bad", failing "boom"); ("good", silent)].

(** A configuration document. *)
Definition document : pyval :=
  PDict {[ "instance" := PDict {[ "name" := PStr "demo" ]};
           "azure" := PDict {[ "openai" :=
                                 PDict {[ "endpoint" := PStr "${AZURE_OPENAI_ENDPOINT}";
                                          "api_key" := PNone ]} ]} ]}.

End Fixture.

(** * Part III: the properties *)

(** ** Running a computation

    The equations of the primitives, as a rewrite database, and the tactic
    that runs a method symbolically as far as its code is known. *)

Section Run.
Context {St : Type}.

Lemma run_bind {A B} (m : M St A) (k : A -> M St B) s w :
  bind m k s w = match m s w with
                 | (Returned a, s', w') => k a s' w'
                 | (Raised e, s', w') => (Raised e, s', w')
                 end.
Proof. reflexivity. Qed.

Lemma run_ret {A} (a : A) (s : St) w : ret a s w = (Returned a, s, w).
Proof. reflexivity. Qed.

Lemma run_raise {A} e (s : St) w : raise (A:=A) e s w = (Raised e, s, w).
Proof. reflexivity. Qed.

Lemma run_self (s : St) w : self s w = (Returned s, s, w).
Proof. reflexivity. Qed.

Lemma run_update f (s : St) w : update f s w = (Returned tt, f s, w).
Proof. reflexivity. Qed.

Lemma run_emit ev (s : St) w : emit ev s w = (Returned tt, s, logged w [ev]).
Proof. reflexivity. Qed.

Lemma run_logger lvl msg (s : St) w :
  logger lvl msg s w = (Returned tt, s, logged w [Log lvl msg]).
Proof. reflexivity. Qed.

Lemma run_datetime_now (s : St) w :
  datetime_now s w =
    (Returned (clock w), s, {| clock := clock w + 1; trace := trace w |}).
Proof. reflexivity. Qed.

Lemma run_try_except {A} (m : M St A) (h : exn -> M St A) s w :
  try_except m h s w = match m s w with
                       | (Raised e, s', w') => h e s' w'
                       | r => r
                       end.
Proof. reflexivity. Qed.
End Run.

Create Rewrite HintDb run.
#[global] Hint Rewrite @run_bind @run_ret @run_raise @run_self @run_update
  @run_emit @run_logger @run_datetime_now @run_try_except : run.

Ltac run := repeat (progress (autorewrite with run; cbn [negb]; lazy beta iota)).

(** Reads of a field through the setters. *)
Ltac fields :=
  cbn [AvatarEngine.instance_name AvatarEngine.config_path AvatarEngine.config
       AvatarEngine.realtime_proxy AvatarEngine.speech_handler AvatarEngine.plugins
       AvatarEngine.persona AvatarEngine.session_state AvatarEngine._initialized
       AvatarEngine.active AvatarEngine.session_id AvatarEngine.start_time
       AvatarEngine.messages AvatarEngine.metrics
       AvatarEngine.set_config AvatarEngine.set_realtime_proxy
       AvatarEngine.set_speech_handler AvatarEngine.set_plugins
       AvatarEngine.set_persona AvatarEngine.set_session_state
       AvatarEngine.set_initialized AvatarEngine.set_active
       AvatarEngine.set_messages AvatarEngine.set_metrics
       AvatarEngine.append_message clock trace logged].

Lemma logged_nil w : logged w [] = w.
Proof. destruct w; unfold logged; simpl. by rewrite app_nil_r. Qed.

Lemma logged_logged w evs evs' : logged (logged w evs) evs' = logged w (evs ++ evs').
Proof. unfold logged; simpl. by rewrite app_assoc. Qed.

(** * The realtime proxy: queueing while disconnected, flushing on open *)

Section ProxyFacts.
Context `{Runtime} `{RealtimeProxy.Network}.
Import RealtimeProxy.

Lemma frames_app tr tr' : frames (tr ++ tr') = frames tr ++ frames tr'.
Proof. unfold frames. apply omap_app. Qed.

(** Not connected: the message goes to the end of the queue, the answer
    is [False], nothing reaches the socket. *)
Lemma send_not_connected (message : pyval) (p : t) (w : World) :
    is_connected p = false ->
    send message p w =
      (Returned false, set_message_queue (message_queue p ++ [message]) p, w).
Proof.
    intros Hd. unfold send, bind, self. simpl. rewrite Hd. reflexivity.
Qed.

(** Connected with an open socket: the frame goes out, the answer is
    [True], the proxy is as before. *)
Lemma send_connected (message : pyval) (p : t) (w : World) sock :
    is_connected p = true -> ws p = Some sock -> sock_connected sock = true ->
    frameable message = true ->
    send message p w = (Returned true, p, logged w [WsSend (frame_text message)]).
Proof.
    intros Hc Hws Hopen Hf.
    unfold send, bind, self, try_except. simpl. rewrite Hc. simpl.
    destruct message; try discriminate Hf; simpl;
      unfold ws_send, bind, self, emit, ret; simpl; rewrite Hws, Hopen; reflexivity.
Qed.

Lemma send_each_not_connected (ms : list pyval) (p : t) (w : World) :
    is_connected p = false ->
    send_each ms p w =
      (Returned (map (fun _ => false) ms),
       set_message_queue (message_queue p ++ ms) p, w).
Proof.
    revert p. induction ms as [|m ms IH]; intros p Hd.
    - simpl. unfold ret. rewrite app_nil_r. by destruct p.
    - simpl. unfold bind at 1. rewrite send_not_connected by done.
      unfold bind at 1. rewrite IH by done. simpl.
      unfold ret. f_equal. f_equal.
      unfold set_message_queue; simpl. by rewrite <- app_assoc.
Qed.

(** The loop of [_on_open] over any list of messages. *)
Lemma flush_loop (ms : list pyval) (p : t) (w : World) sock :
    is_connected p = true -> ws p = Some sock -> sock_connected sock = true ->
    Forall (fun m => frameable m = true) ms ->
    for_each ms (fun message => send message ;;; ret tt) p w =
      (Returned tt, p, logged w (map (fun m => WsSend (frame_text m)) ms)).
Proof.
    intros Hc Hws Hopen Hall. revert w.
    induction Hall as [|m ms Hm _ IH]; intros w.
    - simpl. unfold ret. by rewrite logged_nil.
    - simpl. unfold bind at 1. unfold bind at 1.
      rewrite (send_connected m p w sock) by done.
      unfold ret at 1. rewrite IH. by rewrite logged_logged.
Qed.

Lemma _on_open_flushes (p : t) (w : World) sock :
    ws p = Some sock -> sock_connected sock = true ->
    Forall (fun m => frameable m = true) (message_queue p) ->
    _on_open p w =
      (Returned tt, set_message_queue [] (set_is_connected true p),
       logged w (Log INFO "Realtime WebSocket connection established"
                 :: map (fun m => WsSend (frame_text m)) (message_queue p))).
Proof.
    intros Hws Hopen Hall.
    unfold _on_open. unfold bind at 1. unfold logger, emit.
    unfold bind at 1. unfold update at 1. unfold bind at 1. unfold self at 1.
    unfold bind at 1.
    rewrite (flush_loop _ _ _ sock); try done.
    unfold update, logged. simpl. by rewrite <- app_assoc.
Qed.

(** The socket opens: the library marks it open and calls [_on_open]. *)
Lemma deliver_open_flushes (p : t) (w : World) sock :
  ws p = Some sock ->
  Forall (fun m => frameable m = true) (message_queue p) ->
  exists p',
    deliver OnOpen p w =
      (Returned tt, p',
       logged w (Log INFO "Realtime WebSocket connection established"
                 :: map (fun m => WsSend (frame_text m)) (message_queue p))) /\
    is_connected p' = true /\ message_queue p' = [] /\
    ws p' = Some {| url := url sock; header := header sock; sock_connected := true |}.
Proof.
  intros Hws Hall. unfold deliver. run. rewrite Hws.
  erewrite _on_open_flushes; [|reflexivity|reflexivity|exact Hall].
  eexists. split; [reflexivity|]. done.
Qed.

Lemma frames_sent (l : list pyval) :
    frames (map (fun m => WsSend (frame_text m)) l) = map frame_text l.
Proof. induction l as [|m l IH]; simpl; [done|]. by rewrite <- IH. Qed.


End ProxyFacts.


(** * Sessions: no message without a session *)

Section NoSessionFacts.
Context {P S : Type}.
Context `{Runtime} `{RealtimeProxy.Network} `{Plugin P} `{Speech S}
  `{AvatarEngine.Files P}.

Lemma engine_process_message_inactive
      (message : pydict) (e : AvatarEngine.t P S) (w : World) :
    AvatarEngine.active (AvatarEngine.session_state e) = false ->
    AvatarEngine.process_message message e w = (Returned no_active_session, e, w).
Proof.
    intros Hin. unfold AvatarEngine.process_message, bind, self.
    rewrite Hin. reflexivity.
Qed.

Lemma manager_process_message_inactive
      (name : string) (message : pydict) (mg : InstanceManager.t P S)
      (e : AvatarEngine.t P S) (w : World) :
    InstanceManager.instances mg !! name = Some e ->
    AvatarEngine.active (AvatarEngine.session_state e) = false ->
    InstanceManager.process_message name message mg w =
      (Returned no_active_session, mg, w).
Proof.
    intros Hreg Hin.
    unfold InstanceManager.process_message, InstanceManager.get_instance, bind, self.
    rewrite Hreg, Hin. reflexivity.
Qed.

(** C9.  On an engine without an active session, [process_message]
    returns the error record ['No active session']: it returns (no
    exception), and the engine (history, metrics, active flag included)
    and the world are left as they were.  The same holds when the call
    comes through the manager, and for an engine fresh from its
    constructor, on which no session was ever started. *)
Theorem process_message_without_session
      (message : pydict) (e : AvatarEngine.t P S) (w : World) :
    AvatarEngine.active (AvatarEngine.session_state e) = false ->
    AvatarEngine.process_message message e w = (Returned no_active_session, e, w) /\
    (forall (mg : InstanceManager.t P S) (name : string),
        InstanceManager.instances mg !! name = Some e ->
        InstanceManager.process_message name message mg w =
          (Returned no_active_session, mg, w)) /\
    (forall (name : string) (path : option string),
        AvatarEngine.process_message message (AvatarEngine.new name path) w =
          (Returned no_active_session, AvatarEngine.new (P:=P) (S:=S) name path, w)).
Proof.
    intros Hin. split; [by apply engine_process_message_inactive|].
    split.
    - intros mg name Hreg. by apply (manager_process_message_inactive _ _ _ e).
    - intros name path. by apply engine_process_message_inactive.
Qed.
End NoSessionFacts.

Lemma process_message_without_session_witness :
  let e : AvatarEngine.t Fixture.plugin unit := AvatarEngine.new "demo" None in
  AvatarEngine.process_message {[ "content" := PStr "hello" ]} e Fixture.world0 =
    (Returned no_active_session, e, Fixture.world0).
Proof.
  intros e.
  apply (process_message_without_session {[ "content" := PStr "hello" ]} e Fixture.world0).
  reflexivity.
Defined.

(** * A logic of what a computation does to its object

    [keeps R m]: whatever [m] does and however it ends, the object it
    leaves is [R]-related to the object it found.  For a preorder [R] the
    property goes through sequencing, handlers and loops, so that it can be
    checked on the primitive steps of a method. *)

Section Keeps.
Context {St : Type} (R : St -> St -> Prop) `{!PreOrder R}.

Lemma keeps_ret {A} (a : A) : keeps R (ret a).
Proof. intros s w. simpl. reflexivity. Qed.

Lemma keeps_raise {A} (e : exn) : keeps R (raise (A:=A) e).
Proof. intros s w. simpl. reflexivity. Qed.

Lemma keeps_self : keeps R self.
Proof. intros s w. simpl. reflexivity. Qed.

Lemma keeps_emit ev : keeps R (emit ev).
Proof. intros s w. simpl. reflexivity. Qed.

Lemma keeps_logger lvl msg : keeps R (logger lvl msg).
Proof. apply keeps_emit. Qed.

Lemma keeps_datetime_now : keeps R datetime_now.
Proof. intros s w. simpl. reflexivity. Qed.

Lemma keeps_lift_outcome {A} (o : outcome A) : keeps R (lift_outcome o).
Proof. destruct o; [apply keeps_ret | apply keeps_raise]. Qed.

Lemma keeps_update (f : St -> St) : (forall s, R s (f s)) -> keeps R (update f).
Proof. intros Hf s w. simpl. apply Hf. Qed.

Lemma keeps_bind {A B} (m : M St A) (k : A -> M St B) :
    keeps R m -> (forall a, keeps R (k a)) -> keeps R (bind m k).
Proof.
    intros Hm Hk s w. unfold bind. specialize (Hm s w).
    destruct (m s w) as [[[a|e] s'] w']; simpl in *; [|done].
    etrans; [exact Hm|]. apply Hk.
Qed.

Lemma keeps_try_except {A} (m : M St A) (h : exn -> M St A) :
    keeps R m -> (forall e, keeps R (h e)) -> keeps R (try_except m h).
Proof.
    intros Hm Hh s w. unfold try_except. specialize (Hm s w).
    destruct (m s w) as [[[a|e] s'] w']; simpl in *; [done|].
    etrans; [exact Hm|]. apply Hh.
Qed.

Lemma keeps_for_each {A} (xs : list A) (body : A -> M St unit) :
    (forall x, keeps R (body x)) -> keeps R (for_each xs body).
Proof.
    intros Hb. induction xs as [|x xs IH]; simpl.
    - apply keeps_ret.
    - apply keeps_bind; [apply Hb | intros _; apply IH].
Qed.
End Keeps.

Create HintDb keeps.

#[global] Hint Resolve keeps_ret keeps_raise keeps_self keeps_emit keeps_logger
  keeps_datetime_now keeps_lift_outcome : keeps.
#[global] Hint Extern 0 (PreOrder _) => exact _ : keeps.

(** Steps of a proof that follows the code: a sequencing, a handler, a
    primitive. *)
Ltac keeps_bind := eapply keeps_bind; [exact _ | |].
Ltac keeps_try := eapply keeps_try_except; [exact _ | |].
Ltac keeps_prim := solve [auto with keeps].
Ltac keeps_update := eapply keeps_update.

Lemma returns_ret {St A} (a : A) : returns (St:=St) (ret a).
Proof. intros s w. by exists a. Qed.

Lemma returns_bind {St A B} (m : M St A) (k : A -> M St B) :
  returns m -> (forall a, returns (k a)) -> returns (bind m k).
Proof.
  intros Hm Hk s w. unfold bind. destruct (Hm s w) as [a Ha].
  destruct (m s w) as [[r s'] w']; simpl in Ha; subst r. apply Hk.
Qed.

Lemma returns_try_except {St A} (m : M St A) (h : exn -> M St A) :
  (forall e, returns (h e)) -> returns (try_except m h).
Proof.
  intros Hh s w. unfold try_except.
  destruct (m s w) as [[[a|e] s'] w']; [by exists a | apply Hh].
Qed.

Lemma returns_logger {St} lvl msg : returns (St:=St) (logger lvl msg).
Proof. intros s w. by exists tt. Qed.

(** [emits Q m]: [m] leaves the clock alone and adds to the trace only
    events that satisfy [Q]. *)

Section Emits.
Context {St : Type} (Q : event -> bool).

Lemma emits_ret {A} (a : A) : emits (St:=St) Q (ret a).
Proof. intros s w. exists []. by rewrite logged_nil. Qed.

Lemma emits_raise {A} (e : exn) : emits (St:=St) Q (raise (A:=A) e).
Proof. intros s w. exists []. by rewrite logged_nil. Qed.

Lemma emits_self : emits (St:=St) Q self.
Proof. intros s w. exists []. by rewrite logged_nil. Qed.

Lemma emits_update f : emits (St:=St) Q (update f).
Proof. intros s w. exists []. by rewrite logged_nil. Qed.

Lemma emits_emit ev : Q ev = true -> emits (St:=St) Q (emit ev).
Proof. intros Hq s w. exists [ev]. simpl. by rewrite Hq. Qed.

Lemma emits_logger lvl msg : Q (Log lvl msg) = true -> emits (St:=St) Q (logger lvl msg).
Proof. apply emits_emit. Qed.

Lemma emits_bind {A B} (m : M St A) (k : A -> M St B) :
  emits (St:=St) Q m -> (forall a, emits (St:=St) Q (k a)) -> emits (St:=St) Q (bind m k).
Proof.
  intros Hm Hk s w. unfold bind. destruct (Hm s w) as (evs & Hw & Hq).
  destruct (m s w) as [[[a|e] s'] w']; simpl in *; subst w'; [|eauto].
  destruct (Hk a s' (logged w evs)) as (evs' & Hw' & Hq').
  exists (evs ++ evs'). rewrite Hw', logged_logged. split; [done|].
  by rewrite forallb_app, Hq, Hq'.
Qed.

Lemma emits_try_except {A} (m : M St A) (h : exn -> M St A) :
  emits (St:=St) Q m -> (forall e, emits (St:=St) Q (h e)) -> emits (St:=St) Q (try_except m h).
Proof.
  intros Hm Hh s w. unfold try_except. destruct (Hm s w) as (evs & Hw & Hq).
  destruct (m s w) as [[[a|e] s'] w']; simpl in *; subst w'; [eauto|].
  destruct (Hh e s' (logged w evs)) as (evs' & Hw' & Hq').
  exists (evs ++ evs'). rewrite Hw', logged_logged. split; [done|].
  by rewrite forallb_app, Hq, Hq'.
Qed.

Lemma emits_lift_outcome {A} (o : outcome A) : emits (St:=St) Q (lift_outcome o).
Proof. destruct o; [apply emits_ret | apply emits_raise]. Qed.

Lemma emits_for_each {A} (xs : list A) (body : A -> M St unit) :
  (forall x, emits (St:=St) Q (body x)) -> emits (St:=St) Q (for_each xs body).
Proof.
  intros Hb. induction xs as [|x xs IH]; simpl.
  - apply emits_ret.
  - apply emits_bind; [apply Hb | intros _; apply IH].
Qed.
End Emits.

Ltac emits_step :=
  first [ apply emits_ret | apply emits_raise | apply emits_self | apply emits_update
        | apply emits_lift_outcome
        | apply emits_logger; reflexivity | apply emits_emit; reflexivity
        | apply emits_bind; [|intros ?] | apply emits_try_except; [|intros ?]
        | apply emits_for_each; intros ? ].

(** ** Triples: what holds when a computation ends *)

Section Triples.
Context {St : Type}.

Lemma triple_weaken {A} (I I' : St -> Prop) (m : M St A) (Q Q' : outcome A -> St -> Prop) :
  triple I' m Q' -> (forall s, I s -> I' s) -> (forall r s, Q' r s -> Q r s) ->
  triple I m Q.
Proof. intros Hm HI HQ s w Hs. apply HQ, Hm, HI, Hs. Qed.

Lemma triple_any {A} (I : St -> Prop) (m : M St A) (Q : outcome A -> St -> Prop) :
  (forall r s, Q r s) -> triple I m Q.
Proof. intros HQ s w _. apply HQ. Qed.

Lemma triple_bind {A B} (I : St -> Prop) (Mid : A -> St -> Prop)
    (m : M St A) (k : A -> M St B) (Q : outcome B -> St -> Prop) :
  triple I m (fun r s => match r with
                         | Returned a => Mid a s
                         | Raised e => Q (Raised e) s
                         end) ->
  (forall a, triple (Mid a) (k a) Q) ->
  triple I (bind m k) Q.
Proof.
  intros Hm Hk s w Hs. unfold bind. specialize (Hm s w Hs).
  destruct (m s w) as [[[a|e] s'] w']; simpl in *; [|done].
  by apply Hk.
Qed.

Lemma triple_try_except {A} (I : St -> Prop) (Mid : exn -> St -> Prop)
    (m : M St A) (h : exn -> M St A) (Q : outcome A -> St -> Prop) :
  triple I m (fun r s => match r with
                         | Returned a => Q (Returned a) s
                         | Raised e => Mid e s
                         end) ->
  (forall e, triple (Mid e) (h e) Q) ->
  triple I (try_except m h) Q.
Proof.
  intros Hm Hh s w Hs. unfold try_except. specialize (Hm s w Hs).
  destruct (m s w) as [[[a|e] s'] w']; simpl in *; [done|].
  by apply Hh.
Qed.

Lemma triple_ret {A} (I : St -> Prop) (a : A) (Q : outcome A -> St -> Prop) :
  (forall s, I s -> Q (Returned a) s) -> triple I (ret a) Q.
Proof. intros HQ s w Hs. by apply HQ. Qed.

Lemma triple_raise {A} (I : St -> Prop) (e : exn) (Q : outcome A -> St -> Prop) :
  (forall s, I s -> Q (Raised e) s) -> triple I (raise e) Q.
Proof. intros HQ s w Hs. by apply HQ. Qed.

Lemma triple_self (I : St -> Prop) (Q : outcome St -> St -> Prop) :
  (forall s, I s -> Q (Returned s) s) -> triple I self Q.
Proof. intros HQ s w Hs. by apply HQ. Qed.

Lemma triple_update (I : St -> Prop) (f : St -> St) (Q : outcome unit -> St -> Prop) :
  (forall s, I s -> Q (Returned tt) (f s)) -> triple I (update f) Q.
Proof. intros HQ s w Hs. by apply HQ. Qed.

Lemma triple_emit (I : St -> Prop) ev (Q : outcome unit -> St -> Prop) :
  (forall s, I s -> Q (Returned tt) s) -> triple I (emit ev) Q.
Proof. intros HQ s w Hs. by apply HQ. Qed.

Lemma triple_logger (I : St -> Prop) lvl msg (Q : outcome unit -> St -> Prop) :
  (forall s, I s -> Q (Returned tt) s) -> triple I (logger lvl msg) Q.
Proof. apply triple_emit. Qed.

Lemma triple_lift_outcome {A} (I : St -> Prop) (o : outcome A) (Q : outcome A -> St -> Prop) :
  (forall s, I s -> Q o s) -> triple I (lift_outcome o) Q.
Proof. intros HQ s w Hs. destruct o; by apply HQ. Qed.

(** A computation that keeps a property on every exit can stand in a
    sequence whose exits all ask for it. *)
Lemma triple_always {A} (I : St -> Prop) (m : M St A) (Q : outcome A -> St -> Prop) :
  triple I m (always I) -> (forall r s, I s -> Q r s) -> triple I m Q.
Proof. intros Hm HQ. eapply triple_weaken; [exact Hm | done | exact HQ]. Qed.

(** A loop keeps what each of its turns keeps. *)
Lemma triple_for_each {A} (I : St -> Prop) (xs : list A) (body : A -> M St unit) :
  (forall x, triple I (body x) (always I)) -> triple I (for_each xs body) (always I).
Proof.
  intros Hb. induction xs as [|x xs IH]; simpl.
  - by apply triple_ret.
  - apply (triple_bind _ (fun _ => I)); [|intros _; apply IH].
    apply (triple_always _ _ _ (Hb x)). by intros [a|e] s.
Qed.

(** What is kept as a relation is kept as a property. *)
Lemma keeps_triple {A} (R : St -> St -> Prop) (I : St -> Prop) (m : M St A) :
  keeps R m -> (forall s s', R s s' -> I s -> I s') -> triple I m (always I).
Proof. intros Hk HR s w Hs. exact (HR _ _ (Hk s w) Hs). Qed.
End Triples.

(** * The registry: capacity and idempotent start *)

Section RegistryFacts.
Context {P S : Type}.
Context `{Runtime} `{RealtimeProxy.Network} `{Plugin P} `{Speech S}
  `{AvatarEngine.Files P} `{InstanceManager.Factory P S}.
Import InstanceManager.

Local Opaque AvatarEngine.initialize AvatarEngine.stop_session.

(** C6.  [start_instance] on a name that is already in the registry
    answers [True], logs a warning and leaves the manager (registry,
    engines, metadata) exactly as it was: the factory is not asked for a
    second engine. *)
Theorem start_instance_idempotent
      (name : string) (mg : t P S) (e : AvatarEngine.t P S) (w : World) :
    instances mg !! name = Some e ->
    start_instance name mg w =
      (Returned true, mg,
       logged w [Log WARNING ("Instance " +:+ name +:+ " is already running")]).
Proof.
    intros Hreg. unfold start_instance, try_except, bind, self.
    rewrite Hreg. reflexivity.
Qed.

#[local] Instance within_preorder : PreOrder (within (P:=P) (S:=S)).
Proof.
  split.
  - intros mg. split; done.
  - intros a b c [Hab Hab'] [Hbc Hbc']. split; [set_solver | congruence].
Qed.

Lemma keeps_on_instance {A} (name : string) (m : M (AvatarEngine.t P S) A) :
  keeps within (on_instance name m).
Proof.
  intros mg w. unfold on_instance.
  destruct (instances mg !! name) as [e|] eqn:Hreg; simpl; [|reflexivity].
  destruct (m e w) as [[r e'] w']; simpl. split; [|done]. simpl.
  rewrite dom_insert_L. apply elem_of_dom_2 in Hreg.
  apply union_subseteq. split; [by apply singleton_subseteq_l | done].
Qed.

Lemma keeps_stop_instance (name : string) : keeps within (stop_instance name).
Proof.
  unfold stop_instance.
  keeps_try; [|intros ex; keeps_bind; [keeps_prim | intros _; keeps_prim]].
  keeps_bind; [keeps_prim|]. intros mg.
  destruct (instances mg !! name) as [e|].
  2: { keeps_bind; [keeps_prim | intros _; keeps_prim]. }
  keeps_bind.
  { destruct (AvatarEngine.active _); [|keeps_prim].
    keeps_bind; [apply keeps_on_instance | intros _; keeps_prim]. }
  intros _. keeps_bind; [apply keeps_on_instance|]. intros _.
  keeps_bind.
  { keeps_update. intros mg'. split; [|done]. simpl.
    rewrite dom_delete_L. apply subseteq_difference_l. done. }
  intros _. keeps_bind; [keeps_prim|]. intros mg'.
  keeps_bind.
  { destruct (instance_metadata mg' !! name); [|keeps_prim].
    keeps_bind; [keeps_prim|]. intros n.
    keeps_update. intros mg''. split; done. }
  intros _. keeps_bind; [keeps_prim | intros _; keeps_prim].
Qed.

Lemma returns_stop_instance (name : string) : returns (stop_instance name).
Proof.
  unfold stop_instance. apply returns_try_except. intros ex.
  apply returns_bind; [apply returns_logger | intros _; apply returns_ret].
Qed.

Lemma within_bounded (mg mg' : t P S) : within mg mg' -> bounded mg -> bounded mg'.
Proof.
  intros [Hdom Hmax] Hb. unfold bounded in *. rewrite Hmax.
  apply subseteq_size in Hdom. rewrite !size_dom in Hdom. lia.
Qed.

(** At capacity, a name that is not running is refused: the answer is
    [False], the limit is reported in the log, the manager is untouched. *)
Lemma start_instance_at_capacity (name : string) (mg : t P S) (w : World) :
  instances mg !! name = None ->
  max_instances mg <= Z.of_nat (size (instances mg)) ->
  start_instance name mg w =
    (Returned false, mg,
     logged w [Log ERROR ("Maximum instance limit reached (" +:+
                          pretty (max_instances mg) +:+ ")")]).
Proof.
  intros Hfree Hfull. unfold start_instance, try_except, bind, self.
  rewrite Hfree. apply Z.leb_le in Hfull. rewrite Hfull. reflexivity.
Qed.

(** What [start_instance] can do to the manager: nothing, or register one
    new name below the bound. *)
Lemma start_instance_cases (name : string) (mg : t P S) (w : World) :
  exists (b : bool) mg' w',
    start_instance name mg w = (Returned b, mg', w') /\
    (mg' = mg \/
     (b = true /\ instances mg !! name = None /\
      Z.of_nat (size (instances mg)) < max_instances mg /\
      exists e md,
        mg' = set_instance_metadata (<[name := md]> (instance_metadata mg))
                (set_instances (<[name := e]> (instances mg)) mg))).
Proof.
  unfold start_instance, try_except, bind, self.
  destruct (instances mg !! name) as [e|] eqn:Hreg; simpl.
  { eexists _, _, _. split; [reflexivity|]. by left. }
  destruct (Z.leb _ _) eqn:Hcap; simpl.
  { eexists _, _, _. split; [reflexivity|]. by left. }
  apply Z.leb_gt in Hcap.
  destruct (create_avatar name) as [a|ex]; simpl.
  2: { eexists _, _, _. split; [reflexivity|]. by left. }
  unfold on_local.
  destruct (AvatarEngine.initialize a w) as [[[u|ex] a'] w']; simpl.
  2: { eexists _, _, _. split; [reflexivity|]. by left. }
  eexists _, _, _. split; [reflexivity|]. right.
  split; [done|]. split; [done|]. split; [done|]. eauto.
Qed.

Lemma start_instance_bounded (name : string) (mg : t P S) (w : World) :
  bounded mg -> bounded (snd (fst (start_instance name mg w))).
Proof.
  intros Hb. destruct (start_instance_cases name mg w)
    as (b & mg' & w' & -> & [-> | (_ & Hfree & Hlt & e & md & ->)]); simpl; [done|].
  unfold bounded. simpl. rewrite map_size_insert_None by done. lia.
Qed.

Lemma perform_returns (c : call) (mg : t P S) (w : World) :
  exists b, fst (fst (perform c mg w)) = Returned b.
Proof.
  destruct c as [name|name]; simpl.
  - destruct (start_instance_cases name mg w) as (b & mg' & w' & -> & _). by exists b.
  - apply returns_stop_instance.
Qed.

Lemma perform_bounded (c : call) (mg : t P S) (w : World) :
  bounded mg -> bounded (snd (fst (perform c mg w))).
Proof.
  intros Hb. destruct c as [name|name]; simpl.
  - by apply start_instance_bounded.
  - eapply within_bounded; [apply keeps_stop_instance | done].
Qed.

Lemma perform_all_bounded (cs : list call) (mg : t P S) (w : World) :
  bounded mg ->
  exists bs mg' w',
    perform_all cs mg w = (Returned bs, mg', w') /\ bounded mg' /\
    max_instances mg' = max_instances mg.
Proof.
  revert mg w. induction cs as [|c cs IH]; intros mg w Hb.
  - simpl. eexists _, _, _. split; [reflexivity|]. done.
  - simpl. unfold bind at 1.
    pose proof (perform_bounded c mg w Hb) as Hb'.
    assert (max_instances (snd (fst (perform c mg w))) = max_instances mg) as Hmax.
    { destruct c as [name|name]; simpl.
      - destruct (start_instance_cases name mg w)
          as (b & mg' & w' & -> & [-> | (_ & _ & _ & e & md & ->)]); done.
      - apply keeps_stop_instance. }
    destruct (perform_returns c mg w) as [b Hr].
    destruct (perform c mg w) as [[r mg1] w1]; simpl in *. subst r.
    destruct (IH mg1 w1 Hb') as (bs & mg' & w' & Hrun & Hbd & Hmax').
    unfold bind at 1. rewrite Hrun. simpl.
    eexists _, _, _. split; [reflexivity|]. split; [done|]. congruence.
Qed.

(** C2.  From a registry within its bound, every sequence of
    [start_instance] and [stop_instance] calls runs to its end and leaves a
    registry within the same bound; the bound of a new manager is 10 and
    its registry is empty; and a [start_instance] for a name that is not
    running, made when the registry is full, answers [False], reports the
    limit in the log and leaves the manager, with every running engine, as
    it was. *)
Theorem capacity_never_exceeded (mg : t P S) (w : World) (cs : list call) :
  bounded mg ->
  (exists bs mg' w',
      perform_all cs mg w = (Returned bs, mg', w') /\
      Z.of_nat (size (instances mg')) <= max_instances mg' /\
      max_instances mg' = max_instances mg) /\
  (forall name,
      instances mg !! name = None ->
      max_instances mg <= Z.of_nat (size (instances mg)) ->
      start_instance name mg w =
        (Returned false, mg,
         logged w [Log ERROR ("Maximum instance limit reached (" +:+
                              pretty (max_instances mg) +:+ ")")])) /\
  max_instances (new (P:=P) (S:=S)) = 10 /\
  bounded (new (P:=P) (S:=S)).
Proof.
  intros Hb. split; [by apply perform_all_bounded|].
  split; [intros name; apply start_instance_at_capacity|].
  split; [reflexivity|]. unfold bounded, new. simpl. rewrite map_size_empty. lia.
Qed.
End RegistryFacts.

Lemma start_instance_idempotent_witness :
  let mg := Fixture.manager_with 10 [Fixture.engine_with "a" []] in
  InstanceManager.start_instance "a" mg Fixture.world0 =
    (Returned true, mg,
     logged Fixture.world0 [Log WARNING ("Instance " +:+ "a" +:+ " is already running")]).
Proof.
  intros mg.
  apply (start_instance_idempotent "a" mg (Fixture.engine_with "a" []) Fixture.world0).
  reflexivity.
Defined.

Lemma capacity_never_exceeded_witness :
  exists bs mg' w',
    perform_all [Start "a"; Start "b"; Stop "a"] InstanceManager.new Fixture.world0 =
      (Returned bs, mg', w') /\
    Z.of_nat (size (InstanceManager.instances mg')) <= InstanceManager.max_instances mg' /\
    InstanceManager.max_instances mg' =
      InstanceManager.max_instances (InstanceManager.new (P:=Fixture.plugin) (S:=unit)).
Proof.
  apply (capacity_never_exceeded InstanceManager.new Fixture.world0
           [Start "a"; Start "b"; Stop "a"]).
  unfold bounded. simpl. rewrite map_size_empty. lia.
Defined.

(** The capacity scenario: with room for two, ["a"] and ["b"] start, ["c"]
    is refused with the limit in the log, and after ["a"] is stopped ["c"]
    starts. *)
Example capacity_scenario :
  let '(answers, mg', w') :=
    perform_all [Start "a"; Start "b"; Start "c"; Stop "a"; Start "c"]
      (Fixture.manager_with 2 []) Fixture.world0 in
  answers = Returned [true; true; false; true; true] /\
  elements (dom (InstanceManager.instances mg')) = ["c"; "b"] /\
  In "Maximum instance limit reached (2)" (errors (trace w')).
Proof. vm_compute. split; [reflexivity|]. split; [reflexivity|]. tauto. Qed.

(** * Stopping an instance whose plugin fails to clean up *)

(** C1 (what the code does).  An instance without a session holds a
    plugin ["bad"] whose [cleanup] raises, followed by a plugin ["good"].
    [stop_instance] answers [False]; the instance is still in the registry
    with the status [running]; [cleanup] of ["good"] was never called; the
    failure is in the log as a failed stop. *)
Theorem stop_instance_cleanup_error_keeps_instance :
  let mg := Fixture.manager_with 10
              [Fixture.engine_with "a" [("bad", Fixture.failing "boom");
                                        ("good", Fixture.silent)]] in
  let '(answer, mg', w') := InstanceManager.stop_instance "a" mg Fixture.world0 in
  answer = Returned false /\
  elements (dom (InstanceManager.instances mg')) = ["a"] /\
  InstanceManager.status <$> (InstanceManager.instance_metadata mg' !! "a") = Some "running" /\
  cleaned (trace w') = ["bad"] /\
  errors (trace w') = ["Failed to stop instance a: boom"].
Proof. vm_compute. repeat split; reflexivity. Qed.

(** The sibling loop of [stop_session] shields each plugin: on the same
    plugins it calls [cleanup] on both and the session stops. *)
Example stop_session_shields_cleanup :
  let e := Fixture.in_session
             (Fixture.engine_with "a" [("bad", Fixture.failing "boom");
                                       ("good", Fixture.silent)]) in
  let '(answer, e', w') := AvatarEngine.stop_session e Fixture.world0 in
  (exists d, answer = Returned d /\ d !! "status" = Some (PStr "stopped")) /\
  AvatarEngine.active (AvatarEngine.session_state e') = false /\
  cleaned (trace w') = ["bad"; "good"] /\
  errors (trace w') = ["Plugin bad cleanup error: boom"].
Proof. vm_compute. repeat split; try reflexivity. eexists. split; reflexivity. Qed.

(** * The plugin pipeline *)

Section PipelineFacts.
Context {P S : Type}.
Context `{Runtime} `{RealtimeProxy.Network} `{Plugin P} `{Speech S}
  `{AvatarEngine.Files P}.
Import AvatarEngine.

Lemma empty_size_0 (m : pydict) : Nat.eqb (size m) 0 = true -> m = ∅.
Proof. intros Hs. apply Nat.eqb_eq in Hs. by apply map_size_empty_iff. Qed.

(** One turn of the loop, in closed form. *)
Lemma process_step_eq (message : pydict) (name : string) (p : P)
    (r : Response.t) (w : World) :
  process_step message name (p, r) w =
    (Returned (marks_final message p),
     (after_process message p, merge_one message p r),
     logged w (step_events message name p)).
Proof.
  unfold process_step, try_except, bind, self, marks_final, after_process,
    merge_one, written_content, written_metadata, response_of, step_events,
    dict_update.
  simpl. destruct (has_process p); simpl.
  2: { unfold ret. rewrite logged_nil, (left_id_L ∅ (∪)). by destruct r. }
  destruct (process p message) as [[[pr|]|ex] p']; simpl.
  - destruct pr as [[c|] [m|] fin]; simpl;
      repeat match goal with
      | |- context [String.eqb ?c ""] => destruct (String.eqb c "") eqn:?; simpl
      | |- context [Nat.eqb (size ?m) 0] =>
          destruct (Nat.eqb (size m) 0) eqn:Hm; simpl;
          [apply empty_size_0 in Hm; subst m|]
      end;
      unfold update, ret, Response.set_content, Response.update_metadata,
        dict_update, logged; simpl;
      rewrite ?(left_id_L ∅ (∪)); destruct r; reflexivity.
  - unfold ret, logged. simpl. rewrite (left_id_L ∅ (∪)). by destruct r.
  - unfold logger, emit, ret, logged. simpl.
    rewrite (left_id_L ∅ (∪)), <- app_assoc. by destruct r.
Qed.

(** The whole loop, in closed form: it never raises. *)
Lemma process_loop_eq (message : pydict) (items : list (string * P))
    (r : Response.t) (w : World) :
  for_items_from (process_step message) items r w =
    (Returned tt,
     (loop_plugins message items, loop_response message items r),
     logged w (loop_events message items)).
Proof.
  revert r w. induction items as [|[name p] rest IH]; intros r w.
  - simpl. unfold loop_response, loop_events. simpl. by rewrite logged_nil.
  - simpl. rewrite process_step_eq.
    unfold loop_response, loop_events. simpl.
    destruct (marks_final message p); simpl.
    + by rewrite app_nil_r.
    + rewrite IH. rewrite logged_logged. reflexivity.
Qed.

Lemma _process_through_plugins_eq (message : pydict) (e : t P S) (w : World) :
  _process_through_plugins message e w =
    (Returned (Response.to_dict (loop_response message (plugins e) empty_response)),
     set_plugins (loop_plugins message (plugins e)) e,
     logged w (loop_events message (plugins e))).
Proof.
  unfold _process_through_plugins, bind, scoped, for_items.
  rewrite process_loop_eq. reflexivity.
Qed.

Lemma processed_app tr tr' : processed (tr ++ tr') = processed tr ++ processed tr'.
Proof. unfold processed. apply omap_app. Qed.

Lemma processed_step_events (message : pydict) (name : string) (p : P) :
  processed (step_events message name p) = if has_process p then [name] else [].
Proof.
  unfold step_events. destruct (has_process p); [|done]. simpl.
  by destruct (process p message) as [[o|ex] p'].
Qed.

Lemma callable_cons (name : string) (p : P) (rest : list (string * P)) :
  callable ((name, p) :: rest) =
    (if has_process p then [name] else []) ++ callable rest.
Proof.
  unfold callable. rewrite filter_cons. simpl.
  destruct (decide (has_process p = true)) as [->|Hn]; simpl; [done|].
  by destruct (has_process p).
Qed.

Lemma callable_app (l l' : list (string * P)) :
  callable (l ++ l') = callable l ++ callable l'.
Proof. unfold callable. by rewrite filter_app, fmap_app. Qed.

(** The loop calls [process] on the reached plugins that have one, in
    registration order, and on no other. *)
Lemma processed_loop_events (message : pydict) (items : list (string * P)) :
  processed (loop_events message items) = callable (reached message items).
Proof.
  unfold loop_events.
  induction (reached message items) as [|[name p] l IH]; [done|].
  simpl. rewrite processed_app, processed_step_events, IH.
  by rewrite callable_cons.
Qed.

(** Last writer wins, for the content. *)
Lemma fold_merge_content (message : pydict) (l : list (string * P)) (r : Response.t) :
  Response.content (fold_left (fun r np => merge_one message np.2 r) l r) =
    default (Response.content r)
      (last (omap (fun np => written_content message np.2) l)).
Proof.
  revert r. induction l as [|[name p] l IH]; intros r; [done|].
  simpl. rewrite IH. simpl.
  destruct (written_content message p) as [c|]; simpl; [|done].
  rewrite last_cons. by destruct (last _).
Qed.

(** Last writer wins, for every metadata key. *)
Lemma fold_merge_metadata (message : pydict) (l : list (string * P))
    (r : Response.t) (k : string) :
  Response.metadata (fold_left (fun r np => merge_one message np.2 r) l r) !! k =
    match last (omap (fun np => written_metadata message np.2 !! k) l) with
    | Some v => Some v
    | None => Response.metadata r !! k
    end.
Proof.
  revert r. induction l as [|[name p] l IH]; intros r; [done|].
  simpl. rewrite IH. simpl. unfold dict_update.
  destruct (written_metadata message p !! k) as [v|] eqn:Hk; simpl.
  - rewrite last_cons. destruct (last _); [done|].
    by apply lookup_union_Some_l.
  - destruct (last _); [done|]. by apply lookup_union_r.
Qed.

(** Where the loop stops. *)
Lemma reached_app (message : pydict) (pre post : list (string * P)) :
  Forall (fun np => marks_final message np.2 = false) pre ->
  reached message (pre ++ post) = pre ++ reached message post.
Proof.
  induction 1 as [|[name p] pre Hp _ IH]; [done|].
  simpl in *. rewrite Hp. by rewrite IH.
Qed.

Lemma reached_all (message : pydict) (items : list (string * P)) :
  Forall (fun np => marks_final message np.2 = false) items ->
  reached message items = items.
Proof.
  intros Hall. rewrite <- (app_nil_r items) at 1.
  rewrite reached_app by done. simpl. by rewrite app_nil_r.
Qed.

Lemma loop_plugins_app (message : pydict) (pre post : list (string * P)) :
  Forall (fun np => marks_final message np.2 = false) pre ->
  loop_plugins message (pre ++ post) =
    loop_plugins message pre ++ loop_plugins message post.
Proof.
  induction 1 as [|[name p] pre Hp _ IH]; [done|].
  simpl in *. rewrite Hp. by rewrite IH.
Qed.

Lemma loop_plugins_length (message : pydict) (items : list (string * P)) :
  length (loop_plugins message items) = length items.
Proof.
  induction items as [|[name p] rest IH]; [done|].
  simpl. destruct (marks_final message p); simpl; by rewrite ?IH.
Qed.

Lemma to_dict_content_metadata (r : Response.t) :
  Response.to_dict r =
    {[ "content" := PStr (Response.content r);
       "metadata" := PDict (Response.metadata r) ]}.
Proof. reflexivity. Qed.

(** C3.  [_process_through_plugins] returns a dictionary with the merged
    content and metadata and never raises.  [process] is called on the
    plugins in registration order, up to and including the first one whose
    response carries [final = True], and on no plugin after it.  The merged
    content is the non-empty content written last among the plugins called
    (the empty string when none wrote any); under every metadata key the
    value is the one written last among them.  When the plugin [name] is
    the first to mark its response final, the plugins after it are left
    untouched. *)
Theorem pipeline_merges_in_order (message : pydict) (e : t P S) (w : World) :
  exists c md e' w',
    _process_through_plugins message e w =
      (Returned {[ "content" := PStr c; "metadata" := PDict md ]}, e', w') /\
    processed (trace w') =
      processed (trace w) ++ callable (reached message (plugins e)) /\
    c = default ""
          (last (omap (fun np => written_content message np.2)
                   (reached message (plugins e)))) /\
    (forall k,
        md !! k = last (omap (fun np => written_metadata message np.2 !! k)
                          (reached message (plugins e)))) /\
    (forall pre name p post,
        plugins e = pre ++ (name, p) :: post ->
        Forall (fun np => marks_final message np.2 = false) pre ->
        marks_final message p = true ->
        reached message (plugins e) = pre ++ [(name, p)] /\
        drop (Datatypes.S (length pre)) (plugins e') = post).
Proof.
  eexists _, _, _, _. split.
  { rewrite _process_through_plugins_eq, to_dict_content_metadata. reflexivity. }
  split.
  { simpl. by rewrite processed_app, processed_loop_events. }
  split.
  { unfold loop_response. by rewrite fold_merge_content. }
  split.
  { intros k. unfold loop_response. rewrite fold_merge_metadata. simpl.
    destruct (last _); [done|]. apply lookup_empty. }
  intros pre name p post Hsplit Hpre Hfin. rewrite Hsplit. split.
  - rewrite reached_app by done. simpl. by rewrite Hfin.
  - simpl. rewrite loop_plugins_app by done. simpl. rewrite Hfin.
    rewrite (cons_middle _ (loop_plugins message pre) post), app_assoc.
    apply drop_app_length'.
    rewrite length_app, loop_plugins_length. simpl. lia.
Qed.

Lemma errors_app tr tr' : errors (tr ++ tr') = errors tr ++ errors tr'.
Proof. unfold errors. apply omap_app. Qed.

Lemma raising_is_silent (message : pydict) (p : P) (ex : exn) :
  has_process p = true -> fst (process p message) = Raised ex ->
  response_of message p = None.
Proof. intros Hp Hex. unfold response_of. by rewrite Hp, Hex. Qed.

(** A plugin without a response leaves the merged response as it is. *)
Lemma merge_one_silent (message : pydict) (p : P) (r : Response.t) :
  response_of message p = None -> merge_one message p r = r.
Proof.
  intros Hs. unfold merge_one, written_content, written_metadata, dict_update.
  rewrite Hs. simpl. rewrite (left_id_L ∅ (∪)). by destruct r.
Qed.

Lemma loop_response_skip (message : pydict) (pre post : list (string * P))
    (name : string) (p : P) (r : Response.t) :
  Forall (fun np => marks_final message np.2 = false) pre ->
  response_of message p = None ->
  loop_response message (pre ++ (name, p) :: post) r =
    loop_response message (pre ++ post) r.
Proof.
  intros Hpre Hs. unfold loop_response.
  rewrite !reached_app by done. simpl.
  unfold marks_final at 1. rewrite Hs.
  rewrite !fold_left_app. simpl. by rewrite merge_one_silent.
Qed.

Lemma truthy_to_dict (r : Response.t) : truthy (PDict (Response.to_dict r)) = true.
Proof.
  unfold Response.to_dict. simpl.
  rewrite map_size_insert_None; [done|]. by rewrite lookup_singleton_ne.
Qed.

Lemma to_dict_speak (r : Response.t) :
  dict_get (Response.to_dict r) "speak" (PBool true) = PBool true.
Proof.
  unfold dict_get, Response.to_dict.
  rewrite lookup_insert_ne by done. by rewrite lookup_singleton_ne.
Qed.

Lemma to_dict_content (r : Response.t) :
  Response.to_dict r !! "content" = Some (PStr (Response.content r)).
Proof. unfold Response.to_dict. by rewrite lookup_insert_eq. Qed.

(** [process_message] in a session whose metrics carry the two counters:
    it returns the merged response, and the history gains the user entry
    and an assistant entry, whatever the merged content. *)
Lemma process_message_active
    (message : pydict) (e : t P S) (w : World) (n1 n2 : Z) :
  active (session_state e) = true ->
  metrics (session_state e) !! "messages_received" = Some n1 ->
  metrics (session_state e) !! "messages_sent" = Some n2 ->
  exists e' w',
    process_message message e w =
      (Returned (Response.to_dict (loop_response message (plugins e) empty_response)),
       e', w') /\
    messages (session_state e') =
      messages (session_state e) ++
      [ {| role := "user"; content := dict_get message "content" (PStr "");
           timestamp := isoformat (clock w) |};
        {| role := "assistant";
           content := PStr (Response.content
                              (loop_response message (plugins e) empty_response));
           timestamp := isoformat (clock w + 1) |} ].
Proof.
  intros Hact Hr Hs.
  unfold process_message. run. rewrite Hact. run.
  rewrite _process_through_plugins_eq. run.
  rewrite truthy_to_dict. run. fields.
  destruct (speech_handler e) as [h|] eqn:Hsp.
  - rewrite to_dict_speak. cbn [truthy]. unfold subscript.
    rewrite to_dict_content. run. unfold on_speech_handler. fields.
    rewrite Hsp. destruct (speak h _) as [b h']. run.
    unfold incr_metric. run. fields. rewrite Hr. run. fields.
    rewrite lookup_insert_ne by done. rewrite Hs. run. fields.
    eexists _, _. split; [reflexivity|]. fields.
    unfold dict_get. rewrite to_dict_content. simpl. by rewrite <- app_assoc.
  - run. unfold incr_metric. run. fields. rewrite Hr. run. fields.
    rewrite lookup_insert_ne by done. rewrite Hs. run. fields.
    eexists _, _. split; [reflexivity|]. fields.
    unfold dict_get. rewrite to_dict_content. simpl. by rewrite <- app_assoc.
Qed.

(** C4 (amended).  Let the plugin [name] be reached by the loop (no plugin
    before it marks its response final) and let its [process] raise.  Then
    the pipeline returns (it does not raise), the exception is in the error
    log, and the merged response is the one the pipeline computes on the
    same plugins with [name] taken out.  [process] is called on the plugins
    before [name], on [name], and on the plugins after it as far as the
    loop goes without it: up to and including the first that marks its
    response final, and on all of them when none does.  In a session whose
    metrics carry the counters, [process_message] returns that merged
    response as well. *)
Theorem plugin_exception_is_skipped
    (message : pydict) (e : t P S) (w : World)
    (pre post : list (string * P)) (name : string) (p : P) (ex : exn) :
  plugins e = pre ++ (name, p) :: post ->
  Forall (fun np => marks_final message np.2 = false) pre ->
  has_process p = true ->
  fst (process p message) = Raised ex ->
  exists d e' w',
    _process_through_plugins message e w = (Returned d, e', w') /\
    fst (fst (_process_through_plugins message (set_plugins (pre ++ post) e) w)) =
      Returned d /\
    processed (trace w') =
      processed (trace w) ++ callable pre ++ [name] ++ callable (reached message post) /\
    In ("Plugin " +:+ name +:+ " processing error: " +:+ exn_str ex)
       (errors (trace w')) /\
    (Forall (fun np => marks_final message np.2 = false) post ->
     processed (trace w') = processed (trace w) ++ callable (plugins e)) /\
    (forall n1 n2,
        active (session_state e) = true ->
        metrics (session_state e) !! "messages_received" = Some n1 ->
        metrics (session_state e) !! "messages_sent" = Some n2 ->
        exists e'' w'', process_message message e w = (Returned d, e'', w'')).
Proof.
  intros Hsplit Hpre Hp Hex.
  pose proof (raising_is_silent message p ex Hp Hex) as Hs.
  assert (marks_final message p = false) as Hnf.
  { unfold marks_final. by rewrite Hs. }
  assert (reached message (plugins e) = pre ++ (name, p) :: reached message post)
    as Hreach.
  { rewrite Hsplit, reached_app by done. simpl. by rewrite Hnf. }
  eexists _, _, _. split; [apply _process_through_plugins_eq|].
  split.
  { rewrite _process_through_plugins_eq. simpl.
    rewrite Hsplit. by rewrite (loop_response_skip message pre post name p). }
  split.
  { simpl. rewrite processed_app, processed_loop_events, Hreach.
    rewrite callable_app, callable_cons, Hp. reflexivity. }
  split.
  { simpl. rewrite errors_app. apply in_or_app. right.
    unfold loop_events. rewrite Hreach, map_app, concat_app, errors_app.
    apply in_or_app. right. simpl. rewrite errors_app. apply in_or_app. left.
    unfold step_events. rewrite Hp, Hex. simpl. by left. }
  split.
  { intros Hpost. simpl. rewrite processed_app, processed_loop_events, Hreach.
    rewrite (reached_all message post) by done. by rewrite Hsplit. }
  intros n1 n2 Hact Hr Hsent.
  destruct (process_message_active message e w n1 n2 Hact Hr Hsent)
    as (e'' & w'' & Hrun & _).
  eauto.
Qed.
End PipelineFacts.

(** The merge scenario: the content is the tools plugin's, the metadata has
    the keys of both plugins (the later value under the shared key), and
    the third plugin is never called. *)
Example merge_scenario :
  let e := Fixture.in_session (Fixture.engine_with "demo" Fixture.scenario_plugins) in
  let '(answer, e', w') := AvatarEngine._process_through_plugins Fixture.hello e Fixture.world0 in
  answer = Returned {[ "content" := PStr "Tool X: result";
                       "metadata" := PDict {[ "plugin" := PStr "ToolsPlugin";
                                              "retrieved_docs" := PInt 2;
                                              "tools_executed" := PInt 1 ]} ]} /\
  processed (trace w') = ["rag_plugin"; "tools_plugin"] /\
  map (fun np => (np.1, Fixture.calls np.2)) (AvatarEngine.plugins e') =
    [("rag_plugin", 1%nat); ("tools_plugin", 1%nat); ("third_plugin", 0%nat)].
Proof. vm_compute. repeat split; reflexivity. Qed.

Lemma pipeline_merges_in_order_witness :
  let e := Fixture.in_session (Fixture.engine_with "demo" Fixture.scenario_plugins) in
  exists c md e' w',
    AvatarEngine._process_through_plugins Fixture.hello e Fixture.world0 =
      (Returned {[ "content" := PStr c; "metadata" := PDict md ]}, e', w') /\
    reached Fixture.hello (AvatarEngine.plugins e) =
      [("rag_plugin", Fixture.rag_plugin)] ++ [("tools_plugin", Fixture.tools_plugin)] /\
    drop 2 (AvatarEngine.plugins e') = [("third_plugin", Fixture.third_plugin)].
Proof.
  intros e.
  destruct (pipeline_merges_in_order Fixture.hello e Fixture.world0)
    as (c & md & e' & w' & Hrun & _ & _ & _ & Hfinal).
  destruct (Hfinal [("rag_plugin", Fixture.rag_plugin)] "tools_plugin"
              Fixture.tools_plugin [("third_plugin", Fixture.third_plugin)]
              eq_refl ltac:(repeat constructor) eq_refl) as [Hreach Hrest].
  exists c, md, e', w'. split; [exact Hrun|]. split; [exact Hreach | exact Hrest].
Defined.

(** C4 (the claim as stated fails).  The first plugin's [process] is called
    and raises; the second closes the turn; the third, which comes after
    the plugin that raised, is not called. *)
Lemma later_plugin_not_called_after_exception :
  let e := Fixture.in_session (Fixture.engine_with "demo" Fixture.raise_then_final) in
  let '(answer, e', w') := AvatarEngine._process_through_plugins Fixture.hello e Fixture.world0 in
  fst (process (Fixture.failing "boom") Fixture.hello) =
    Raised (Exception "RuntimeError" "boom") /\
  processed (trace w') = ["broken_plugin"; "tools_plugin"] /\
  ~ In "third_plugin" (processed (trace w')) /\
  map (fun np => (np.1, Fixture.calls np.2)) (AvatarEngine.plugins e') =
    [("broken_plugin", 1%nat); ("tools_plugin", 1%nat); ("third_plugin", 0%nat)].
Proof.
  vm_compute. split; [reflexivity|]. split; [reflexivity|].
  split; [|reflexivity]. intros [Hx|[Hx|[]]]; discriminate Hx.
Qed.

Lemma plugin_exception_is_skipped_witness :
  let e := Fixture.in_session (Fixture.engine_with "demo" Fixture.raise_then_final) in
  exists d,
    fst (fst (AvatarEngine._process_through_plugins Fixture.hello e Fixture.world0)) =
      Returned d /\
    fst (fst (AvatarEngine._process_through_plugins Fixture.hello
                (AvatarEngine.set_plugins ([] ++ tl Fixture.raise_then_final) e)
                Fixture.world0)) = Returned d.
Proof.
  intros e.
  destruct (plugin_exception_is_skipped Fixture.hello e Fixture.world0
              [] (tl Fixture.raise_then_final) "broken_plugin"
              (Fixture.failing "boom") (Exception "RuntimeError" "boom")
              eq_refl ltac:(constructor) eq_refl eq_refl)
    as (d & e' & w' & Hrun & Hsame & _).
  exists d. rewrite Hrun. split; [reflexivity | exact Hsame].
Defined.

(** * Stopping an instance: a clean-up that raises, in general *)

Section StopInstanceFacts.
Context {P S : Type}.
Context `{Runtime} `{RealtimeProxy.Network} `{Plugin P} `{Speech S}
        `{AvatarEngine.Files P} `{InstanceManager.Factory P S}.
Import InstanceManager.

Lemma cleaned_app tr tr' : cleaned (tr ++ tr') = cleaned tr ++ cleaned tr'.
Proof. unfold cleaned. apply omap_app. Qed.

Lemma cleanable_cons (name : string) (p : P) (rest : list (string * P)) :
  cleanable ((name, p) :: rest) =
    (if has_cleanup p then [name] else []) ++ cleanable rest.
Proof.
  unfold cleanable. rewrite filter_cons. simpl.
  destruct (decide (has_cleanup p = true)) as [->|Hn]; simpl; [done|].
  by destruct (has_cleanup p).
Qed.

(** The loop of [stop_instance] up to the first [cleanup] that raises: the
    exception leaves the loop, the plugins behind it are not touched. *)
Lemma cleanup_loop_raises (pre post : list (string * P)) (name : string) (p : P)
    (ex : exn) (w : World) :
  Forall (fun np => cleanup_returns np.2) pre ->
  has_cleanup p = true -> fst (cleanup p) = Raised ex ->
  exists evs,
    for_items_from cleanup_step (pre ++ (name, p) :: post) tt w =
      (Raised ex,
       (map (fun np => (np.1, after_cleanup np.2)) pre ++
          (name, snd (cleanup p)) :: post, tt),
       logged w evs) /\
    cleaned evs = cleanable pre ++ [name] /\
    errors evs = [].
Proof.
  intros Hpre Hc Hex. revert w.
  induction Hpre as [|[n0 p0] pre Hp0 _ IH]; intros w.
  - simpl. unfold cleanup_step. run. simpl. rewrite Hc. run.
    destruct (cleanup p) as [o p'] eqn:Hcl. simpl in Hex. subst o. run.
    exists [PluginCleanup name]. by repeat split.
  - simpl. unfold cleanup_step at 1. run. simpl.
    unfold cleanup_returns in Hp0. simpl in Hp0. unfold after_cleanup. simpl.
    destruct (has_cleanup p0) eqn:Hc0.
    + destruct (Hp0 eq_refl) as [u Hu]. run.
      destruct (cleanup p0) as [o p0'] eqn:Hcl0. simpl in Hu. subst o. run.
      destruct (IH (logged w [PluginCleanup n0])) as (evs & -> & Hcl & Herr).
      exists (PluginCleanup n0 :: evs). rewrite logged_logged. simpl.
      split; [done|]. rewrite cleanable_cons, Hc0. simpl.
      split; [by rewrite Hcl | done].
    + run. destruct (IH w) as (evs & -> & Hcl & Herr).
      exists evs. split; [done|]. rewrite cleanable_cons, Hc0. by split.
Qed.

Lemma stop_instance_cleanup_raises (name : string) (mg : t P S)
    (e : AvatarEngine.t P S) (w : World)
    (pre post : list (string * P)) (plugin_name : string) (p : P) (ex : exn) :
  instances mg !! name = Some e ->
  AvatarEngine.active (AvatarEngine.session_state e) = false ->
  AvatarEngine.plugins e = pre ++ (plugin_name, p) :: post ->
  Forall (fun np => cleanup_returns np.2) pre ->
  has_cleanup p = true -> fst (cleanup p) = Raised ex ->
  exists mg' w',
    stop_instance name mg w = (Returned false, mg', w') /\
    is_Some (instances mg' !! name) /\
    instance_metadata mg' = instance_metadata mg /\
    cleaned (trace w') = cleaned (trace w) ++ cleanable pre ++ [plugin_name] /\
    errors (trace w') =
      errors (trace w) ++
      ["Failed to stop instance " +:+ name +:+ ": " +:+ exn_str ex].
Proof.
  intros Hreg Hact Hsplit Hpre Hc Hex.
  unfold stop_instance. run. rewrite Hreg. run. rewrite Hact. run.
  unfold on_instance. rewrite Hreg. unfold scoped, for_items. rewrite Hsplit.
  destruct (cleanup_loop_raises pre post plugin_name p ex w Hpre Hc Hex)
    as (evs & -> & Hcl & Herr).
  run. eexists _, _. split; [reflexivity|]. simpl.
  split; [rewrite lookup_insert_eq; eauto|]. split; [done|].
  rewrite <- app_assoc, cleaned_app, errors_app, cleaned_app, errors_app, Hcl, Herr.
  simpl. by rewrite app_nil_r.
Qed.
End StopInstanceFacts.

(** * The history of a session *)

(** C8 (what the code does).  In a session, a message goes through a
    pipeline whose only plugin returns nothing: the merged content is
    empty, and yet the history gains two entries, the user's and an
    assistant entry with empty content. *)
Theorem process_message_appends_empty_assistant_entry :
  let e := Fixture.in_session (Fixture.engine_with "demo" [("quiet", Fixture.silent)]) in
  let '(answer, e', w') := AvatarEngine.process_message Fixture.hello e Fixture.world0 in
  answer = Returned {[ "content" := PStr ""; "metadata" := PDict ∅ ]} /\
  map (fun m => (AvatarEngine.role m, AvatarEngine.content m))
      (AvatarEngine.messages (AvatarEngine.session_state e')) =
    [("user", PStr "hello"); ("assistant", PStr "")].
Proof. vm_compute. split; reflexivity. Qed.

(** * The set-up of an engine over its life *)

Section EngineInvariant.
Context {P S : Type}.
Context `{Runtime} `{RealtimeProxy.Network} `{Plugin P} `{Speech S}
        `{AvatarEngine.Files P}.
Import AvatarEngine.

Local Abbreviation setup := (same_setup (P:=P) (S:=S)).

#[local] Instance same_setup_preorder : PreOrder setup.
Proof.
  split.
  - intros e. by repeat split.
  - intros a b c (Ha & Hi & Hp & Hs) (Ha' & Hi' & Hp' & Hs'). unfold same_setup.
    rewrite Hi', Hi, Hp', Hp, Hs', Hs. split; [tauto|done].
Qed.

Lemma same_setup_invariant (e e' : t P S) :
  same_setup e e' -> session_invariant e -> session_invariant e'.
Proof.
  intros (Ha & Hi & Hp & Hs) [Hact Hr].
  unfold session_invariant, persona_before_speech in *.
  rewrite Hi, Hp, Hs. split; [tauto|done].
Qed.

Lemma same_setup_persona_before_speech (e e' : t P S) :
  same_setup e e' -> persona_before_speech e -> persona_before_speech e'.
Proof.
  intros (Ha & Hi & Hp & Hs) Hr. unfold persona_before_speech in *.
  by rewrite Hi, Hp, Hs.
Qed.

Lemma same_setup_has_persona (e e' : t P S) :
  same_setup e e' -> has_persona e -> has_persona e'.
Proof. intros (Ha & Hi & Hp & Hs) Hr. unfold has_persona. by rewrite Hp. Qed.

Lemma same_setup_flags_grow (e e' : t P S) : same_setup e e' -> flags_grow e e'.
Proof. intros (Ha & Hi & Hp & Hs). split; [done|]. by rewrite Hi. Qed.

Lemma keeps_on_speech_handler {A} (method : S -> outcome A * S) :
  keeps setup (on_speech_handler method).
Proof.
  intros e w. unfold on_speech_handler.
  destruct (speech_handler e) as [h|] eqn:Hh; simpl; [|reflexivity].
  destruct (method h) as [r h']; simpl. unfold same_setup. simpl. rewrite Hh.
  by repeat split.
Qed.

Lemma keeps_on_realtime_proxy {A} (m : M RealtimeProxy.t A) :
  keeps setup (on_realtime_proxy m).
Proof.
  intros e w. unfold on_realtime_proxy.
  destruct (realtime_proxy e) as [p|]; simpl; [|reflexivity].
  destruct (m p w) as [[r p'] w']; simpl. by repeat split.
Qed.

Lemma keeps_on_plugin {A} name (method : P -> outcome A * P) :
  keeps setup (on_plugin name method).
Proof.
  intros e w. unfold on_plugin.
  destruct (dict_lookup name (plugins e)) as [p|]; simpl; [|reflexivity].
  destruct (method p) as [r p']; simpl. by repeat split.
Qed.

Lemma keeps_scoped_plugins {L A} (l0 : L) (m : M (list (string * P) * L) A) :
  keeps setup (scoped plugins set_plugins l0 m).
Proof.
  intros e w. unfold scoped.
  destruct (m (plugins e, l0) w) as [[r [o' l']] w']; simpl. by repeat split.
Qed.

Lemma keeps_incr_metric key : keeps setup (incr_metric key).
Proof.
  unfold incr_metric. keeps_bind; [keeps_prim|]. intros e.
  destruct (metrics (session_state e) !! key); [|keeps_prim].
  keeps_update. intros e'. by repeat split.
Qed.

Lemma keeps_load_config : keeps setup load_config.
Proof.
  unfold load_config. keeps_try.
  2: { intros ex. keeps_bind; [keeps_prim | intros; keeps_prim]. }
  keeps_bind; [keeps_prim|]. intros e.
  keeps_bind; [keeps_prim|]. intros cfg.
  keeps_bind; [keeps_update; intros e'; by repeat split|]. intros _.
  keeps_bind; [keeps_prim | intros; keeps_prim].
Qed.

Lemma keeps_load_plugins plugin_list : keeps setup (load_plugins plugin_list).
Proof.
  unfold load_plugins. keeps_bind; [keeps_prim|]. intros e.
  match goal with
  | |- context [match ?g with Some l => _ | None => _ end] => destruct g as [l|]
  end; [|keeps_prim].
  apply keeps_for_each; [exact _|]. intros plugin_config.
  keeps_try; [|intros ex; keeps_prim].
  unfold _load_plugin. keeps_bind; [keeps_prim|]. intros e'.
  keeps_bind; [keeps_prim|]. intros [p|]; [|keeps_prim].
  destruct (match plugin_config with PDict d => dict_get d "name" PNone | _ => plugin_config end);
    try keeps_prim.
  keeps_bind; [keeps_update; intros e''; by repeat split|]. intros _.
  keeps_bind; [keeps_prim|]. intros _.
  keeps_bind; [apply keeps_on_plugin | intros; keeps_prim].
Qed.

Lemma keeps_process_message message : keeps setup (process_message message).
Proof.
  unfold process_message. keeps_bind; [keeps_prim|]. intros e.
  destruct (negb (active (session_state e))); [keeps_prim|].
  keeps_bind; [keeps_prim|]. intros n.
  keeps_bind; [keeps_update; intros e'; by repeat split|]. intros _.
  keeps_bind.
  { unfold _process_through_plugins. keeps_bind; [apply keeps_scoped_plugins|].
    intros; keeps_prim. }
  intros response. keeps_bind.
  { destruct (truthy (PDict response)); [|keeps_prim].
    keeps_bind; [keeps_prim|]. intros n'.
    keeps_bind; [keeps_update; intros e'; by repeat split|]. intros _.
    keeps_bind; [keeps_prim|]. intros e'.
    destruct (speech_handler e'); [|keeps_prim].
    destruct (truthy _); [|keeps_prim].
    keeps_bind; [unfold subscript; destruct (response !! "content"); keeps_prim|].
    intros text. keeps_bind; [keeps_prim|]. intros _.
    keeps_bind; [apply keeps_on_speech_handler | intros; keeps_prim]. }
  intros _. keeps_bind; [apply keeps_incr_metric|]. intros _.
  keeps_bind; [apply keeps_incr_metric|]. intros _. keeps_prim.
Qed.

Lemma keeps_stop_session : keeps setup stop_session.
Proof.
  unfold stop_session. keeps_bind; [keeps_prim|]. intros e.
  destruct (negb (active (session_state e))); [keeps_prim|].
  keeps_bind.
  { destruct (realtime_proxy e); [apply keeps_on_realtime_proxy | keeps_prim]. }
  intros _. keeps_bind; [keeps_prim|]. intros e'.
  keeps_bind.
  { destruct (speech_handler e'); [|keeps_prim].
    keeps_bind; [keeps_prim|]. intros _.
    keeps_bind; [apply keeps_on_speech_handler | intros; keeps_prim]. }
  intros _. keeps_bind; [apply keeps_scoped_plugins|]. intros _.
  keeps_bind; [keeps_prim|]. intros n.
  keeps_bind; [keeps_prim|]. intros e''.
  destruct (start_time (session_state e'')); [|keeps_prim].
  keeps_bind; [keeps_update; intros e3; by repeat split|]. intros _.
  keeps_bind; [keeps_prim | intros; keeps_prim].
Qed.

Local Abbreviation grow := (flags_grow (P:=P) (S:=S)).

#[local] Instance flags_grow_preorder : PreOrder grow.
Proof.
  split.
  - intros e. by split.
  - intros a b c [Ha Hi] [Ha' Hi']. split; tauto.
Qed.

Lemma keeps_weaken {A} (m : M (t P S) A) : keeps setup m -> keeps grow m.
Proof. intros Hm s w. apply same_setup_flags_grow, Hm. Qed.

Lemma keeps_azure_get key : keeps setup (azure_get key).
Proof.
  unfold azure_get. keeps_bind; [keeps_prim|]. intros e.
  destruct (config e) as [c|]; [|keeps_prim]. destruct (azure c); keeps_prim.
Qed.

Lemma keeps_azure_config : keeps setup azure_config.
Proof.
  unfold azure_config. keeps_bind; [keeps_prim|]. intros e.
  destruct (config e) as [c|]; keeps_prim.
Qed.

Lemma keeps_grow_load_persona path : keeps grow (load_persona path).
Proof.
  unfold load_persona. keeps_bind; [keeps_prim|]. intros e.
  keeps_try.
  - keeps_bind; [keeps_prim|]. intros v. destruct v; try keeps_prim.
    keeps_bind; [keeps_update; intros e'; by split|]. intros _.
    keeps_bind; [keeps_prim | intros; keeps_prim].
  - intros ex. keeps_bind; [keeps_prim|]. intros _.
    keeps_bind; [keeps_update; intros e'; by split | intros; keeps_prim].
Qed.

(** [initialize] starts no session and does not take the flag back. *)
Lemma keeps_grow_initialize : keeps grow initialize.
Proof.
  unfold initialize. keeps_try.
  2: { intros ex. keeps_bind; [keeps_prim | intros; keeps_prim]. }
  keeps_bind; [keeps_prim|]. intros e0.
  keeps_bind.
  { destruct (config e0); [keeps_prim|].
    keeps_bind; [apply keeps_weaken, keeps_load_config | intros; keeps_prim]. }
  intros _. keeps_bind; [keeps_prim|]. intros e1.
  keeps_bind.
  { destruct (persona_falsy e1); [|keeps_prim].
    keeps_bind; [apply keeps_grow_load_persona | intros; keeps_prim]. }
  intros _. keeps_bind; [apply keeps_weaken, keeps_azure_get|]. intros openai.
  keeps_bind.
  { destruct (truthy openai); [|keeps_prim].
    keeps_bind; [apply keeps_weaken, keeps_azure_config|]. intros cfg.
    keeps_bind; [keeps_prim|]. intros proxy.
    keeps_bind; [keeps_update; intros e'; by split|]. intros _.
    keeps_bind; [apply keeps_weaken, keeps_on_realtime_proxy | intros; keeps_prim]. }
  intros _. keeps_bind; [apply keeps_weaken, keeps_azure_get|]. intros speech.
  keeps_bind.
  { destruct (truthy speech); [|keeps_prim].
    keeps_bind; [apply keeps_weaken, keeps_azure_config|]. intros cfg.
    keeps_bind; [keeps_prim|]. intros h.
    keeps_bind; [keeps_update; intros e'; by split|]. intros _.
    keeps_bind; [keeps_prim|]. intros _.
    keeps_bind; [apply keeps_weaken, keeps_on_speech_handler | intros; keeps_prim]. }
  intros _. keeps_bind; [apply keeps_weaken, keeps_load_plugins|]. intros _.
  keeps_bind; [keeps_update; intros e'; by split|]. intros _.
  keeps_bind; [keeps_prim | intros; keeps_prim].
Qed.

(** [load_persona] leaves a persona, however it ends. *)
Lemma load_persona_has_persona path :
  triple (fun _ : t P S => True) (load_persona path) (always has_persona).
Proof.
  intros s w _. unfold load_persona. run.
  destruct (read_persona _) as [v|ex]; simpl; run; [|done].
  destruct v; run; done.
Qed.

(** A step of [initialize] behind the loading of the persona. *)
Lemma triple_has_persona {A} (m : M (t P S) A) :
  keeps setup m ->
  triple has_persona m
    (fun r s => match r with
                | Returned _ => has_persona s
                | Raised _ => persona_before_speech s
                end).
Proof.
  intros Hm. apply triple_always.
  - apply (keeps_triple setup); [done | apply same_setup_has_persona].
  - intros [a|ex] s Hs; [done|]. intros _. by right.
Qed.

(** [initialize] keeps the persona ahead of the speech handler however it
    ends, and an engine it returns from is ready. *)
Lemma initialize_ready :
  triple persona_before_speech initialize
    (fun r (e : t P S) =>
       match r with
       | Returned _ => ready e
       | Raised _ => persona_before_speech e
       end).
Proof.
  unfold initialize.
  apply (triple_try_except _ (fun _ => persona_before_speech)).
  2: { intros ex s w Hs. run. done. }
  apply (triple_bind _ (fun _ => persona_before_speech)); [by apply triple_self|].
  intros e0.
  apply (triple_bind _ (fun _ => persona_before_speech)).
  { apply triple_always.
    - apply (keeps_triple setup); [|apply same_setup_persona_before_speech].
      destruct (config e0); [keeps_prim|].
      keeps_bind; [apply keeps_load_config | intros; keeps_prim].
    - by intros [a|ex] s. }
  intros _.
  apply (triple_bind _ (fun a s => a = s)); [by apply triple_self|].
  intros e1.
  apply (triple_bind _ (fun _ => has_persona)).
  { destruct (persona_falsy e1) eqn:Hf.
    - apply (triple_bind _ (fun _ => has_persona)); [|intros _; by apply triple_ret].
      eapply triple_weaken; [apply (load_persona_has_persona None) | done |].
      intros [a|ex] s Hs; [done|]. intros _. by right.
    - apply triple_ret. intros s <-.
      unfold persona_falsy in Hf. unfold has_persona. by destruct (persona e1). }
  intros _.
  assert (forall f : t P S -> t P S,
             (forall e, persona (f e) = persona e) ->
             triple has_persona (update f)
               (fun r s => match r with
                           | Returned _ => has_persona s
                           | Raised _ => persona_before_speech s
                           end)) as Hupd.
  { intros f Hf. apply triple_update. intros s Hp. unfold has_persona. by rewrite Hf. }
  apply (triple_bind _ (fun _ => has_persona));
    [apply triple_has_persona, keeps_azure_get|].
  intros openai.
  apply (triple_bind _ (fun _ => has_persona)).
  { destruct (truthy openai); [|by apply triple_ret].
    apply (triple_bind _ (fun _ => has_persona));
      [apply triple_has_persona, keeps_azure_config|].
    intros cfg.
    apply (triple_bind _ (fun _ => has_persona)).
    { apply triple_lift_outcome. intros s Hs.
      destruct (RealtimeProxy.new cfg); [done|]. intros _. by right. }
    intros proxy.
    apply (triple_bind _ (fun _ => has_persona)); [by apply Hupd|]. intros _.
    apply (triple_bind _ (fun _ => has_persona)); [|intros _; by apply triple_ret].
    apply triple_has_persona, keeps_on_realtime_proxy. }
  intros _.
  apply (triple_bind _ (fun _ => has_persona));
    [apply triple_has_persona, keeps_azure_get|].
  intros speech.
  apply (triple_bind _ (fun _ => has_persona)).
  { destruct (truthy speech); [|by apply triple_ret].
    apply (triple_bind _ (fun _ => has_persona));
      [apply triple_has_persona, keeps_azure_config|].
    intros cfg.
    apply (triple_bind _ (fun _ => has_persona)).
    { apply triple_lift_outcome. intros s Hs.
      destruct (speech_new cfg); [done|]. intros _. by right. }
    intros h.
    apply (triple_bind _ (fun _ => has_persona)); [by apply Hupd|]. intros _.
    apply (triple_bind _ (fun _ => has_persona)); [by apply triple_emit|]. intros _.
    apply (triple_bind _ (fun _ => has_persona)); [|intros _; by apply triple_ret].
    apply triple_has_persona, keeps_on_speech_handler. }
  intros _.
  apply (triple_bind _ (fun _ => has_persona));
    [apply triple_has_persona, keeps_load_plugins|].
  intros _.
  apply (triple_bind _ (fun _ e => ready e)).
  { apply triple_update. intros s Hp. split; [done | by right]. }
  intros _.
  apply (triple_bind _ (fun _ e => ready e)); [by apply triple_self|].
  intros e2. by apply triple_logger.
Qed.
End EngineInvariant.

(** * Starting a session *)

Section ConnectFacts.
Context `{Runtime} `{RealtimeProxy.Network}.
Import RealtimeProxy.

Lemma emits_send (message : pyval) : emits starting (send message).
Proof.
  unfold send. apply emits_bind; [apply emits_self|]. intros p.
  destruct (negb (is_connected p)); [repeat emits_step|].
  apply emits_try_except; [|intros ?; repeat emits_step].
  apply emits_bind.
  { unfold frame_of. destruct message; emits_step. }
  intros data. apply emits_bind; [|intros; emits_step].
  unfold ws_send. apply emits_bind; [emits_step|]. intros p'.
  destruct (ws p') as [sock|]; [|emits_step].
  destruct (sock_connected sock); emits_step.
Qed.

(** [connect] writes log records and flushes frames, nothing else. *)
Lemma emits_connect : emits starting connect.
Proof.
  unfold connect. apply emits_try_except; [|intros ?; repeat emits_step].
  apply emits_bind; [emits_step|]. intros p.
  apply emits_bind.
  { destruct (truthy_table (connection_params p)); repeat emits_step. }
  intros ws_url. apply emits_bind; [emits_step|]. intros has_key.
  apply emits_bind.
  { destruct has_key; [|emits_step].
    apply emits_bind; [emits_step|]. intros key.
    apply emits_bind; [|intros; emits_step].
    unfold add_to_address. destruct ws_url; repeat emits_step. }
  intros address. repeat (emits_step; try done).
  all: destruct x; unfold deliver, _on_open, _on_close;
    repeat first [ apply emits_send | emits_step ].
Qed.

(** [connect] answers with a flag, whatever happens to the socket. *)
Lemma returns_connect : returns connect.
Proof.
  unfold connect. apply returns_try_except. intros ex.
  apply returns_bind; [apply returns_logger | intros _; apply returns_ret].
Qed.
End ConnectFacts.

Section StartSessionFacts.
Context {P S : Type}.
Context `{Runtime} `{RealtimeProxy.Network} `{Plugin P} `{Speech S}
        `{AvatarEngine.Files P}.
Import AvatarEngine.

(** [start_session] on an initialized engine, however it ends: the session
    is the one just started, and the only exception is one that
    [start_avatar] raised. *)
Lemma start_session_initialized (session_id : option string) (e : t P S) (w : World) :
  ready e ->
  exists r e' w' started evs,
    start_session session_id e w = (r, e', w') /\
    session_state e' = fresh_session (chosen_session_id session_id w) started /\
    clock w <= started /\
    trace w' = trace w ++ evs /\ forallb starting evs = true /\
    config e' = config e /\ persona e' = persona e /\ plugins e' = plugins e /\
    _initialized e' = true /\
    (realtime_proxy e' = None <-> realtime_proxy e = None) /\
    (speech_handler e' = None <-> speech_handler e = None) /\
    match r with
    | Returned d =>
        d = {[ "session_id" := PStr (chosen_session_id session_id w);
               "status" := PStr "active" ]}
    | Raised ex =>
        exists h d,
          speech_handler e = Some h /\ persona e = Some d /\
          fst (start_avatar h (dict_get d "avatar" (PDict ∅))) = Raised ex
    end.
Proof.
  intros [Hinit Hready].
  unfold start_session. run. rewrite Hinit. run.
  set (sid := chosen_session_id session_id w).
  assert (exists w1 started,
             match session_id with
             | Some s =>
                 if String.eqb s "" then n <~ datetime_now ;; ret (isoformat n)
                 else ret s
             | None => n <~ datetime_now ;; ret (isoformat n)
             end e w = (Returned sid, e, w1) /\ trace w1 = trace w /\
             clock w <= clock w1 /\ started = clock w1)
    as (w1 & started & -> & Htr & Hclk & Hst).
  { unfold sid, chosen_session_id.
    destruct session_id as [s|]; [destruct (String.eqb s "")|];
      run; eexists _, _; (split; [reflexivity|]); simpl;
      split; try done; split; try done; lia. }
  run. fields.
  assert (exists e1 w2 evs1,
             match realtime_proxy e with
             | Some _ => on_realtime_proxy RealtimeProxy.connect ;;; ret tt
             | None => ret tt
             end (set_session_state (fresh_session sid (clock w1)) e)
                 {| clock := clock w1 + 1; trace := trace w1 |} =
               (Returned tt, e1, w2) /\
             trace w2 = trace w ++ evs1 /\ forallb starting evs1 = true /\
             session_state e1 = fresh_session sid (clock w1) /\
             config e1 = config e /\ persona e1 = persona e /\
             plugins e1 = plugins e /\ _initialized e1 = _initialized e /\
             speech_handler e1 = speech_handler e /\
             (realtime_proxy e1 = None <-> realtime_proxy e = None))
    as (e1 & w2 & evs1 & Hrun1 & Htr1 & Hq1 & Hss1 & Hc1 & Hp1 & Hpl1 & Hi1 & Hsp1 & Hrp1).
  { destruct (realtime_proxy e) as [px|] eqn:Hrp.
    - run. unfold on_realtime_proxy. fields. rewrite Hrp.
      set (w1' := {| clock := clock w1 + 1; trace := trace w1 |}).
      destruct (returns_connect px w1') as [b Hb].
      destruct (emits_connect px w1') as (evs1 & Hw & Hq).
      destruct (RealtimeProxy.connect px w1') as [[r px'] w2]; simpl in Hb, Hw.
      subst r w2. run.
      eexists _, _, evs1. split; [reflexivity|]. subst w1'. fields.
      rewrite Htr. repeat split; try done.
    - run. eexists _, _, []. split; [reflexivity|]. fields.
      rewrite Htr, app_nil_r. by repeat split. }
  unfold fresh_session in Hrun1. rewrite Hrun1. clear Hrun1. run.
  destruct (speech_handler e1) as [h|] eqn:Hsp.
  - destruct (persona e1) as [d|] eqn:Hper.
    2: { destruct Hready as [Hn|Hn]; congruence. }
    run. unfold on_speech_handler. rewrite Hsp.
    destruct (start_avatar h _) as [[b|ex] h'] eqn:Hstart; run.
    + eexists _, _, _, (clock w1), _. split; [reflexivity|]. fields.
      rewrite Hss1, Htr1, Hc1, Hpl1, Hi1, Hrp1, <- Hp1, Hper, <- Hsp1, <- !app_assoc.
      repeat split; try done.
      rewrite forallb_app, Hq1. reflexivity.
    + eexists _, _, _, (clock w1), _. split; [reflexivity|]. fields.
      rewrite Hss1, Htr1, Hc1, Hpl1, Hi1, Hrp1, <- Hp1, Hper, <- Hsp1, <- !app_assoc.
      repeat split; try done.
      * rewrite forallb_app, Hq1. reflexivity.
      * exists h, d. rewrite Hstart. done.
  - run.
    eexists _, _, _, (clock w1), _. split; [reflexivity|]. fields.
    rewrite Hss1, Htr1, Hc1, Hpl1, Hi1, Hrp1, Hp1, <- Hsp1, Hsp, <- !app_assoc.
    repeat split; try done. rewrite forallb_app, Hq1. reflexivity.
Qed.

(** With an ['avatar'] entry that [start_avatar] merges, the call
    returns. *)
Lemma start_session_returns (session_id : option string) (e : t P S) (w : World) :
  ready e -> avatar_config_merges e ->
  fst (fst (start_session session_id e w)) =
    Returned {[ "session_id" := PStr (chosen_session_id session_id w);
                "status" := PStr "active" ]}.
Proof.
  intros Hready Hmerges.
  destruct (start_session_initialized session_id e w Hready)
    as (r & e' & w' & started & evs & -> & _ & _ & _ & _ & _ & _ & _ & _ & _ & _ & Hr).
  simpl. destruct r as [d|ex]; [by subst|].
  destruct Hr as (h & d & Hsp & Hper & Hraised).
  unfold avatar_config_merges in Hmerges. rewrite Hsp, Hper in Hmerges.
  destruct (start_avatar_returns h _ Hmerges) as [b Hb]. congruence.
Qed.

Lemma invariant_ready (e : t P S) :
  session_invariant e -> _initialized e = true -> ready e.
Proof. intros [_ Hp] Hi. split; [done | by apply Hp]. Qed.

(** On an engine that is not initialized, [start_session] is [initialize]
    followed by [start_session] on the engine it leaves. *)
Lemma start_session_uninitialized (session_id : option string) (e : t P S) (w : World) :
  _initialized e = false ->
  start_session session_id e w =
    match initialize e w with
    | (Returned _, e1, w1) => start_session session_id e1 w1
    | (Raised ex, e1, w1) => (Raised ex, e1, w1)
    end.
Proof.
  intros Hf.
  pose proof (initialize_ready e w) as Hready.
  unfold start_session at 1. run. rewrite Hf. run.
  destruct (initialize e w) as [[[u|ex] e1] w1]; simpl in Hready; [|reflexivity].
  assert (ready e1) as [Hi1 _].
  { apply Hready. intros Hi. congruence. }
  unfold start_session. run. rewrite Hi1. run. reflexivity.
Qed.

Lemma start_session_ready_invariant (session_id : option string) (e : t P S) (w : World) :
  ready e -> session_invariant (snd (fst (start_session session_id e w))).
Proof.
  intros Hready.
  destruct (start_session_initialized session_id e w Hready)
    as (r & e' & w' & started & evs & Hrun & _ & _ & _ & _ & _ & Hp & _ & Hi & _ & Hs & _).
  rewrite Hrun. simpl. split; [done|]. intros _.
  destruct Hready as [_ Hr]. rewrite Hp, Hs. done.
Qed.

(** [start_session] keeps the invariant however it ends. *)
Lemma start_session_invariant (session_id : option string) :
  triple session_invariant (start_session (P:=P) (S:=S) session_id)
    (always session_invariant).
Proof.
  intros e w Hinv. unfold always.
  destruct (_initialized e) eqn:Hf.
  - by apply start_session_ready_invariant, invariant_ready.
  - rewrite start_session_uninitialized by done.
    pose proof (initialize_ready e w) as Hready.
    pose proof (keeps_grow_initialize e w) as [Hact _].
    destruct (initialize e w) as [[[u|ex] e1] w1]; simpl in *.
    + apply start_session_ready_invariant, Hready. intros Hi. congruence.
    + destruct Hinv as [Ha _]. split.
      * intros Hact1. specialize (Ha (Hact Hact1)). congruence.
      * apply Hready. intros Hi. congruence.
Qed.

(** Every public method keeps the invariant, however it ends. *)
Lemma after_invariant (c : method) (e : t P S) (w : World) :
  session_invariant e -> session_invariant (fst (after c e w)).
Proof.
  intros Hinv. destruct c as [|path|l| |sid|m|]; simpl.
  - pose proof (keeps_load_config e w) as Hk.
    destruct (load_config e w) as [[r e'] w']. simpl in *.
    by apply (same_setup_invariant e).
  - pose proof (keeps_grow_load_persona path e w) as [Hact Hfl].
    pose proof (load_persona_has_persona path e w I) as Hp.
    destruct (load_persona path e w) as [[r e'] w']. simpl in *.
    destruct Hinv as [Ha _]. split; [tauto|]. intros _. by right.
  - pose proof (keeps_load_plugins l e w) as Hk.
    destruct (load_plugins l e w) as [[r e'] w']. simpl in *.
    by apply (same_setup_invariant e).
  - pose proof (keeps_grow_initialize e w) as [Hact Hfl].
    pose proof (initialize_ready e w (proj2 Hinv)) as Hr.
    destruct (initialize e w) as [[r e'] w']. simpl in *.
    destruct Hinv as [Ha _]. split; [tauto|].
    destruct r as [u|ex]; [|done]. destruct Hr as [_ Hr]. by intros _.
  - pose proof (start_session_invariant sid e w Hinv) as Hk.
    by destruct (start_session sid e w) as [[r e'] w'].
  - pose proof (keeps_process_message m e w) as Hk.
    destruct (process_message m e w) as [[r e'] w']. simpl in *.
    by apply (same_setup_invariant e).
  - pose proof (keeps_stop_session e w) as Hk.
    destruct (stop_session e w) as [[r e'] w']. simpl in *.
    by apply (same_setup_invariant e).
Qed.

(** The invariant holds of every engine there can be. *)
Lemma reachable_invariant (e : t P S) : reachable e -> session_invariant e.
Proof.
  induction 1 as [name path|c e w _ IH].
  - split; [done|]. intros Hi. discriminate Hi.
  - by apply after_invariant.
Qed.

Lemma starting_not_finalizing (evs : list event) :
  forallb starting evs = true -> forallb (fun ev => negb (finalizing ev)) evs = true.
Proof.
  induction evs as [|ev evs IH]; [done|]. simpl.
  intros [Hev Hevs]%andb_prop. rewrite IH by done. by destruct ev.
Qed.

Lemma starting_not_initializing (evs : list event) :
  forallb starting evs = true -> forallb (fun ev => negb (initializing ev)) evs = true.
Proof.
  induction evs as [|ev evs IH]; [done|]. simpl.
  intros [Hev Hevs]%andb_prop. rewrite IH by done. by destruct ev.
Qed.

(** C10 (amended).  [start_session] on an engine with an active session is
    not refused, and however the call ends the engine's one session record
    is replaced by that of a session just started: the id given (or one
    made from the time of the call), an empty history, the counters at
    zero; the previous history and metrics are gone.  Nothing of a session
    end happens on the way: no socket is closed, no avatar stopped, no
    plugin cleaned up.  The call returns the record of the session with
    status ['active'] whenever the persona's ['avatar'] entry is one that
    [start_avatar] merges (or there is no speech handler); the only
    exception that comes out of the call is one that [start_avatar]
    raised.  The engine is any engine that satisfies the invariant of the
    engine's methods ([reachable_invariant]), which the engine still
    satisfies afterwards. *)
Theorem start_session_replaces_active_session
    (session_id : option string) (e : t P S) (w : World) :
  session_invariant e ->
  active (session_state e) = true ->
  exists r e' w' started evs,
    start_session session_id e w = (r, e', w') /\
    session_state e' =
      {| active := true;
         session_id := Some (chosen_session_id session_id w);
         start_time := Some started;
         messages := [];
         metrics := {[ "messages_sent" := 0; "messages_received" := 0;
                       "tokens_used" := 0 ]} |} /\
    trace w' = trace w ++ evs /\
    forallb (fun ev => negb (finalizing ev)) evs = true /\
    session_invariant e' /\
    match r with
    | Returned d =>
        d = {[ "session_id" := PStr (chosen_session_id session_id w);
               "status" := PStr "active" ]}
    | Raised ex =>
        exists h d,
          speech_handler e = Some h /\ persona e = Some d /\
          fst (start_avatar h (dict_get d "avatar" (PDict ∅))) = Raised ex
    end /\
    (avatar_config_merges e -> exists d, r = Returned d).
Proof.
  intros Hinv Hact.
  assert (ready e) as Hready by (apply invariant_ready; [done | by apply Hinv]).
  pose proof (start_session_ready_invariant session_id e w Hready) as Hinv'.
  pose proof (start_session_returns session_id e w Hready) as Hret.
  destruct (start_session_initialized session_id e w Hready)
    as (r & e' & w' & started & evs & Hrun & Hss & _ & Htr & Hq & Hrest).
  rewrite Hrun in Hinv', Hret. simpl in Hinv', Hret.
  exists r, e', w', started, evs. split; [exact Hrun|].
  split; [exact Hss|]. split; [exact Htr|].
  split; [by apply starting_not_finalizing|]. split; [exact Hinv'|].
  split; [apply Hrest|]. intros Hmerges. eexists. by apply Hret.
Qed.

(** The same, said of the engines there can be. *)
Corollary start_session_on_reachable_engine
    (session_id : option string) (e : t P S) (w : World) :
  reachable e ->
  active (session_state e) = true ->
  avatar_config_merges e ->
  exists d e' w',
    start_session session_id e w = (Returned d, e', w') /\
    d !! "status" = Some (PStr "active") /\
    active (session_state e') = true /\
    messages (session_state e') = [] /\
    metrics (session_state e') = fresh_metrics.
Proof.
  intros Hreach Hact Hmerges.
  pose proof (reachable_invariant e Hreach) as Hinv.
  assert (ready e) as Hready by (apply invariant_ready; [done | by apply Hinv]).
  pose proof (start_session_returns session_id e w Hready Hmerges) as Hret.
  destruct (start_session_initialized session_id e w Hready)
    as (r & e' & w' & started & evs & Hrun & Hss & _).
  rewrite Hrun in Hret. simpl in Hret. subst r.
  eexists _, e', w'. split; [exact Hrun|]. rewrite Hss. by repeat split.
Qed.

(** C7 (amended).  The guard is in [start_session]: on an engine whose
    [_initialized] flag is set it does not run [initialize], however the
    call ends.  No plugin and no speech handler is initialized, the
    configuration, the persona and the plugins are the ones the engine
    had, a realtime proxy or speech handler is there exactly if it was
    there before, and the flag stays set.  The call returns whenever the
    persona's ['avatar'] entry is one that [start_avatar] merges. *)
Theorem start_session_initializes_only_once
    (session_id : option string) (e : t P S) (w : World) :
  session_invariant e ->
  _initialized e = true ->
  exists r e' w' evs,
    start_session session_id e w = (r, e', w') /\
    trace w' = trace w ++ evs /\
    forallb (fun ev => negb (initializing ev)) evs = true /\
    config e' = config e /\ persona e' = persona e /\ plugins e' = plugins e /\
    (realtime_proxy e' = None <-> realtime_proxy e = None) /\
    (speech_handler e' = None <-> speech_handler e = None) /\
    _initialized e' = true /\
    (avatar_config_merges e -> exists d, r = Returned d).
Proof.
  intros Hinv Hflag.
  pose proof (invariant_ready e Hinv Hflag) as Hready.
  pose proof (start_session_returns session_id e w Hready) as Hret.
  destruct (start_session_initialized session_id e w Hready)
    as (r & e' & w' & started & evs & Hrun & _ & _ & Htr & Hq & Hc & Hp & Hpl & Hi
        & Hrp & Hsp & _).
  rewrite Hrun in Hret. simpl in Hret.
  exists r, e', w', evs. split; [exact Hrun|]. split; [exact Htr|].
  split; [by apply starting_not_initializing|].
  repeat (split; [done|]). intros Hmerges. eexists. by apply Hret.
Qed.
End StartSessionFacts.

Lemma start_session_replaces_active_session_witness :
  let e := Fixture.in_session
             (Fixture.with_avatar (PDict {[ "character" := PStr "lisa" ]})
                (Fixture.engine_with "demo" Fixture.scenario_plugins)) in
  exists e' w' started evs,
    AvatarEngine.start_session (Some "s2") e Fixture.world0 =
      (Returned {[ "session_id" := PStr (chosen_session_id (Some "s2") Fixture.world0);
                   "status" := PStr "active" ]}, e', w') /\
    AvatarEngine.session_state e' =
      {| AvatarEngine.active := true;
         AvatarEngine.session_id := Some (chosen_session_id (Some "s2") Fixture.world0);
         AvatarEngine.start_time := Some started;
         AvatarEngine.messages := [];
         AvatarEngine.metrics := {[ "messages_sent" := 0; "messages_received" := 0;
                                    "tokens_used" := 0 ]} |} /\
    trace w' = trace Fixture.world0 ++ evs /\
    forallb (fun ev => negb (finalizing ev)) evs = true /\
    session_invariant e'.
Proof.
  intros e.
  destruct (start_session_replaces_active_session (Some "s2") e Fixture.world0)
    as (r & e' & w' & started & evs & Hrun & Hss & Htr & Hq & Hinv & Hr & Hret).
  - split; [reflexivity | intros _; right; discriminate].
  - reflexivity.
  - destruct Hret as [d ->]; [by right|]. subst d.
    exists e', w', started, evs.
    split; [exact Hrun|]. split; [exact Hss|]. split; [exact Htr|].
    split; [exact Hq | exact Hinv].
Defined.

(** C10 (the claim as stated fails).  With a speech handler and a persona
    whose ['avatar'] entry is a string, [start_session] on an engine with
    an active session raises what [start_avatar] raises: a [ValueError].
    The session has been replaced all the same. *)
Lemma start_session_raises_with_avatar_string :
  let e := Fixture.in_session
             (Fixture.with_avatar (PStr "lisa")
                (Fixture.engine_with "demo" Fixture.scenario_plugins)) in
  let '(r, e', w') := AvatarEngine.start_session (Some "s2") e Fixture.world0 in
  session_invariant e /\
  AvatarEngine.active (AvatarEngine.session_state e) = true /\
  r = Raised (Exception "ValueError"
                "dictionary update sequence element #0 has length 1; 2 is required") /\
  AvatarEngine.active (AvatarEngine.session_state e') = true /\
  AvatarEngine.session_id (AvatarEngine.session_state e') = Some "s2" /\
  trace w' = [SpeechStartAvatar (PStr "lisa")].
Proof.
  vm_compute. split; [|by repeat split].
  split; [done | intros _; right; discriminate].
Qed.

Lemma start_session_initializes_only_once_witness :
  let e := Fixture.with_avatar (PDict {[ "character" := PStr "lisa" ]})
             (Fixture.engine_with "demo" Fixture.scenario_plugins) in
  exists d e' w' evs,
    AvatarEngine.start_session None e Fixture.world0 = (Returned d, e', w') /\
    trace w' = trace Fixture.world0 ++ evs /\
    forallb (fun ev => negb (initializing ev)) evs = true /\
    AvatarEngine.config e' = AvatarEngine.config e /\
    AvatarEngine.persona e' = AvatarEngine.persona e /\
    AvatarEngine.plugins e' = AvatarEngine.plugins e /\
    (AvatarEngine.realtime_proxy e' = None <-> AvatarEngine.realtime_proxy e = None) /\
    (AvatarEngine.speech_handler e' = None <-> AvatarEngine.speech_handler e = None) /\
    AvatarEngine._initialized e' = true.
Proof.
  intros e.
  destruct (start_session_initializes_only_once None e Fixture.world0)
    as (r & e' & w' & evs & Hrun & Htr & Hq & Hc & Hp & Hpl & Hrp & Hsp & Hi & Hret).
  - split; [discriminate | intros _; right; discriminate].
  - reflexivity.
  - destruct Hret as [d ->]; [by right|].
    exists d, e', w', evs.
    split; [exact Hrun|]. split; [exact Htr|]. split; [exact Hq|].
    split; [exact Hc|]. split; [exact Hp|]. split; [exact Hpl|].
    split; [exact Hrp|]. split; [exact Hsp | exact Hi].
Defined.

(** C7 (the claim as stated fails).  [initialize] has no guard of its own.
    A first call initializes a new engine; a second call on the initialized
    engine does not load the configuration or the persona again, but it
    builds and initializes the realtime proxy and the speech handler again
    and loads and initializes the plugin again. *)
Lemma second_initialize_repeats_side_effects :
  let e0 : AvatarEngine.t Fixture.plugin unit := AvatarEngine.new "demo" None in
  let '(r1, e1, w1) := AvatarEngine.initialize e0 Fixture.world0 in
  let '(r2, e2, w2) := AvatarEngine.initialize e1 w1 in
  r1 = Returned tt /\ AvatarEngine._initialized e1 = true /\
  r2 = Returned tt /\
  trace w2 = trace w1 ++
    [Log INFO "Realtime proxy initialized for provider: unknown";
     SpeechInitialize;
     PluginInitialize "rag_plugin" (PDict ∅);
     Log INFO "Plugin loaded: rag_plugin";
     Log INFO "Avatar engine initialized for instance: demo"] /\
  trace w2 <> trace w1.
Proof.
  vm_compute. repeat split; try reflexivity. discriminate.
Qed.

(** What is lost on the way: a message queued on the proxy of the
    initialized engine is gone after the second call, which puts a new
    proxy in its place. *)
Example second_initialize_drops_the_queue :
  let e0 : AvatarEngine.t Fixture.plugin unit := AvatarEngine.new "demo" None in
  let '(_, e1, w1) := AvatarEngine.initialize e0 Fixture.world0 in
  let '(_, e1', w1') :=
    AvatarEngine.on_realtime_proxy (RealtimeProxy.send (PDict Fixture.hello)) e1 w1 in
  let '(_, e2, _) := AvatarEngine.initialize e1' w1' in
  (RealtimeProxy.queued_messages <$> AvatarEngine.realtime_proxy e1' = Some 1%nat) /\
  (RealtimeProxy.queued_messages <$> AvatarEngine.realtime_proxy e2 = Some 0%nat).
Proof. vm_compute. split; reflexivity. Qed.

(** * Part IV: the rest of the core

    Properties of the functions around the ones above: what the code does
    at its edges, what it keeps, how its operations compose. *)

(** ** The realtime proxy: sending, opening, connecting *)

Section ProxyMore.
Context `{Runtime} `{RealtimeProxy.Network}.
Import RealtimeProxy.

Lemma ws_send_cases (data : string) (p : t) (w : World) :
  ws_send data p w = (Returned tt, p, logged w [WsSend data]) \/
  exists ex, ws_send data p w = (Raised ex, p, w).
Proof.
  unfold ws_send. run. destruct (ws p) as [sock|]; [|right; eauto].
  destruct (sock_connected sock); [by left | right; eauto].
Qed.

Lemma frame_of_cases (message : pyval) (p : t) (w : World) :
  (exists data, frame_of message p w = (Returned data, p, w) /\
                (frameable message = true -> data = frame_text message)) \/
  exists ex, frame_of message p w = (Raised ex, p, w).
Proof.
  destruct message; simpl;
    try (left; eexists; split; [reflexivity | done]);
    (destruct (frame_other _) as [data|ex]; simpl;
     [left; eexists; split; [reflexivity | done] | right; eauto]).
Qed.

(** [send] on a connected proxy: one event, the proxy untouched. *)
Lemma send_connected_cases (message : pyval) (p : t) (w : World) :
  is_connected p = true ->
  exists b ev,
    send message p w = (Returned b, p, logged w [ev]) /\
    flushed_as message ev /\
    (b = true <-> exists frame, ev = WsSend frame).
Proof.
  intros Hc. unfold send. run. rewrite Hc. run.
  destruct (frame_of_cases message p w) as [(data & -> & Hdata)|[ex ->]]; run.
  - destruct (ws_send_cases data p w) as [->|[ex ->]]; run.
    + exists true, (WsSend data). split; [reflexivity|].
      split; [left; eauto | split; eauto].
    + exists false, (Log ERROR ("Failed to send message: " +:+ exn_str ex)).
      split; [reflexivity|]. split; [right; eauto|].
      split; [done | by intros [? ?]].
  - exists false, (Log ERROR ("Failed to send message: " +:+ exn_str ex)).
    split; [reflexivity|]. split; [right; eauto|].
    split; [done | by intros [? ?]].
Qed.

Lemma flush_loop_cases (ms : list pyval) (p : t) (w : World) :
  is_connected p = true ->
  exists evs,
    for_each ms (fun message => send message ;;; ret tt) p w =
      (Returned tt, p, logged w evs) /\
    Forall2 flushed_as ms evs.
Proof.
  intros Hc. revert w. induction ms as [|m ms IH]; intros w.
  - exists []. simpl. rewrite logged_nil. split; [reflexivity | constructor].
  - simpl. destruct (send_connected_cases m p w Hc) as (b & ev & Hs & Hev & _).
    destruct (IH (logged w [ev])) as (evs & Hrest & Hall).
    exists (ev :: evs). split; [|by constructor].
    run. rewrite Hs. run. rewrite Hrest. by rewrite logged_logged.
Qed.

(** X1.  [send] never raises.  Not connected, the message is queued and the
    answer is [False].  Connected, the proxy is left as it was: either the
    frame went to the socket and the answer is [True], or the failure is
    logged and the answer is [False]; the message that failed is not
    queued. *)
Theorem send_never_raises (message : pyval) (p : t) (w : World) :
  exists b p' w',
    send message p w = (Returned b, p', w') /\
    if is_connected p then
      p' = p /\
      ((b = true /\ exists frame, w' = logged w [WsSend frame]) \/
       (b = false /\
        exists reason,
          w' = logged w [Log ERROR ("Failed to send message: " +:+ reason)]))
    else
      b = false /\ w' = w /\
      p' = set_message_queue (message_queue p ++ [message]) p.
Proof.
  destruct (is_connected p) eqn:Hc.
  - destruct (send_connected_cases message p w Hc) as (b & ev & Hs & Hev & Hb).
    exists b, p, (logged w [ev]). split; [done|]. split; [done|].
    destruct Hev as [(frame & -> & _)|(reason & ->)].
    + left. split; [apply Hb|]; eauto.
    + right. split; [|eauto]. destruct b; [|done].
      destruct (proj1 Hb eq_refl) as [? ?]. done.
  - rewrite send_not_connected by done. eexists _, _, _. split; [reflexivity|]. done.
Qed.

(** [_on_open] returns, whatever becomes of each send. *)
Lemma _on_open_returns (p : t) (w : World) :
  exists evs,
    _on_open p w =
      (Returned tt, set_message_queue [] (set_is_connected true p),
       logged w (Log INFO "Realtime WebSocket connection established" :: evs)).
Proof.
  unfold _on_open. run.
  destruct (flush_loop_cases (message_queue (set_is_connected true p))
              (set_is_connected true p)
              (logged w [Log INFO "Realtime WebSocket connection established"]))
    as (evs & Hloop & _); [done|].
  exists evs. rewrite Hloop. run. by rewrite logged_logged.
Qed.

(** X2.  [_on_open] never raises and accounts for every queued message: it
    leaves the proxy connected with an empty queue, and for each message
    that was queued, in order, the trace has either its frame or the
    record of the failure to send it.  A message that failed is gone with
    the others. *)
Theorem _on_open_accounts_for_the_queue (p : t) (w : World) :
  exists evs,
    _on_open p w =
      (Returned tt, set_message_queue [] (set_is_connected true p),
       logged w (Log INFO "Realtime WebSocket connection established" :: evs)) /\
    Forall2 flushed_as (message_queue p) evs.
Proof.
  unfold _on_open. run.
  destruct (flush_loop_cases (message_queue (set_is_connected true p))
              (set_is_connected true p)
              (logged w [Log INFO "Realtime WebSocket connection established"]))
    as (evs & Hloop & Hall); [done|].
  exists evs. rewrite Hloop. run. rewrite logged_logged. done.
Qed.

Lemma deliver_close (p : t) (w : World) :
  exists p',
    deliver OnClose p w =
      (Returned tt, p', logged w [Log INFO "WebSocket closed (code: None, msg: None)"]) /\
    is_connected p' = false /\ message_queue p' = message_queue p /\
    (is_Some (ws p) -> is_Some (ws p')).
Proof.
  unfold deliver, _on_close. run. eexists. split; [reflexivity|].
  split; [done|]. split; [by destruct (ws p)|].
  destruct (ws p); simpl; [eauto | by intros [? ?]].
Qed.

(** X3.  Across a loss of the connection every message goes out once.  The
    messages sent before the socket opens are flushed when it opens; the
    ones sent after it closed are queued and flushed when it opens again,
    and the earlier ones are not sent a second time. *)
Theorem reconnect_sends_each_message_once
    (p : t) (w : World) (ms1 ms2 : list pyval) sock :
  is_connected p = false ->
  ws p = Some sock ->
  Forall (fun m => frameable m = true) (message_queue p ++ ms1 ++ ms2) ->
  exists p' w',
    (send_each ms1 ;;; deliver OnOpen ;;; deliver OnClose ;;;
     send_each ms2 ;;; deliver OnOpen) p w = (Returned tt, p', w') /\
    is_connected p' = true /\ message_queue p' = [] /\
    frames (trace w') =
      frames (trace w) ++ map frame_text (message_queue p ++ ms1 ++ ms2).
Proof.
  intros Hd Hws Hall.
  rewrite app_assoc in Hall. apply Forall_app in Hall as [Hall1 Hall2].
  run. rewrite send_each_not_connected by done. run.
  destruct (deliver_open_flushes (set_message_queue (message_queue p ++ ms1) p) w sock)
    as (p1 & -> & Hc1 & Hq1 & Hws1); [done|done|]. run.
  destruct (deliver_close p1
              (logged w (Log INFO "Realtime WebSocket connection established"
                 :: map (fun m => WsSend (frame_text m))
                      (message_queue (set_message_queue (message_queue p ++ ms1) p)))))
    as (p2 & -> & Hc2 & Hq2 & Hws2). run.
  rewrite send_each_not_connected by done. run.
  destruct Hws2 as [sock2 Hws2]; [by rewrite Hws1|].
  match goal with |- context [deliver OnOpen ?q ?v] =>
    destruct (deliver_open_flushes q v sock2) as (p3 & -> & Hc3 & Hq3 & Hws3)
  end; [done | simpl; by rewrite Hq2, Hq1 |].
  eexists _, _. split; [reflexivity|]. split; [done|]. split; [done|].
  simpl. rewrite Hq2, Hq1. simpl.
  rewrite !frames_app. simpl. rewrite <- !app_assoc. f_equal.
  assert (forall l, frames (map (fun m => WsSend (frame_text m)) l) = map frame_text l) as Hfr.
  { induction l as [|m l IH]; simpl; [done|]. by rewrite <- IH. }
  rewrite !Hfr. simpl. by rewrite app_assoc, !map_app.
Qed.

Lemma deliver_returns (cb : callback) (p : t) (w : World) :
  exists p' w',
    deliver cb p w = (Returned tt, p', w') /\ (is_Some (ws p) -> is_Some (ws p')).
Proof.
  destruct cb.
  - unfold deliver. run.
    match goal with |- context [_on_open ?q ?v] =>
      destruct (_on_open_returns q v) as (evs & ->)
    end.
    eexists _, _. split; [reflexivity|]. destruct (ws p); simpl; [eauto | by intros [? ?]].
  - destruct (deliver_close p w) as (p' & -> & _ & _ & Hws). eauto.
Qed.

Lemma deliver_all_returns (cbs : list callback) (p : t) (w : World) :
  exists p' w',
    for_each cbs deliver p w = (Returned tt, p', w') /\
    (is_Some (ws p) -> is_Some (ws p')).
Proof.
  revert p w. induction cbs as [|cb cbs IH]; intros p w.
  - eexists _, _. split; [reflexivity | done].
  - simpl. run. destruct (deliver_returns cb p w) as (p1 & w1 & -> & Hws1).
    destruct (IH p1 w1) as (p2 & w2 & -> & Hws2).
    eexists _, _. split; [reflexivity | auto].
Qed.

(** [connect] on a proxy whose set-up left a string and dictionaries: the
    address is built, the socket is created, and what is left is the
    wait. *)
Lemma connect_addressable (p : t) (w : World) ep ps hs :
  endpoint p = PStr ep -> connection_params p = Dict ps -> headers p = Dict hs ->
  let base := match ps with
              | [] => ep
              | _ => ep +:+ "?" +:+ join_params ps
              end in
  let sock := match lookup_header "api-key" hs with
              | Some key =>
                  {| url := PStr (base +:+ "&api-key=" +:+ fmt key);
                     header := Dict []; sock_connected := false |}
              | None =>
                  {| url := PStr base; header := Dict hs; sock_connected := false |}
              end in
  connect p w =
    (for_each (during_grace (url sock)) deliver ;;;
     q <~ self ;; ret (is_connected q))
      (set_ws (Some sock) p)
      (logged w [Log INFO ("Connecting to WebSocket: " +:+ ep)]).
Proof.
  intros Hep Hps Hhs base sock. unfold connect. run.
  rewrite Hep, Hps, Hhs. cbn [truthy_table items_of contains getitem].
  subst base sock.
  destruct ps as [|kv ps]; cbn [length Nat.eqb negb lift_outcome]; run;
    destruct (lookup_header "api-key" hs) as [key|] eqn:Hkey;
    cbn [lift_outcome add_to_address]; run; rewrite ?Hep; cbn [fst snd fmt url].
  all: match goal with |- context [for_each ?cbs deliver ?q ?v] =>
         destruct (deliver_all_returns cbs q v) as (p1 & w1 & -> & _)
       end; reflexivity.
Qed.

(** [connect] ends in one of two ways: with a socket in place and the
    flag as the wait left it, or, before there is a socket, with the
    failure logged and the proxy as it was. *)
Lemma connect_cases (p : t) (w : World) :
  (exists p' w',
     connect p w = (Returned (is_connected p'), p', w') /\ is_Some (ws p')) \/
  (exists reason,
     connect p w =
       (Returned false, p,
        logged w [Log ERROR ("Failed to connect to realtime API: " +:+ reason)])).
Proof.
  assert (forall (address : pyval * table) (q : t) (v : World),
             exists p' w',
               match
                 (update (set_ws (Some {| url := address.1; header := address.2;
                                          sock_connected := false |})) ;;;
                  for_each (during_grace address.1) deliver ;;;
                  q0 <~ self ;; ret (is_connected q0)) q v
               with
               | (Raised e, s', w') =>
                   (logger ERROR ("Failed to connect to realtime API: " +:+ exn_str e) ;;;
                    ret false) s' w'
               | r => r
               end = (Returned (is_connected p'), p', w') /\ is_Some (ws p'))
    as Hrest.
  { intros address q v. run.
    match goal with |- context [for_each ?cbs deliver ?q0 ?v0] =>
      destruct (deliver_all_returns cbs q0 v0) as (p1 & w1 & -> & Hws)
    end.
    run. eexists _, _. split; [reflexivity|]. apply Hws. simpl. eauto. }
  unfold connect. run.
  destruct (truthy_table (connection_params p)); run.
  - destruct (items_of (connection_params p)) as [items|ex]; cbn [lift_outcome]; run.
    2: { right. eexists. reflexivity. }
    destruct (contains "api-key" (headers p)) as [[|]|ex]; cbn [lift_outcome]; run.
    3: { right. eexists. reflexivity. }
    2: { left. apply Hrest. }
    destruct (getitem "api-key" (headers p)) as [key|ex]; cbn [lift_outcome]; run.
    2: { right. eexists. reflexivity. }
    cbn [add_to_address]. run. left. apply Hrest.
  - destruct (contains "api-key" (headers p)) as [[|]|ex]; cbn [lift_outcome]; run.
    3: { right. eexists. reflexivity. }
    2: { left. apply Hrest. }
    destruct (getitem "api-key" (headers p)) as [key|ex]; cbn [lift_outcome]; run.
    2: { right. eexists. reflexivity. }
    destruct (endpoint p) as [| | |ep|l|d]; cbn [add_to_address]; run;
      first [ left; apply Hrest | right; eexists; reflexivity ].
Qed.

(** X4.  [connect] never raises and closes nothing: a socket the proxy
    held before is replaced, not closed.  It ends in one of two ways.
    Either the proxy holds a socket afterwards and the answer is the
    [is_connected] flag as the wait for the socket leaves it; or the
    address could not be built from what the set-up left (headers or
    parameters that are no dictionary, an endpoint that nothing can be
    appended to), and then the answer is [False], the failure is the one
    record logged and the proxy is as it was, without a new socket.  On a
    proxy whose set-up left a string and dictionaries it is the first. *)
Theorem connect_never_raises_nor_closes (p : t) (w : World) :
  exists (b : bool) p' evs,
    connect p w = (Returned b, p', logged w evs) /\
    forallb (fun ev => negb (finalizing ev)) evs = true /\
    ((is_Some (ws p') /\ b = is_connected p') \/
     (b = false /\ p' = p /\
      exists reason,
        evs = [Log ERROR ("Failed to connect to realtime API: " +:+ reason)])) /\
    (addressable p -> is_Some (ws p') /\ b = is_connected p').
Proof.
  destruct (emits_connect p w) as (evs & Hw & Hevs).
  assert (forallb (fun ev => negb (finalizing ev)) evs = true) as Hfin.
  { clear Hw. induction evs as [|ev evs IH]; [done|]. simpl in *.
    apply andb_prop in Hevs as [Hev Hevs]. rewrite (IH Hevs).
    by destruct ev. }
  assert (addressable p ->
          exists p' w',
            connect p w = (Returned (is_connected p'), p', w') /\ is_Some (ws p'))
    as Haddr.
  { intros (ep & ps & hs & Hep & Hps & Hhs).
    rewrite (connect_addressable p w ep ps hs Hep Hps Hhs). cbn zeta. run.
    match goal with |- context [for_each ?cbs deliver ?q ?v] =>
      destruct (deliver_all_returns cbs q v) as (p1 & w1 & -> & Hws)
    end.
    run. eexists _, _. split; [reflexivity|]. apply Hws.
    destruct (lookup_header "api-key" hs); simpl; eauto. }
  destruct (connect_cases p w) as [(p' & w' & Hrun & Hws)|(reason & Hrun)].
  - rewrite Hrun in Hw. simpl in Hw. subst w'.
    exists (is_connected p'), p', evs. split; [exact Hrun|]. split; [exact Hfin|].
    split; [by left|]. done.
  - rewrite Hrun in Hw. simpl in Hw.
    assert (evs = [Log ERROR ("Failed to connect to realtime API: " +:+ reason)])
      as Hevs'.
    { injection Hw as Htr. symmetry. by apply app_inv_head in Htr. }
    exists false, p, evs. split; [by rewrite Hrun, Hw|]. split; [exact Hfin|].
    split; [right; eauto|].
    intros Ha. destruct (Haddr Ha) as (p' & w' & Hrun' & Hws).
    rewrite Hrun in Hrun'. injection Hrun' as Hb <- _. done.
Qed.

(** X5.  The socket opens while [connect] waits.  On a proxy whose set-up
    left a string and dictionaries, so that the socket is created,
    [connect] answers [True], and the messages queued before the call
    have gone to the socket in the order in which they were queued; the
    queue is empty. *)
Theorem connect_flushes_the_queue (p : t) (w : World) :
  addressable p ->
  (forall url, during_grace url = [OnOpen]) ->
  Forall (fun m => frameable m = true) (message_queue p) ->
  exists p' w',
    connect p w = (Returned true, p', w') /\
    is_connected p' = true /\ message_queue p' = [] /\
    frames (trace w') = frames (trace w) ++ map frame_text (message_queue p).
Proof.
  intros (ep & ps & hs & Hep & Hps & Hhs) Hopen Hall.
  rewrite (connect_addressable p w ep ps hs Hep Hps Hhs). cbn zeta.
  rewrite Hopen. cbn [for_each]. run.
  match goal with |- context [deliver OnOpen (set_ws (Some ?sk) ?q) ?v] =>
    destruct (deliver_open_flushes (set_ws (Some sk) q) v sk)
      as (p1 & -> & Hc & Hq & _); [reflexivity | exact Hall |]
  end.
  run. rewrite Hc. eexists _, _. split; [reflexivity|].
  split; [done|]. split; [done|].
  simpl. rewrite <- app_assoc, !frames_app. simpl. f_equal. exact (frames_sent _).
Qed.

(** X6.  The socket does not open while [connect] waits.  On a proxy whose
    set-up left a string and dictionaries, so that the socket is created,
    [connect] does not answer [False]: it answers with the flag as it
    stood before the call, so on a proxy that was connected it reports a
    connection.  The new socket is in place, the queue is as it was. *)
Theorem connect_without_open_answers_old_flag (p : t) (w : World) :
  addressable p ->
  (forall url, during_grace url = []) ->
  exists sock,
    connect p w =
      (Returned (is_connected p), set_ws (Some sock) p,
       logged w [Log INFO ("Connecting to WebSocket: " +:+ fmt (endpoint p))]) /\
    sock_connected sock = false.
Proof.
  intros (ep & ps & hs & Hep & Hps & Hhs) Hnone.
  rewrite (connect_addressable p w ep ps hs Hep Hps Hhs). cbn zeta.
  rewrite Hnone, Hep. cbn [for_each fmt]. run.
  eexists. split; [reflexivity|]. by destruct (lookup_header "api-key" hs).
Qed.
End ProxyMore.

Lemma reconnect_sends_each_message_once_witness :
  exists p' w',
    (send_each Fixture.two_messages ;;; RealtimeProxy.deliver RealtimeProxy.OnOpen ;;;
     RealtimeProxy.deliver RealtimeProxy.OnClose ;;;
     send_each [PStr "ping"] ;;; RealtimeProxy.deliver RealtimeProxy.OnOpen)
      Fixture.proxy0 Fixture.world0 = (Returned tt, p', w') /\
    RealtimeProxy.is_connected p' = true /\ RealtimeProxy.message_queue p' = [] /\
    frames (trace w') =
      frames (trace Fixture.world0) ++
      map frame_text (RealtimeProxy.message_queue Fixture.proxy0 ++
                      Fixture.two_messages ++ [PStr "ping"]).
Proof.
  apply (reconnect_sends_each_message_once Fixture.proxy0 Fixture.world0
           Fixture.two_messages [PStr "ping"] Fixture.sock0);
    [reflexivity | reflexivity |].
  repeat constructor.
Defined.

Lemma connect_flushes_the_queue_witness :
  let p := RealtimeProxy.set_message_queue Fixture.two_messages
             (RealtimeProxy.set_ws None Fixture.proxy0) in
  exists p' w',
    RealtimeProxy.connect p Fixture.world0 = (Returned true, p', w') /\
    RealtimeProxy.is_connected p' = true /\ RealtimeProxy.message_queue p' = [] /\
    frames (trace w') =
      frames (trace Fixture.world0) ++ map frame_text (RealtimeProxy.message_queue p).
Proof.
  intros p. apply (connect_flushes_the_queue p Fixture.world0).
  - by eexists _, _, _.
  - intros url. reflexivity.
  - repeat constructor.
Defined.

Lemma connect_without_open_answers_old_flag_witness :
  let p := RealtimeProxy.set_is_connected true Fixture.proxy0 in
  exists sock,
    @RealtimeProxy.connect Fixture.runtime Fixture.offline_network p Fixture.world0 =
      (Returned (RealtimeProxy.is_connected p), RealtimeProxy.set_ws (Some sock) p,
       logged Fixture.world0
         [Log INFO ("Connecting to WebSocket: " +:+ fmt (RealtimeProxy.endpoint p))]) /\
    RealtimeProxy.sock_connected sock = false.
Proof.
  intros p.
  apply (@connect_without_open_answers_old_flag Fixture.runtime Fixture.offline_network
           p Fixture.world0).
  - by eexists _, _, _.
  - intros url. reflexivity.
Defined.

(** [connect] on a proxy whose headers are no dictionary: no socket is
    created, the answer is [False]. *)
Example connect_fails_before_the_socket :
  RealtimeProxy.connect Fixture.custom_proxy Fixture.world0 =
    (Returned false, Fixture.custom_proxy,
     logged Fixture.world0
       [Log ERROR ("Failed to connect to realtime API: " +:+
                   "argument of type 'NoneType' is not iterable")]).
Proof. reflexivity. Qed.

(** ** The realtime proxy: the address for Azure *)

Section SetupFacts.
Context `{Runtime} `{RealtimeProxy.Network}.
Import RealtimeProxy.

Lemma append_assoc (a b c : string) : (a +:+ b) +:+ c = a +:+ b +:+ c.
Proof.
  induction a as [|x a IH]; [done|].
  change (String x ((a +:+ b) +:+ c) = String x (a +:+ b +:+ c)). by rewrite IH.
Qed.

Lemma deliver_keeps_address (cb : callback) (p : t) (w : World) sock :
  ws p = Some sock ->
  exists sock',
    ws (snd (fst (deliver cb p w))) = Some sock' /\
    url sock' = url sock /\ header sock' = header sock.
Proof.
  intros Hws. destruct cb.
  - unfold deliver. run. rewrite Hws.
    match goal with |- context [_on_open ?q ?v] =>
      destruct (_on_open_returns q v) as (evs & ->)
    end. simpl. eauto.
  - unfold deliver, _on_close. run. rewrite Hws. simpl. eauto.
Qed.

Lemma deliver_all_keeps_address (cbs : list callback) (p : t) (w : World) sock :
  ws p = Some sock ->
  exists p' w' sock',
    for_each cbs deliver p w = (Returned tt, p', w') /\
    ws p' = Some sock' /\ url sock' = url sock /\ header sock' = header sock.
Proof.
  revert p w sock. induction cbs as [|cb cbs IH]; intros p w sock Hws.
  - eexists _, _, _. split; [reflexivity|]. done.
  - cbn [for_each]. run.
    destruct (deliver_keeps_address cb p w sock Hws) as (sock1 & Hws1 & Hu1 & Hh1).
    destruct (deliver_returns cb p w) as (p1 & w1 & Hrun & _).
    rewrite Hrun in *. simpl in Hws1.
    destruct (IH p1 w1 sock1 Hws1) as (p' & w' & sock' & -> & Hws' & Hu & Hh).
    eexists _, _, _. split; [reflexivity|]. split; [done|]. split; congruence.
Qed.

(** X7.  Towards Azure the key travels in the address.  For a configuration
    whose ['openai'] section is a dictionary with a string for the
    endpoint, the proxy is built without an exception, and the socket
    [connect] creates has the address
    [<endpoint>/openai/realtime?api-version=..&deployment=..&api-key=..],
    with [https://] turned into [wss://] and the slashes at the end of the
    endpoint removed, and carries no header: the key is sent as a
    parameter of the address. *)
Theorem azure_key_travels_in_the_address
    (config azure_config : pydict) (endpoint : string) (w : World) :
  setup_connection_params (PDict config) = _setup_azure_openai config ->
  dict_get config "openai" (PDict ∅) = PDict azure_config ->
  dict_get azure_config "endpoint" (PStr "") = PStr endpoint ->
  exists p p' w' sock,
    new (PDict config) = Returned p /\
    connect p w = (Returned (is_connected p'), p', w') /\
    ws p' = Some sock /\
    url sock =
      PStr (rstrip "/" (replace "https://" "wss://" endpoint) +:+
            "/openai/realtime" +:+
            "?api-version=" +:+
            fmt (dict_get azure_config "api_version" (PStr "2025-04-01-preview")) +:+
            "&deployment=" +:+
            fmt (dict_get azure_config "deployment" (PStr "gpt-4o-realtime-preview")) +:+
            "&api-key=" +:+ fmt (dict_get azure_config "api_key" (PStr ""))) /\
    header sock = Dict [].
Proof.
  intros Hsetup Hopenai Hendpoint. unfold new. rewrite Hsetup.
  unfold _setup_azure_openai. rewrite Hopenai, Hendpoint. cbn zeta.
  match goal with |- context [Returned ?r = Returned _] => set (p := r) end.
  pose proof (connect_addressable p w _ _ _ eq_refl eq_refl eq_refl) as Hrun.
  cbn zeta in Hrun. cbn [lookup_header] in Hrun. rewrite String.eqb_refl in Hrun.
  revert Hrun. run.
  match goal with |- context [for_each ?cbs deliver (set_ws (Some ?sk) ?q) ?v] =>
    destruct (deliver_all_keeps_address cbs (set_ws (Some sk) q) v sk eq_refl)
      as (p' & w' & sock' & -> & Hws & Hu & Hh)
  end.
  run. intros Hrun.
  exists p, p', w', sock'. split; [reflexivity|]. split; [exact Hrun|].
  split; [exact Hws|]. split; [|exact Hh].
  rewrite Hu. cbn [url join_params]. by rewrite !append_assoc.
Qed.
End SetupFacts.

Lemma azure_key_travels_in_the_address_witness :
  exists p p' w' sock,
    @RealtimeProxy.new Fixture.azure_network (PDict Fixture.azure_section) = Returned p /\
    @RealtimeProxy.connect Fixture.runtime Fixture.azure_network p Fixture.world0 =
      (Returned (RealtimeProxy.is_connected p'), p', w') /\
    RealtimeProxy.ws p' = Some sock /\
    RealtimeProxy.url sock =
      PStr (
        rstrip "/" (replace "https://" "wss://" "https://example.test/") +:+
      "/openai/realtime" +:+
      "?api-version=" +:+
      fmt (dict_get {[ "endpoint" := PStr "https://example.test/";
                       "api_key" := PStr "k1" ]}
             "api_version" (PStr "2025-04-01-preview")) +:+
      "&deployment=" +:+
      fmt (dict_get {[ "endpoint" := PStr "https://example.test/";
                       "api_key" := PStr "k1" ]}
             "deployment" (PStr "gpt-4o-realtime-preview")) +:+
      "&api-key=" +:+
      fmt (dict_get {[ "endpoint" := PStr "https://example.test/";
                       "api_key" := PStr "k1" ]} "api_key" (PStr ""))) /\
    RealtimeProxy.header sock = RealtimeProxy.Dict [].
Proof.
  apply (@azure_key_travels_in_the_address Fixture.runtime Fixture.azure_network
           Fixture.azure_section
           {[ "endpoint" := PStr "https://example.test/"; "api_key" := PStr "k1" ]}
           "https://example.test/" Fixture.world0); reflexivity.
Defined.

(** The address of the example, written out. *)
Example azure_address :
  exists p p' w' sock,
    @RealtimeProxy.new Fixture.azure_network (PDict Fixture.azure_section) = Returned p /\
    @RealtimeProxy.connect Fixture.runtime Fixture.azure_network p Fixture.world0 =
      (Returned true, p', w') /\
    RealtimeProxy.ws p' = Some sock /\
    RealtimeProxy.url sock =
      PStr "wss://example.test/openai/realtime?api-version=2025-04-01-preview&deployment=gpt-4o-realtime-preview&api-key=k1".
Proof.
  eexists _, _, _, _. vm_compute. repeat split; reflexivity.
Qed.

(** ** Placeholders for environment variables *)

Section NestedValues.

Lemma pyval_size_lookup (d : pydict) (k : string) (v : pyval) :
  d !! k = Some v -> (pyval_size v < pyval_size (PDict d))%nat.
Proof.
  intros Hk. simpl.
  rewrite <- (insert_delete_id d k v Hk).
  rewrite map_fold_insert_L.
  - lia.
  - intros. lia.
  - apply lookup_delete_eq.
Qed.

Lemma pyval_size_elem (l : list pyval) (v : pyval) :
  v ∈ l -> (pyval_size v < pyval_size (PList l))%nat.
Proof.
  intros Hv. simpl. induction Hv as [v l|v v' l _ IH]; simpl; lia.
Qed.

(** Induction on nested values. *)
Lemma pyval_nested_ind (Q : pyval -> Prop) :
  Q PNone -> (forall b, Q (PBool b)) -> (forall z, Q (PInt z)) ->
  (forall s, Q (PStr s)) ->
  (forall l, Forall Q l -> Q (PList l)) ->
  (forall d, map_Forall (fun _ v => Q v) d -> Q (PDict d)) ->
  forall v, Q v.
Proof.
  intros HN HB HI HS HL HD v.
  remember (pyval_size v) as n eqn:Hn. revert v Hn.
  induction n as [n IH] using lt_wf_ind. intros v ->.
  destruct v as [|b|z|s|l|d]; auto.
  - apply HL. apply Forall_forall. intros v Hv.
    eapply IH; [|reflexivity]. by apply pyval_size_elem.
  - apply HD. intros k v Hk.
    eapply IH; [|reflexivity]. by apply (pyval_size_lookup d k).
Qed.

(** X8.  Environment variables that are not set leave the configuration as
    it is.  When none of the variables the configuration refers to is
    set, [_resolve_env_vars] returns the configuration unchanged: every
    placeholder stays in place as text. *)
Theorem _resolve_env_vars_keeps_unset_placeholders
    (environ : gmap string string) (config : pyval) :
  (forall name, refers_to name config -> environ !! name = None) ->
  AvatarEngine._resolve_env_vars environ config = config.
Proof.
  induction config as [|b|z|s|l IH|d IH] using pyval_nested_ind; intros Hunset;
    try reflexivity.
  - cbn [AvatarEngine._resolve_env_vars].
    destruct (startswith "${" s && endswith "}" s) eqn:Hph; [|done].
    cbn zeta. by rewrite (Hunset (slice 2 1 s)) by (by constructor).
  - simpl. f_equal. induction IH as [|v l Hv _ IHl]; [done|]. simpl. f_equal.
    + apply Hv. intros name Hr. apply Hunset. apply (refers_list _ _ v); [apply list_elem_of_here | done].
    + apply IHl. intros name Hr. apply Hunset.
      inversion Hr as [| l' v' Hin Hv' |]; subst.
      apply (refers_list _ _ v'); [by apply list_elem_of_further | done].
  - simpl. f_equal. apply map_eq. intros k. rewrite lookup_fmap.
    destruct (d !! k) as [v|] eqn:Hk; [|done]. simpl. f_equal.
    apply (IH k v Hk). intros name Hr. apply Hunset. by apply (refers_dict _ _ k v).
Qed.

Lemma startswith_app (prefix s : string) : startswith prefix (prefix +:+ s) = true.
Proof.
  induction prefix as [|a prefix IH]; [done|]. simpl.
  by rewrite Ascii.eqb_refl, IH.
Qed.

Lemma endswith_app (suffix s : string) : endswith suffix (s +:+ suffix) = true.
Proof.
  induction s as [|a s IH]; simpl.
  - destruct suffix; simpl; [done|]. by rewrite Ascii.eqb_refl, String.eqb_refl.
  - rewrite IH. by rewrite orb_true_r.
Qed.

Lemma length_app_string (a b : string) :
  String.length (a +:+ b) = (String.length a + String.length b)%nat.
Proof. induction a as [|c a IH]; simpl; [done|]. by rewrite IH. Qed.

Lemma substring_app (a b : string) : String.substring 0 (String.length a) (a +:+ b) = a.
Proof.
  induction a as [|c a IH]; simpl.
  - by destruct b.
  - by rewrite IH.
Qed.

Lemma slice_placeholder (name : string) : slice 2 1 ("${" +:+ name +:+ "}") = name.
Proof.
  unfold slice.
  change ("${" +:+ name +:+ "}") with (String "$" (String "{" (name +:+ "}"))).
  cbn [String.length String.substring Nat.sub].
  rewrite length_app_string. cbn [String.length].
  replace (String.length name + 1 - 0 - 1)%nat with (String.length name) by lia.
  apply substring_app.
Qed.

(** X9.  A placeholder whose variable is set resolves to the value of the
    variable, whatever the name between the braces: a name written with a
    default ([NAME:default]) is looked up as it stands. *)
Theorem _resolve_env_vars_resolves_set_placeholders
    (environ : gmap string string) (name value : string) :
  environ !! name = Some value ->
  AvatarEngine._resolve_env_vars environ (PStr ("${" +:+ name +:+ "}")) = PStr value.
Proof.
  intros Hset. cbn [AvatarEngine._resolve_env_vars].
  rewrite (startswith_app "${" (name +:+ "}")).
  assert ("${" +:+ name +:+ "}" = ("${" +:+ name) +:+ "}") as Hassoc by done.
  rewrite Hassoc at 1. rewrite (endswith_app "}" ("${" +:+ name)).
  cbn [andb]. cbn zeta. by rewrite slice_placeholder, Hset.
Qed.
End NestedValues.

Lemma _resolve_env_vars_keeps_unset_placeholders_witness :
  AvatarEngine._resolve_env_vars ∅ Fixture.document = Fixture.document.
Proof.
  apply (_resolve_env_vars_keeps_unset_placeholders ∅ Fixture.document).
  intros name _. apply lookup_empty.
Defined.

Lemma _resolve_env_vars_resolves_set_placeholders_witness :
  AvatarEngine._resolve_env_vars {[ "SPEECH_KEY" := "secret" ]}
    (PStr ("${" +:+ "SPEECH_KEY" +:+ "}")) = PStr "secret".
Proof.
  apply (_resolve_env_vars_resolves_set_placeholders
           {[ "SPEECH_KEY" := "secret" ]} "SPEECH_KEY" "secret").
  reflexivity.
Defined.

(** ** The configuration class *)

Section BaseConfigFacts.
Import BaseConfig.

Lemma split_nonempty (sep : ascii) (s : string) : split sep s <> [].
Proof.
  destruct s as [|c s]; simpl; [done|].
  destruct (Ascii.eqb c sep); [done|]. by destruct (split sep s).
Qed.

Lemma get_from_not_none (keys : list string) (value dflt : pyval) :
  dflt <> PNone -> keys <> [] \/ value <> PNone ->
  get_from keys value dflt <> PNone.
Proof.
  intros Hd. revert value. induction keys as [|k rest IH]; intros value Hv.
  - simpl. by destruct Hv.
  - simpl. destruct value as [| | | | |d]; try done.
    destruct (d !! k) as [v|]; [|done].
    destruct v; try done; apply IH; by right.
Qed.

(** X10.  [get] with a default never answers [None].  Whatever the key and
    the document, when the default given is not [None] the answer is not
    [None]: a key that is missing, a key stored with the value [None] and
    a path through something that is not a dictionary all give the
    default. *)
Theorem get_never_answers_none (c : t) (key : string) (dflt : pyval) :
  dflt <> PNone -> get c key dflt <> PNone.
Proof.
  intros Hd. unfold get. apply get_from_not_none; [done|].
  left. apply split_nonempty.
Qed.

Lemma set_in_cons (k k' : string) (rest : list string) (value : pyval) (d : pydict) :
  set_in (k :: k' :: rest) value (PDict d) =
    match set_in (k' :: rest) value (default (PDict ∅) (d !! k)) with
    | Returned child => Returned (PDict (<[k := child]> d))
    | Raised ex => Raised ex
    end.
Proof. reflexivity. Qed.

Lemma set_in_dict (keys : list string) (value node node' : pyval) :
  set_in keys value node = Returned node' -> exists d, node' = PDict d.
Proof.
  destruct node as [| | | | |d]; try (by destruct keys).
  destruct keys as [|k [|k' rest]].
  - intros [= <-]. eauto.
  - intros [= <-]. eauto.
  - rewrite set_in_cons. destruct (set_in _ _ _); [|done]. intros [= <-]. eauto.
Qed.

Lemma get_from_set_in (keys : list string) (value dflt node node' : pyval) :
  keys <> [] ->
  set_in keys value node = Returned node' ->
  get_from keys node' dflt = match value with PNone => dflt | _ => value end.
Proof.
  revert node node'. induction keys as [|k rest IH]; intros node node' Hne Hset; [done|].
  destruct node as [| | | | |d]; try discriminate Hset.
  destruct rest as [|k' rest'].
  - simpl in Hset. injection Hset as <-. simpl. rewrite lookup_insert_eq.
    by destruct value.
  - rewrite set_in_cons in Hset.
    destruct (set_in (k' :: rest') value (default (PDict ∅) (d !! k)))
      as [child|ex] eqn:Hchild; [|discriminate Hset].
    injection Hset as <-. cbn [get_from]. rewrite lookup_insert_eq.
    specialize (IH _ _ ltac:(done) Hchild).
    destruct (set_in_dict _ _ _ _ Hchild) as [cd ->].
    exact IH.
Qed.

(** X11.  What [set] stores, [get] finds.  When [set(key, value)] returns,
    [get(key, default)] answers [value]; setting [None] reads as not set,
    so then the answer is the default.  This holds for every key, dotted
    or not, and whatever the document held before. *)
Theorem get_after_set (key : string) (value dflt : pyval) (c c' : t) (w w' : World) :
  set key value c w = (Returned tt, c', w') ->
  get c' key dflt = match value with PNone => dflt | _ => value end.
Proof.
  unfold set. run.
  destruct (set_in (split "." key) value (config c)) as [node'|ex] eqn:Hset;
    simpl; run; [|discriminate].
  intros [= <- _]. unfold get. simpl.
  apply (get_from_set_in _ _ _ (config c)); [apply split_nonempty | done].
Qed.

(** [set] raises only on a path through something that is not a
    dictionary, and then leaves the document alone. *)
Lemma set_raises (key : string) (value : pyval) (c c' : t) (w w' : World) (ex : exn) :
  set key value c w = (Raised ex, c', w') -> c' = c /\ w' = w /\ ex = not_subscriptable.
Proof.
  unfold set. run.
  destruct (set_in (split "." key) value (config c)) as [node'|ex'] eqn:Hset;
    simpl; run; [discriminate|].
  intros [= <- <- <-]. split; [done|]. split; [done|].
  revert Hset. generalize (config c). generalize (split "." key).
  induction l as [|k rest IH]; intros node Hset.
  - destruct node; simpl in Hset; congruence.
  - destruct node as [| | | | |d]; try (simpl in Hset; congruence).
    destruct rest as [|k' rest']; [discriminate|].
    rewrite set_in_cons in Hset.
    destruct (set_in (k' :: rest') value _) eqn:Hc; [discriminate|].
    injection Hset as <-. by eapply IH.
Qed.

Lemma deep_update_lookup (us base : pydict) (k : string) :
  deep_update (PDict us) base !! k =
    match us !! k with
    | None => base !! k
    | Some v =>
        match v, base !! k with
        | PDict _, Some (PDict b) => Some (PDict (deep_update v b))
        | _, _ => Some v
        end
    end.
Proof.
  cbn [deep_update]. revert k.
  apply (map_fold_weak_ind (fun r m => forall k,
    r !! k = match m !! k with
             | None => base !! k
             | Some v =>
                 match v, base !! k with
                 | PDict _, Some (PDict b) => Some (PDict (deep_update v b))
                 | _, _ => Some v
                 end
             end)).
  - intros k. by rewrite lookup_empty.
  - intros i x m r Hi IH k. specialize (IH i) as Hri. rewrite Hi in Hri.
    destruct (decide (k = i)) as [->|Hne].
    + rewrite lookup_insert_eq. rewrite Hri.
      destruct x; try by rewrite lookup_insert_eq.
      destruct (base !! i) as [[]|]; by rewrite lookup_insert_eq.
    + rewrite (lookup_insert_ne m) by done. rewrite <- IH.
      destruct x; try by rewrite lookup_insert_ne.
      rewrite Hri. destruct (base !! i) as [[]|]; by rewrite lookup_insert_ne.
Qed.

Lemma deep_update_self (v : pyval) :
  forall d, v = PDict d -> deep_update v d = d.
Proof.
  induction v as [|b|z|s|l IH|us IH] using pyval_nested_ind; intros d Hd;
    try discriminate Hd.
  injection Hd as <-. apply map_eq. intros k. rewrite deep_update_lookup.
  destruct (us !! k) as [x|] eqn:Hk; [|done].
  destruct x as [| | | | |xs]; try done.
  f_equal. f_equal. by apply (IH k _ Hk).
Qed.

Lemma deep_update_idempotent (u : pyval) (base : pydict) :
  deep_update u (deep_update u base) = deep_update u base.
Proof.
  revert base. induction u as [|b|z|s|l IH|us IH] using pyval_nested_ind;
    intros base; try reflexivity.
  apply map_eq. intros k. rewrite !deep_update_lookup.
  destruct (us !! k) as [x|] eqn:Hk; [|done].
  destruct x as [| | | | |xs]; try done.
  destruct (base !! k) as [[| | | | |bb]|]; try done.
  - f_equal. f_equal. by apply deep_update_self.
  - f_equal. f_equal. by apply deep_update_self.
  - f_equal. f_equal. by apply deep_update_self.
  - f_equal. f_equal. by apply deep_update_self.
  - f_equal. f_equal. by apply deep_update_self.
  - f_equal. f_equal. apply (IH k _ Hk).
  - f_equal. f_equal. by apply deep_update_self.
Qed.

(** X12.  [update] is idempotent.  A second call with the same updates, on
    the document as the first call left it, ends as the first did: it
    returns if the first returned and raises the same exception if the
    first raised, and it leaves the document as the first call left
    it. *)
Theorem update_twice_is_update_once (updates : pyval) (c : t) (w : World) :
  update updates (snd (fst (update updates c w))) (snd (update updates c w)) =
  update updates c w.
Proof.
  unfold update. run. destruct updates as [| | | | |us]; run; try reflexivity.
  destruct (config c) as [| | | | |base] eqn:Hc; run.
  6: { cbn [fst snd config]. run. by rewrite deep_update_idempotent. }
  all: destruct (decide (us = ∅)) as [Hus|Hus]; run; cbn [fst snd]; run.
  all: rewrite Hc; destruct (decide (us = ∅)); run; done.
Qed.

Lemma split_free (sep : ascii) (s : string) :
  free_of sep s = true -> split sep s = [s].
Proof.
  induction s as [|a s IH]; [done|]. simpl. intros [Ha Hs]%andb_prop.
  apply negb_true_iff in Ha. rewrite Ha, (IH Hs). done.
Qed.

Lemma split_app (sep : ascii) (a b : string) :
  free_of sep a = true ->
  split sep (a +:+ String sep b) = a :: split sep b.
Proof.
  induction a as [|c a IH]; simpl.
  - intros _. by rewrite Ascii.eqb_refl.
  - intros [Hc Ha]%andb_prop. apply negb_true_iff in Hc.
    change (String c a +:+ String sep b) with (String c (a +:+ String sep b)).
    cbn [split]. rewrite Hc, (IH Ha). done.
Qed.

Lemma split_join (path : list string) :
  path <> [] -> Forall (fun k => free_of "." k = true) path ->
  split "." (join "." path) = path.
Proof.
  intros Hne Hall. induction Hall as [|k rest Hk Hrest IH]; [done|].
  destruct rest as [|k' rest'].
  - simpl. by apply split_free.
  - assert (join "." (k :: k' :: rest') =
            k +:+ String "."%char (join "." (k' :: rest'))) as -> by reflexivity.
    rewrite split_app by done. f_equal. by apply IH.
Qed.

Lemma get_from_value_at (path : list string) (u leaf dflt : pyval) :
  value_at path u = Some leaf -> leaf <> PNone ->
  get_from path u dflt = leaf.
Proof.
  revert u. induction path as [|k rest IH]; intros u Hat Hleaf.
  - simpl in *. congruence.
  - simpl in *. destruct u as [| | | | |d]; try discriminate Hat.
    destruct (d !! k) as [v|]; [|discriminate Hat]. simpl in Hat.
    assert (v <> PNone) as Hv.
    { intros ->. destruct rest; simpl in Hat; congruence. }
    rewrite (IH v Hat Hleaf). by destruct v.
Qed.

Lemma get_from_deep_update (path : list string) (us base : pydict) (leaf dflt : pyval) :
  path <> [] ->
  value_at path (PDict us) = Some leaf -> plain leaf = true ->
  get_from path (PDict (deep_update (PDict us) base)) dflt = leaf.
Proof.
  intros Hne Hat Hplain.
  assert (leaf <> PNone) as Hleaf by (by destruct leaf).
  revert us base Hat. induction path as [|k rest IH]; intros us base Hat; [done|].
  cbn [get_from]. rewrite deep_update_lookup.
  cbn [value_at] in Hat. destruct (us !! k) as [v|] eqn:Hk; [|discriminate Hat].
  simpl in Hat. destruct rest as [|k' rest'].
  - simpl in Hat. injection Hat as ->. destruct leaf; done.
  - destruct v as [| | | | |vs]; try discriminate Hat.
    destruct (base !! k) as [[| | | | |bb]|];
      try (apply (get_from_value_at _ (PDict vs)); done).
    by apply IH.
Qed.

(** X13.  What [update] writes, [get] finds.  Let a path of keys, none with
    a dot in it, lead through the dictionaries of [updates] to a value
    that is neither a dictionary nor [None].  After [update(updates)] on
    a document that is a dictionary, [get] with the dotted path answers
    that value, whatever the document held there before. *)
Theorem get_after_update
    (path : list string) (us base : pydict) (leaf dflt : pyval) (w : World) :
  path <> [] ->
  Forall (fun k => free_of "." k = true) path ->
  value_at path (PDict us) = Some leaf ->
  plain leaf = true ->
  exists c',
    update (PDict us) {| config := PDict base |} w = (Returned tt, c', w) /\
    get c' (join "." path) dflt = leaf.
Proof.
  intros Hne Hfree Hat Hplain. unfold update. run.
  eexists. split; [reflexivity|]. unfold get. cbn [config].
  rewrite split_join by done. by apply get_from_deep_update.
Qed.
End BaseConfigFacts.

Lemma get_never_answers_none_witness :
  BaseConfig.get (BaseConfig.new (PDict {[ "azure" := PNone ]})) "azure" (PDict ∅)
  <> PNone.
Proof.
  apply (get_never_answers_none
           (BaseConfig.new (PDict {[ "azure" := PNone ]})) "azure" (PDict ∅)).
  discriminate.
Defined.

Lemma get_after_set_witness :
  exists c' w',
    BaseConfig.set "azure.openai.endpoint" (PStr "https://example.test")
      (BaseConfig.new (PDict ∅)) Fixture.world0 = (Returned tt, c', w') /\
    BaseConfig.get c' "azure.openai.endpoint" PNone = PStr "https://example.test".
Proof.
  eexists _, _. split; [reflexivity|].
  eapply (get_after_set "azure.openai.endpoint" (PStr "https://example.test") PNone
            (BaseConfig.new (PDict ∅)) _ Fixture.world0).
  reflexivity.
Defined.

Lemma get_after_update_witness :
  exists c',
    BaseConfig.update (PDict Fixture.azure_section)
      {| BaseConfig.config := PDict {[ "openai" := PStr "none" ]} |} Fixture.world0 =
      (Returned tt, c', Fixture.world0) /\
    BaseConfig.get c' (join "." ["openai"; "endpoint"]) PNone =
      PStr "https://example.test/".
Proof.
  apply (get_after_update ["openai"; "endpoint"] Fixture.azure_section
           {[ "openai" := PStr "none" ]} (PStr "https://example.test/") PNone
           Fixture.world0).
  - discriminate.
  - repeat constructor.
  - reflexivity.
  - reflexivity.
Defined.

(** ** Loading the persona and the plugins *)

Section LoadingFacts.
Context {P S : Type}.
Context `{Runtime} `{RealtimeProxy.Network} `{Plugin P} `{Speech S}
        `{AvatarEngine.Files P}.
Import AvatarEngine.

Lemma dict_lookup_set {O} (k : string) (v : O) (d : list (string * O)) :
  dict_lookup k (dict_set k v d) = Some v.
Proof.
  induction d as [|[k' v'] d IH]; simpl.
  - by rewrite String.eqb_refl.
  - destruct (String.eqb k k') eqn:Hk; simpl; rewrite ?String.eqb_refl, ?Hk; done.
Qed.

Lemma dict_set_set {O} (k : string) (v v' : O) (d : list (string * O)) :
  dict_set k v' (dict_set k v d) = dict_set k v' d.
Proof.
  induction d as [|[k0 v0] d IH]; simpl.
  - by rewrite String.eqb_refl.
  - destruct (String.eqb k k0) eqn:Hk; simpl; rewrite ?String.eqb_refl, ?Hk; [done|].
    by rewrite IH.
Qed.

(** X14.  [load_persona] never raises and always leaves a persona.  The
    persona is the dictionary read from the file; when the file cannot be
    read, or holds something that is not a dictionary, the failure is
    logged and the persona is the default one.  Nothing else of the engine
    changes. *)
Theorem load_persona_never_raises
    (persona_path : option string) (e : t P S) (w : World) :
  exists d w',
    load_persona persona_path e w = (Returned d, set_persona (Some d) e, w') /\
    ((exists file name,
        read_persona file = Returned (PDict d) /\
        w' = logged w [Log INFO ("Persona loaded: " +:+ name)]) \/
     (d = _get_default_persona /\
      exists reason,
        w' = logged w [Log ERROR ("Failed to load persona: " +:+ reason)])).
Proof.
  unfold load_persona. run.
  destruct (read_persona _) as [v|ex] eqn:Hread; simpl; run.
  - destruct v; run;
      try (rewrite ?logged_nil; eexists _, _; split; [reflexivity|];
           right; split; [done | eauto]).
    eexists _, _. split; [reflexivity|]. left. eauto.
  - rewrite ?logged_nil. eexists _, _. split; [reflexivity|].
    right. split; [done | eauto].
Qed.

(** X15.  A plugin is registered before it is initialized, and stays.
    [load_plugins] on an entry whose module imports puts the plugin object
    in the registry and then calls its [initialize]: when that returns
    (whatever it returns) the plugin is reported as loaded, when it raises
    the failure is logged; in both cases the plugin is in the registry
    afterwards, in the state its [initialize] left it in. *)
Theorem plugin_is_registered_whatever_initialize_does
    (entry : pyval) (name : string) (p : P) (e : t P S) (w : World) :
  entry_name entry = PStr name ->
  import_plugin (instance_name e) (PStr name) = Returned (Some p) ->
  load_plugins (Some [entry]) e w =
    (Returned tt,
     set_plugins (dict_set name (snd (plugin_initialize p (entry_config entry)))
                    (plugins e)) e,
     logged w [PluginInitialize name (entry_config entry);
               match fst (plugin_initialize p (entry_config entry)) with
               | Returned _ => Log INFO ("Plugin loaded: " +:+ name)
               | Raised ex =>
                   Log ERROR ("Failed to load plugin " +:+ name +:+ ": " +:+
                              exn_str ex)
               end]).
Proof.
  intros Hname Himport. unfold load_plugins. run. cbn [for_each]. run.
  assert (match entry with PDict d => dict_get d "name" PNone | _ => entry end
          = PStr name) as -> by exact Hname.
  unfold _load_plugin. run. rewrite Himport. simpl. run.
  assert (match entry with PDict d => dict_get d "config" (PDict ∅) | _ => PDict ∅ end
          = entry_config entry) as -> by reflexivity.
  unfold on_plugin. fields. rewrite dict_lookup_set.
  destruct (plugin_initialize p (entry_config entry)) as [[b|ex] p']; run;
    by rewrite dict_set_set, ?logged_logged.
Qed.

(** X16.  [load_plugins] raises only when there is nothing to iterate over:
    no list given and no configuration loaded, where it raises a
    [TypeError] and leaves the engine alone.  In every other case it
    returns, whatever the entries and whatever becomes of each plugin.  A
    list given empty counts as not given: with a configuration loaded,
    the configured plugins are loaded. *)
Theorem load_plugins_raises_only_without_a_list
    (plugin_list : option (list pyval)) (e : t P S) (w : World) :
  (plugin_list = None -> config e = None ->
   load_plugins plugin_list e w =
     (Raised (Exception "TypeError" "'NoneType' object is not iterable"), e, w)) /\
  (plugin_list <> None \/ config e <> None ->
   exists e' w', load_plugins plugin_list e w = (Returned tt, e', w')) /\
  (config e <> None -> load_plugins (Some []) e w = load_plugins None e w).
Proof.
  split; [|split].
  - intros -> Hc. unfold load_plugins. run. by rewrite Hc.
  - intros Hsome. unfold load_plugins. run.
    assert (forall l (e0 : t P S) w0, exists e' w',
      for_each l (fun plugin_config =>
        let plugin_name :=
          match plugin_config with
          | PDict d => dict_get d "name" PNone
          | _ => plugin_config
          end in
        try_except
          (_load_plugin plugin_name plugin_config)
          (fun ex =>
             logger ERROR ("Failed to load plugin " +:+ fmt plugin_name +:+
                           ": " +:+ exn_str ex))) e0 w0 = (Returned tt, e', w'))
      as Hloop.
    { induction l as [|entry l IH]; intros e0 w0; [by eexists _, _|].
      cbn [for_each]. run.
      destruct (_load_plugin _ entry e0 w0) as [[[u|ex] e1] w1]; run.
      - destruct u. apply IH.
      - apply IH. }
    destruct plugin_list as [[|entry l]|]; [| apply Hloop |].
    + destruct (config e) as [c|]; apply Hloop.
    + destruct (config e) as [c|]; [apply Hloop|]. by destruct Hsome.
  - intros Hc. unfold load_plugins. run. by destruct (config e).
Qed.

End LoadingFacts.

Lemma plugin_is_registered_whatever_initialize_does_witness :
  let e := Fixture.engine_with "demo" [] in
  let p := Fixture.answers "ctx" ∅ false in
  AvatarEngine.load_plugins (Some [PStr "rag_plugin"]) e Fixture.world0 =
    (Returned tt,
     AvatarEngine.set_plugins
       (dict_set "rag_plugin"
          (snd (plugin_initialize p (entry_config (PStr "rag_plugin"))))
          (AvatarEngine.plugins e)) e,
     logged Fixture.world0
       [PluginInitialize "rag_plugin" (entry_config (PStr "rag_plugin"));
        match fst (plugin_initialize p (entry_config (PStr "rag_plugin"))) with
        | Returned _ => Log INFO ("Plugin loaded: " +:+ "rag_plugin")
        | Raised ex =>
            Log ERROR ("Failed to load plugin " +:+ "rag_plugin" +:+ ": " +:+
                       exn_str ex)
        end]).
Proof.
  intros e p.
  apply (plugin_is_registered_whatever_initialize_does
           (PStr "rag_plugin") "rag_plugin" p e Fixture.world0); reflexivity.
Defined.

Lemma load_plugins_raises_only_without_a_list_witness :
  let e := AvatarEngine.new (P:=Fixture.plugin) (S:=unit) "demo" None in
  AvatarEngine.load_plugins None e Fixture.world0 =
    (Raised (Exception "TypeError" "'NoneType' object is not iterable"),
     e, Fixture.world0).
Proof.
  intros e.
  apply (load_plugins_raises_only_without_a_list None e Fixture.world0); reflexivity.
Defined.

Section ReloadFacts.
Context {P S : Type}.
Context `{Runtime} `{RealtimeProxy.Network} `{Plugin P} `{Speech S}
        `{AvatarEngine.Files P}.
Import AvatarEngine.

Lemma initialized_plugins_app tr tr' :
  initialized_plugins (tr ++ tr') = initialized_plugins tr ++ initialized_plugins tr'.
Proof. unfold initialized_plugins. apply omap_app. Qed.

(** One entry of the list: what it adds to the trace does not depend on
    the plugins the engine holds. *)
Lemma load_entry (entry : pyval) (e : t P S) (w : World) :
  exists e' evs,
    try_except
      (_load_plugin (entry_name entry) entry)
      (fun ex =>
         logger ERROR ("Failed to load plugin " +:+ fmt (entry_name entry) +:+
                       ": " +:+ exn_str ex)) e w = (Returned tt, e', logged w evs) /\
    instance_name e' = instance_name e /\ config e' = config e /\
    initialized_plugins evs = option_list (loads (instance_name e) entry) /\
    cleaned evs = [].
Proof.
  unfold _load_plugin, loads. run.
  destruct (import_plugin (instance_name e) (entry_name entry)) as [[p|]|ex] eqn:Himp;
    simpl; run.
  - destruct (entry_name entry) as [| | |name| |] eqn:Hname; run;
      try (eexists _, _; split; [reflexivity|]; rewrite ?Himp; done).
    unfold on_plugin. fields. rewrite dict_lookup_set.
    destruct (plugin_initialize p _) as [[b|ex] p']; run;
      rewrite ?logged_logged; eexists _, _; (split; [reflexivity|]);
      rewrite Himp; done.
  - exists e, []. rewrite logged_nil. split; [done|]. split; [done|]. split; [done|].
    destruct (entry_name entry); try done. by rewrite Himp.
  - eexists _, _. split; [reflexivity|]. split; [done|]. split; [done|].
    destruct (entry_name entry); try done. by rewrite Himp.
Qed.

Lemma load_entries (body : pyval -> M (t P S) unit) (l : list pyval)
    (e : t P S) (w : World) :
  (forall entry e w,
     body entry e w =
       try_except
         (_load_plugin (entry_name entry) entry)
         (fun ex =>
            logger ERROR ("Failed to load plugin " +:+ fmt (entry_name entry) +:+
                          ": " +:+ exn_str ex)) e w) ->
  exists e' evs,
    for_each l body e w = (Returned tt, e', logged w evs) /\
    instance_name e' = instance_name e /\ config e' = config e /\
    initialized_plugins evs = omap (loads (instance_name e)) l /\
    cleaned evs = [].
Proof.
  intros Hbody. revert e w. induction l as [|entry l IH]; intros e w.
  - exists e, []. by rewrite logged_nil.
  - change (for_each (entry :: l) body) with (body entry ;;; for_each l body).
    rewrite run_bind, Hbody.
    destruct (load_entry entry e w) as (e1 & evs1 & -> & Hname & Hcfg & Hi1 & Hc1).
    destruct (IH e1 (logged w evs1)) as (e' & evs & -> & Hname' & Hcfg' & Hi & Hc).
    exists e', (evs1 ++ evs). rewrite logged_logged. split; [done|].
    split; [congruence|]. split; [congruence|].
    rewrite initialized_plugins_app, cleaned_app, Hi1, Hi, Hc1, Hc, Hname.
    split; [|done]. simpl. by destruct (loads (instance_name e) entry).
Qed.

(** X17.  [load_plugins] loads again what is loaded.  With a configuration
    in place, a call imports, builds and initializes every plugin of the
    configured list that can be loaded, in the order of the list, whether
    or not the engine already holds a plugin under that name, and calls
    no [cleanup] on a plugin it replaces.  Two calls in a row ([initialize]
    after [load_plugins], as on the start of an instance) initialize every
    plugin twice. *)
Theorem load_plugins_loads_again (e : t P S) (c : BaseConfig) (w : World) :
  config e = Some c ->
  exists e' w',
    (load_plugins None ;;; load_plugins None) e w = (Returned tt, e', w') /\
    initialized_plugins (trace w') =
      initialized_plugins (trace w) ++
      omap (loads (instance_name e)) (plugin_list c) ++
      omap (loads (instance_name e)) (plugin_list c) /\
    cleaned (trace w') = cleaned (trace w).
Proof.
  intros Hc. unfold load_plugins. run. rewrite Hc.
  match goal with |- context [for_each (plugin_list c) ?body e w] =>
    destruct (load_entries body (plugin_list c) e w)
      as (e1 & evs1 & Hrun1 & Hn1 & Hcfg1 & Hi1 & Hc1); [reflexivity|];
    rewrite Hrun1; run; rewrite Hcfg1, Hc;
    destruct (load_entries body (plugin_list c) e1 (logged w evs1))
      as (e2 & evs2 & Hrun2 & _ & _ & Hi2 & Hc2); [reflexivity|];
    rewrite Hrun2
  end.
  rewrite logged_logged. eexists _, _. split; [reflexivity|].
  simpl. rewrite !initialized_plugins_app, !cleaned_app, Hi1, Hi2, Hc1, Hc2, Hn1.
  by rewrite !app_nil_r.
Qed.
End ReloadFacts.

Lemma load_plugins_loads_again_witness :
  let e := Fixture.engine_with "demo" [] in
  exists e' w',
    (AvatarEngine.load_plugins None ;;; AvatarEngine.load_plugins None) e Fixture.world0 =
      (Returned tt, e', w') /\
    initialized_plugins (trace w') =
      initialized_plugins (trace Fixture.world0) ++
      omap (loads (AvatarEngine.instance_name e))
        (AvatarEngine.plugin_list Fixture.the_config) ++
      omap (loads (AvatarEngine.instance_name e))
        (AvatarEngine.plugin_list Fixture.the_config) /\
    cleaned (trace w') = cleaned (trace Fixture.world0).
Proof.
  intros e.
  apply (load_plugins_loads_again e Fixture.the_config Fixture.world0).
  reflexivity.
Defined.

(** ** The flag of [initialize] *)

Section InitializeFacts.
Context {P S : Type}.
Context `{Runtime} `{RealtimeProxy.Network} `{Plugin P} `{Speech S}
        `{AvatarEngine.Files P}.
Import AvatarEngine.

Local Abbreviation flag := (same_flag (P:=P) (S:=S)).

#[local] Instance same_flag_preorder : PreOrder flag.
Proof.
  split.
  - by intros e.
  - intros a b c Hab Hbc. unfold same_flag in *. congruence.
Qed.

Lemma keeps_flag {A} (m : M (t P S) A) : keeps same_setup m -> keeps flag m.
Proof. intros Hm e w. apply (Hm e w). Qed.

Lemma keeps_flag_load_persona path : keeps flag (load_persona path).
Proof.
  unfold load_persona. keeps_bind; [keeps_prim|]. intros e.
  keeps_try.
  - keeps_bind; [keeps_prim|]. intros v. destruct v; try keeps_prim.
    keeps_bind; [keeps_update; by intros e'|]. intros _.
    keeps_bind; [keeps_prim | intros; keeps_prim].
  - intros ex. keeps_bind; [keeps_prim|]. intros _.
    keeps_bind; [keeps_update; by intros e' | intros; keeps_prim].
Qed.

(** The steps of [initialize] up to the setting of the flag. *)
Lemma initialize_flag (e : t P S) :
  triple (flag e) initialize
    (fun r e' => match r with
                 | Returned _ => _initialized e' = true
                 | Raised _ => flag e e'
                 end).
Proof.
  assert (forall A (m : M (t P S) A),
             keeps flag m ->
             triple (flag e) m
               (fun r e' => match r with
                            | Returned _ => flag e e'
                            | Raised _ => flag e e'
                            end)) as Hstep.
  { intros A m Hm s w Hs. specialize (Hm s w).
    destruct (m s w) as [[[a|ex] s'] w']; simpl in *;
      unfold same_flag in *; congruence. }
  unfold initialize.
  apply (triple_try_except _ (fun _ => flag e)).
  2: { intros ex s w Hs. run. done. }
  apply (triple_bind _ (fun _ => flag e)); [by apply triple_self|].
  intros e0.
  apply (triple_bind _ (fun _ => flag e)).
  { apply Hstep. destruct (config e0); [keeps_prim|].
    keeps_bind; [apply keeps_flag, keeps_load_config | intros; keeps_prim]. }
  intros _.
  apply (triple_bind _ (fun _ => flag e)); [by apply triple_self|].
  intros e1.
  apply (triple_bind _ (fun _ => flag e)).
  { apply Hstep. destruct (persona_falsy e1); [|keeps_prim].
    keeps_bind; [apply keeps_flag_load_persona | intros; keeps_prim]. }
  intros _.
  apply (triple_bind _ (fun _ => flag e));
    [apply Hstep, keeps_flag, keeps_azure_get|].
  intros openai.
  apply (triple_bind _ (fun _ => flag e)).
  { apply Hstep. destruct (truthy openai); [|keeps_prim].
    keeps_bind; [apply keeps_flag, keeps_azure_config|]. intros cfg.
    keeps_bind; [keeps_prim|]. intros proxy.
    keeps_bind; [keeps_update; by intros e'|]. intros _.
    keeps_bind; [apply keeps_flag, keeps_on_realtime_proxy | intros; keeps_prim]. }
  intros _.
  apply (triple_bind _ (fun _ => flag e));
    [apply Hstep, keeps_flag, keeps_azure_get|].
  intros speech.
  apply (triple_bind _ (fun _ => flag e)).
  { apply Hstep. destruct (truthy speech); [|keeps_prim].
    keeps_bind; [apply keeps_flag, keeps_azure_config|]. intros cfg.
    keeps_bind; [keeps_prim|]. intros h.
    keeps_bind; [keeps_update; by intros e'|]. intros _.
    keeps_bind; [keeps_prim|]. intros _.
    keeps_bind; [apply keeps_flag, keeps_on_speech_handler | intros; keeps_prim]. }
  intros _.
  apply (triple_bind _ (fun _ => flag e));
    [apply Hstep, keeps_flag, keeps_load_plugins|].
  intros _.
  apply (triple_bind _ (fun _ e' => _initialized e' = true)).
  { by apply triple_update. }
  intros _.
  apply (triple_bind _ (fun _ e' => _initialized e' = true)); [by apply triple_self|].
  intros e2. by apply triple_logger.
Qed.

(** X18.  [initialize] sets the flag only at its end.  When it returns, the
    engine is marked initialized; when it raises, the flag is as it was
    before the call, and the last record of the log is the error with the
    text of the exception, which is raised again. *)
Theorem initialize_sets_the_flag_only_on_success (e : t P S) (w : World) :
  match initialize e w with
  | (Returned _, e', _) => _initialized e' = true
  | (Raised ex, e', w') =>
      _initialized e' = _initialized e /\
      last (trace w') =
        Some (Log ERROR ("Failed to initialize avatar engine: " +:+ exn_str ex))
  end.
Proof.
  pose proof (initialize_flag e e w (reflexivity _)) as Hflag.
  destruct (initialize e w) as [[[u|ex] e'] w'] eqn:Hrun; simpl in Hflag; [done|].
  split; [done|].
  unfold initialize in Hrun. rewrite run_try_except in Hrun.
  match type of Hrun with
  | match ?body with _ => _ end = _ =>
      destruct body as [[[u|ex1] e1] w1]; [discriminate|]
  end.
  revert Hrun. run. intros [= <- <- <-]. simpl. by rewrite last_snoc.
Qed.
End InitializeFacts.

(** ** Counting the messages of a session *)

Section CountingFacts.
Context {P S : Type}.
Context `{Runtime} `{RealtimeProxy.Network} `{Plugin P} `{Speech S}
        `{AvatarEngine.Files P}.
Import AvatarEngine.

(** One message in a session: what becomes of the session record. *)
Lemma process_message_session
    (message : pydict) (e : t P S) (w : World) (n1 n2 : Z) :
  active (session_state e) = true ->
  metrics (session_state e) !! "messages_received" = Some n1 ->
  metrics (session_state e) !! "messages_sent" = Some n2 ->
  exists r e' w' user assistant,
    process_message message e w = (Returned r, e', w') /\
    session_state e' =
      set_metrics (<["messages_sent" := n2 + 1]>
                     (<["messages_received" := n1 + 1]> (metrics (session_state e))))
        (set_messages (messages (session_state e) ++ [user; assistant])
           (session_state e)) /\
    role user = "user" /\ role assistant = "assistant".
Proof.
  intros Hact Hr Hs.
  unfold process_message. run. rewrite Hact. run.
  rewrite _process_through_plugins_eq. run.
  rewrite truthy_to_dict. run. fields.
  destruct (speech_handler e) as [h|] eqn:Hsp.
  - rewrite to_dict_speak. cbn [truthy]. unfold subscript.
    rewrite to_dict_content. run. unfold on_speech_handler. fields.
    rewrite Hsp. destruct (speak h _) as [b h']. run.
    unfold incr_metric. run. fields. rewrite Hr. run. fields.
    rewrite lookup_insert_ne by done. rewrite Hs. run. fields.
    eexists _, _, _, _, _. split; [reflexivity|]. fields.
    rewrite <- app_assoc. simpl. done.
  - run. unfold incr_metric. run. fields. rewrite Hr. run. fields.
    rewrite lookup_insert_ne by done. rewrite Hs. run. fields.
    eexists _, _, _, _, _. split; [reflexivity|]. fields.
    rewrite <- app_assoc. simpl. done.
Qed.

(** X19.  The counters of a session count the messages.  In a session whose
    metrics carry the two message counters, [process_message] never
    raises; after any number of messages both counters have gone up by
    that number, the history has grown by two entries per message, every
    other counter (['tokens_used'] among them) is as it was, and the
    session is still active. *)
Theorem process_message_counts
    (ms : list pydict) (e : t P S) (w : World) (n1 n2 : Z) :
  active (session_state e) = true ->
  metrics (session_state e) !! "messages_received" = Some n1 ->
  metrics (session_state e) !! "messages_sent" = Some n2 ->
  exists rs e' w',
    process_each ms e w = (Returned rs, e', w') /\
    length rs = length ms /\
    active (session_state e') = true /\
    metrics (session_state e') !! "messages_received" =
      Some (n1 + Z.of_nat (length ms)) /\
    metrics (session_state e') !! "messages_sent" =
      Some (n2 + Z.of_nat (length ms)) /\
    (forall key, key <> "messages_received" -> key <> "messages_sent" ->
                 metrics (session_state e') !! key =
                 metrics (session_state e) !! key) /\
    length (messages (session_state e')) =
      (length (messages (session_state e)) + 2 * length ms)%nat.
Proof.
  revert e w n1 n2. induction ms as [|m ms IH]; intros e w n1 n2 Hact Hr Hs.
  - exists [], e, w. simpl. rewrite !Z.add_0_r, Nat.add_0_r. done.
  - destruct (process_message_session m e w n1 n2 Hact Hr Hs)
      as (r & e1 & w1 & u & a & Hrun & Hss & _).
    destruct (IH e1 w1 (n1 + 1) (n2 + 1)) as (rs & e' & w' & Hrest & Hlen & Hact' & Hr' & Hs' & Hoth & Hhist).
    { by rewrite Hss. }
    { rewrite Hss. simpl. rewrite lookup_insert_ne by done. by rewrite lookup_insert_eq. }
    { rewrite Hss. simpl. by rewrite lookup_insert_eq. }
    exists (r :: rs), e', w'. cbn [process_each]. run. rewrite Hrun. run.
    rewrite Hrest. run. split; [done|]. split; [simpl; by rewrite Hlen|].
    split; [done|].
    split; [rewrite Hr'; f_equal; simpl length; lia|].
    split; [rewrite Hs'; f_equal; simpl length; lia|].
    split.
    + intros key Hk1 Hk2. rewrite Hoth by done. rewrite Hss. simpl.
      by rewrite !lookup_insert_ne.
    + rewrite Hhist, Hss. simpl. rewrite length_app. simpl. lia.
Qed.
End CountingFacts.

Lemma process_message_counts_witness :
  let e := Fixture.in_session (Fixture.engine_with "demo" Fixture.raise_then_final) in
  let ms := [Fixture.hello; Fixture.hello] in
  exists rs e' w',
    process_each ms e Fixture.world0 = (Returned rs, e', w') /\
    length rs = length ms /\
    AvatarEngine.active (AvatarEngine.session_state e') = true /\
    AvatarEngine.metrics (AvatarEngine.session_state e') !! "messages_received" =
      Some (0 + Z.of_nat (length ms)) /\
    AvatarEngine.metrics (AvatarEngine.session_state e') !! "messages_sent" =
      Some (0 + Z.of_nat (length ms)) /\
    (forall key, key <> "messages_received" -> key <> "messages_sent" ->
                 AvatarEngine.metrics (AvatarEngine.session_state e') !! key =
                 AvatarEngine.metrics (AvatarEngine.session_state e) !! key) /\
    length (AvatarEngine.messages (AvatarEngine.session_state e')) =
      (length (AvatarEngine.messages (AvatarEngine.session_state e)) +
       2 * length ms)%nat.
Proof.
  intros e ms.
  apply (process_message_counts ms e Fixture.world0 0 0); reflexivity.
Defined.

(** ** Stopping a session *)

Section StopSessionFacts.
Context {P S : Type}.
Context `{Runtime} `{RealtimeProxy.Network} `{Plugin P} `{Speech S}
        `{AvatarEngine.Files P}.
Import AvatarEngine.

Lemma cleanup_step_isolated_eq (name : string) (p : P) (w : World) :
  cleanup_step_isolated name (p, tt) w =
    (Returned false, (after_cleanup p, tt), logged w (cleanup_events name p)).
Proof.
  unfold cleanup_step_isolated, after_cleanup, cleanup_events. run. simpl.
  destruct (has_cleanup p); run; [|by rewrite logged_nil].
  destruct (cleanup p) as [[u|ex] p']; run; simpl.
  - reflexivity.
  - by rewrite logged_logged.
Qed.

Lemma isolated_loop_eq (items : list (string * P)) (w : World) :
  for_items_from cleanup_step_isolated items tt w =
    (Returned tt,
     (map (fun np => (np.1, after_cleanup np.2)) items, tt),
     logged w (concat (map (fun np => cleanup_events np.1 np.2) items))).
Proof.
  revert w. induction items as [|[name p] rest IH]; intros w.
  - simpl. by rewrite logged_nil.
  - simpl. rewrite cleanup_step_isolated_eq. rewrite IH.
    by rewrite logged_logged.
Qed.

Lemma cleaned_cleanup_events (items : list (string * P)) :
  cleaned (concat (map (fun np => cleanup_events np.1 np.2) items)) =
    cleanable items.
Proof.
  induction items as [|[name p] rest IH]; [done|].
  simpl. rewrite cleaned_app, IH, cleanable_cons. f_equal.
  unfold cleanup_events. simpl. destruct (has_cleanup p); [|done].
  by destruct (fst (cleanup p)).
Qed.

Lemma disconnect_cases (p : RealtimeProxy.t) (w : World) :
  exists p' evs,
    RealtimeProxy.disconnect p w = (Returned tt, p', logged w evs) /\
    cleaned evs = [].
Proof.
  unfold RealtimeProxy.disconnect. run.
  destruct (RealtimeProxy.ws p) as [sock|]; run.
  - rewrite !logged_logged. eexists _, _. split; [reflexivity | done].
  - exists p, []. by rewrite logged_nil.
Qed.

(** [stop_session] in a session, in closed form. *)
Lemma stop_session_active (e : t P S) (w : World) (started : Z) :
  active (session_state e) = true ->
  start_time (session_state e) = Some started ->
  exists e' w',
    stop_session e w =
      (Returned {[ "session_id" := option_str (session_id (session_state e));
                   "status" := PStr "stopped";
                   "metrics" :=
                     PDict (<["session_duration" := PInt (clock w - started)]>
                              (PInt <$> metrics (session_state e))) ]},
       e', w') /\
    session_state e' = set_active false (session_state e) /\
    plugins e' = map (fun np => (np.1, after_cleanup np.2)) (plugins e) /\
    cleaned (trace w') = cleaned (trace w) ++ cleanable (plugins e).
Proof.
  intros Hact Hstart. unfold stop_session. run. rewrite Hact. run.
  assert (exists e1 evs1,
    (match realtime_proxy e with
     | Some _ => on_realtime_proxy RealtimeProxy.disconnect
     | None => ret tt
     end) e w = (Returned tt, e1, logged w evs1) /\ cleaned evs1 = [] /\
    session_state e1 = session_state e /\ plugins e1 = plugins e /\
    speech_handler e1 = speech_handler e) as (e1 & evs1 & -> & Hcl1 & Hs1 & Hp1 & Hh1).
  { destruct (realtime_proxy e) as [p|] eqn:Hp.
    - unfold on_realtime_proxy. rewrite Hp.
      destruct (disconnect_cases p w) as (p' & evs & -> & Hcl).
      eexists _, _. split; [reflexivity|]. done.
    - exists e, []. by rewrite logged_nil. }
  run.
  assert (exists e2 evs2,
    (match speech_handler e1 with
     | Some _ =>
         emit SpeechStopAvatar ;;;
         on_speech_handler (fun h => let '(b, h') := stop_avatar h in
                                     (Returned b, h')) ;;;
         ret tt
     | None => ret tt
     end) e1 (logged w evs1) = (Returned tt, e2, logged w evs2) /\
    cleaned evs2 = [] /\
    session_state e2 = session_state e /\ plugins e2 = plugins e)
    as (e2 & evs2 & -> & Hcl2 & Hs2 & Hp2).
  { destruct (speech_handler e1) as [h|] eqn:Hh.
    - run. unfold on_speech_handler. rewrite Hh.
      destruct (stop_avatar h) as [b h']. run. rewrite logged_logged.
      eexists _, _. split; [reflexivity|]. simpl.
      rewrite cleaned_app, Hcl1. done.
    - exists e1, evs1. done. }
  run. unfold scoped, for_items. rewrite Hp2, isolated_loop_eq. run. fields.
  rewrite Hs2, Hstart. run. fields.
  eexists _, _. split; [reflexivity|]. fields. rewrite Hs2.
  split; [done|]. split; [done|].
  rewrite <- !app_assoc, !cleaned_app, Hcl2, cleaned_cleanup_events. simpl.
  by rewrite app_nil_r.
Qed.

(** X20.  [stop_session] in a session shields every plugin.  [cleanup] is
    called on each plugin that has one, in registration order, whether or
    not an earlier [cleanup] raised; the call returns the record of the
    stopped session with the counters and the duration, the session is no
    longer active, and its history and counters stay in the engine.  A
    second [stop_session] finds no session: it answers with the error
    record and does nothing, no [cleanup] is called again. *)
Theorem stop_session_cleans_every_plugin (e : t P S) (w : World) (started : Z) :
  active (session_state e) = true ->
  start_time (session_state e) = Some started ->
  exists e' w',
    stop_session e w =
      (Returned {[ "session_id" := option_str (session_id (session_state e));
                   "status" := PStr "stopped";
                   "metrics" :=
                     PDict (<["session_duration" := PInt (clock w - started)]>
                              (PInt <$> metrics (session_state e))) ]},
       e', w') /\
    active (session_state e') = false /\
    get_conversation_history e' = get_conversation_history e /\
    metrics (session_state e') = metrics (session_state e) /\
    cleaned (trace w') = cleaned (trace w) ++ cleanable (plugins e) /\
    stop_session e' w' = (Returned no_active_session, e', w').
Proof.
  intros Hact Hstart.
  destruct (stop_session_active e w started Hact Hstart)
    as (e' & w' & Hrun & Hss & _ & Hcl).
  exists e', w'. split; [exact Hrun|]. unfold get_conversation_history.
  rewrite Hss. simpl. repeat split; try done.
  unfold stop_session. run. rewrite Hss. simpl. reflexivity.
Qed.
End StopSessionFacts.

Lemma stop_session_cleans_every_plugin_witness :
  let e := Fixture.in_session (Fixture.engine_with "demo" Fixture.raise_then_final) in
  let w := Fixture.world0 in
  exists e' w',
    AvatarEngine.stop_session e w =
      (Returned {[ "session_id" :=
                     AvatarEngine.option_str (AvatarEngine.session_id (AvatarEngine.session_state e));
                   "status" := PStr "stopped";
                   "metrics" :=
                     PDict (<["session_duration" := PInt (clock w - 0)]>
                              (PInt <$> AvatarEngine.metrics
                                          (AvatarEngine.session_state e))) ]},
       e', w') /\
    AvatarEngine.active (AvatarEngine.session_state e') = false /\
    AvatarEngine.get_conversation_history e' = AvatarEngine.get_conversation_history e /\
    AvatarEngine.metrics (AvatarEngine.session_state e') =
      AvatarEngine.metrics (AvatarEngine.session_state e) /\
    cleaned (trace w') = cleaned (trace w) ++ cleanable (AvatarEngine.plugins e) /\
    AvatarEngine.stop_session e' w' =
      (Returned no_active_session, e', w').
Proof.
  intros e w.
  apply (stop_session_cleans_every_plugin e w 0); reflexivity.
Defined.

(** ** The registry and its metadata *)

Section RegistryInvariant.
Context {P S : Type}.
Context `{Runtime} `{RealtimeProxy.Network} `{Plugin P} `{Speech S}
        `{AvatarEngine.Files P} `{InstanceManager.Factory P S}.
Import InstanceManager.

Local Abbreviation stays := (stays_initialized (P:=P) (S:=S)).

#[local] Instance stays_initialized_preorder : PreOrder stays.
Proof.
  split.
  - intros e Hi. exact Hi.
  - intros a b c Hab Hbc Ha. by apply Hbc, Hab.
Qed.

Lemma keeps_stays {A} (m : M (AvatarEngine.t P S) A) :
  keeps same_setup m -> keeps stays m.
Proof. intros Hm e w Hi. destruct (Hm e w) as (_ & -> & _). done. Qed.

Lemma keeps_stays_start_session sid : keeps stays (AvatarEngine.start_session sid).
Proof.
  unfold AvatarEngine.start_session.
  keeps_bind; [keeps_prim|]. intros e.
  keeps_bind.
  { destruct (negb _); [|keeps_prim].
    intros e0 w0. destruct (keeps_grow_initialize e0 w0) as [_ Hg]. exact Hg. }
  intros _. keeps_bind.
  { destruct sid as [s|]; [destruct (String.eqb s "")|].
    - keeps_bind; [keeps_prim | intros; keeps_prim].
    - keeps_prim.
    - keeps_bind; [keeps_prim | intros; keeps_prim]. }
  intros sid'. keeps_bind; [keeps_prim|]. intros started.
  keeps_bind; [keeps_update; intros e' Hi; exact Hi|]. intros _.
  keeps_bind; [keeps_prim|]. intros e1.
  keeps_bind.
  { destruct (AvatarEngine.realtime_proxy e1); [|keeps_prim].
    keeps_bind; [apply keeps_stays, keeps_on_realtime_proxy | intros; keeps_prim]. }
  intros _. keeps_bind; [keeps_prim|]. intros e2.
  keeps_bind.
  { destruct (AvatarEngine.speech_handler e2); [|keeps_prim].
    destruct (AvatarEngine.persona e2); [|keeps_prim].
    keeps_bind; [keeps_prim|]. intros _.
    keeps_bind; [apply keeps_stays, keeps_on_speech_handler | intros; keeps_prim]. }
  intros _. keeps_bind; [keeps_prim | intros; keeps_prim].
Qed.

Lemma triple_datetime_now {St} (I : St -> Prop) (Q : outcome Z -> St -> Prop) :
  (forall n s, I s -> Q (Returned n) s) -> triple I datetime_now Q.
Proof. intros HQ s w Hs. by apply HQ. Qed.

(** What [start_instance] does to a manager. *)
Lemma start_instance_outcomes (name : string) (mg : t P S) (w : World) :
  exists (b : bool) mg' w',
    start_instance name mg w = (Returned b, mg', w') /\
    ((mg' = mg /\ (b = true <-> is_Some (instances mg !! name))) \/
     (b = true /\ instances mg !! name = None /\
      exists e md,
        mg' = set_instance_metadata (<[name := md]> (instance_metadata mg))
                (set_instances (<[name := e]> (instances mg)) mg) /\
        AvatarEngine._initialized e = true /\
        status md = "running" /\ sessions md = 0 /\ stopped_at md = None)).
Proof.
  unfold start_instance. rewrite run_try_except, run_bind, run_self.
  destruct (instances mg !! name) as [e|] eqn:Hreg.
  { run. eexists _, _, _. split; [reflexivity|]. left. split; [done|]. split; eauto. }
  assert (forall b : bool, b = true <-> is_Some (@None (AvatarEngine.t P S)) -> b = false)
    as Hnone.
  { intros [|] [Hb _]; [|done]. by destruct (Hb eq_refl). }
  assert (false = true <-> is_Some (@None (AvatarEngine.t P S))) as Hfalse.
  { split; [done | by intros [? ?]]. }
  destruct (Z.leb _ _) eqn:Hcap.
  { run. eexists _, _, _. split; [reflexivity|]. by left. }
  run. destruct (create_avatar name) as [a|ex]; simpl; run.
  2: { eexists _, _, _. split; [reflexivity|]. by left. }
  unfold on_local.
  pose proof (initialize_flag a a w eq_refl) as Hflag.
  destruct (AvatarEngine.initialize a w) as [[[u|ex] a'] w']; simpl in Hflag; run.
  2: { eexists _, _, _. split; [reflexivity|]. by left. }
  eexists _, _, _. split; [reflexivity|]. right.
  split; [done|]. split; [done|]. eexists _, _. split; [reflexivity|]. done.
Qed.

Lemma consistent_engine (mg : t P S) (name : string) (e e' : AvatarEngine.t P S) :
  registry_consistent mg -> instances mg !! name = Some e ->
  stays e e' ->
  registry_consistent (set_instances (<[name := e']> (instances mg)) mg).
Proof.
  intros [Hrun Hinit] Hreg Hst. split.
  - intros n. specialize (Hrun n). unfold marked_running in *. simpl.
    rewrite <- Hrun. destruct (decide (n = name)) as [->|Hn].
    + rewrite lookup_insert_eq, Hreg. split; eauto.
    + by rewrite lookup_insert_ne.
  - intros n e0. simpl. destruct (decide (n = name)) as [->|Hn].
    + rewrite lookup_insert_eq. intros [= <-]. eapply Hst, Hinit, Hreg.
    + rewrite lookup_insert_ne by done. apply Hinit.
Qed.

Lemma triple_on_instance {A} (name : string) (m : M (AvatarEngine.t P S) A) :
  keeps stays m ->
  triple registry_consistent (on_instance name m) (always registry_consistent).
Proof.
  intros Hm mg w Hc. unfold always, on_instance.
  destruct (instances mg !! name) as [e|] eqn:Hreg; [|done].
  specialize (Hm e w). destruct (m e w) as [[r e'] w']. simpl in *.
  by apply (consistent_engine mg name e e').
Qed.

Lemma consistent_start_instance (name : string) :
  triple registry_consistent (start_instance name) (always registry_consistent).
Proof.
  intros mg w Hc. unfold always.
  destruct (start_instance_outcomes name mg w)
    as (b & mg' & w' & -> & [[-> _] | (_ & Hfree & e & md & -> & Hi & Hst & _)]);
    simpl; [done|].
  destruct Hc as [Hrun Hinit]. split.
  - intros n. unfold marked_running. simpl.
    destruct (decide (n = name)) as [->|Hn].
    + rewrite !lookup_insert_eq. split; eauto.
    + rewrite !lookup_insert_ne by done. apply Hrun.
  - intros n e0. simpl. destruct (decide (n = name)) as [->|Hn].
    + rewrite lookup_insert_eq. by intros [= <-].
    + rewrite lookup_insert_ne by done. apply Hinit.
Qed.

Lemma consistent_stop_instance (name : string) :
  triple registry_consistent (stop_instance name) (always registry_consistent).
Proof.
  unfold stop_instance.
  apply (triple_try_except _ (fun _ => registry_consistent)).
  2: { intros ex. apply (triple_bind _ (fun _ => registry_consistent));
         [by apply triple_logger | intros _; by apply triple_ret]. }
  apply (triple_bind _ (fun mg s => registry_consistent s)); [by apply triple_self|].
  intros mg0.
  destruct (instances mg0 !! name) as [avatar|].
  2: { apply (triple_bind _ (fun _ => registry_consistent));
         [by apply triple_logger | intros _; by apply triple_ret]. }
  apply (triple_bind _ (fun _ => registry_consistent)).
  { destruct (AvatarEngine.active _); [|by apply triple_ret].
    apply (triple_bind _ (fun _ => registry_consistent)); [|intros _; by apply triple_ret].
    eapply triple_weaken;
      [apply (triple_on_instance name), keeps_stays, keeps_stop_session | done |].
    by intros [a|ex] s. }
  intros _.
  apply (triple_bind _ (fun _ => registry_consistent)).
  { eapply triple_weaken;
      [apply (triple_on_instance name), keeps_stays, keeps_scoped_plugins | done |].
    by intros [a|ex] s. }
  intros _.
  apply (triple_bind _ (fun _ => removed name)).
  { apply triple_update. intros mg [Hrun Hinit]. split; [|split].
    - simpl. apply lookup_delete_eq.
    - intros n Hn. unfold marked_running. simpl.
      rewrite lookup_delete_ne by done. apply Hrun.
    - intros n e. simpl. intros He. apply lookup_delete_Some in He as [_ He].
      by apply (Hinit n). }
  intros _.
  apply (triple_bind _ (fun mg s => mg = s /\ removed name s)); [by apply triple_self|].
  intros mg1.
  apply (triple_bind _ (fun _ => registry_consistent)).
  { destruct (instance_metadata mg1 !! name) as [md|] eqn:Hmd.
    - apply (triple_bind _ (fun _ s => mg1 = s /\ removed name s));
        [by apply triple_datetime_now|].
      intros n. apply triple_update. intros mg [<- (Hnone & Hrun & Hinit)]. split.
      + intros n0. unfold marked_running. simpl.
        destruct (decide (n0 = name)) as [->|Hn].
        * rewrite Hnone, lookup_insert_eq. split; [by intros [? ?]|].
          intros (md' & [= <-] & Hst). simpl in Hst. discriminate.
        * rewrite lookup_insert_ne by done. by apply Hrun.
      + exact Hinit.
    - apply triple_ret. intros mg [<- (Hnone & Hrun & Hinit)]. split; [|exact Hinit].
      intros n0. destruct (decide (n0 = name)) as [->|Hn]; [|by apply Hrun].
      rewrite Hnone. unfold marked_running. rewrite Hmd.
      split; [by intros [? ?] | by intros (? & ? & _)]. }
  intros _.
  apply (triple_bind _ (fun _ => registry_consistent));
    [by apply triple_logger | intros _; by apply triple_ret].
Qed.

Lemma consistent_restart_instance (name : string) :
  triple registry_consistent (restart_instance name) (always registry_consistent).
Proof.
  unfold restart_instance.
  apply (triple_bind _ (fun _ => registry_consistent)); [by apply triple_self|].
  intros mg0.
  apply (triple_bind _ (fun _ => registry_consistent)).
  { destruct (instances mg0 !! name); [|by apply triple_ret].
    apply (triple_bind _ (fun _ => registry_consistent)); [|intros _; by apply triple_ret].
    eapply triple_weaken; [apply consistent_stop_instance | done |].
    by intros [a|ex] s. }
  intros _. apply consistent_start_instance.
Qed.

Lemma consistent_session (name : string) (sid : option string) :
  triple registry_consistent
    (result <~ on_instance name (AvatarEngine.start_session sid) ;;
     update (fun mg =>
       match instance_metadata mg !! name with
       | Some md =>
           set_instance_metadata
             (<[name := {| started_at := started_at md;
                           status := status md;
                           sessions := sessions md + 1;
                           stopped_at := stopped_at md |}]>
                (instance_metadata mg)) mg
       | None => mg
       end) ;;;
     ret result)
    (always registry_consistent).
Proof.
  apply (triple_bind _ (fun _ => registry_consistent)).
  { eapply triple_weaken;
      [apply (triple_on_instance name), keeps_stays_start_session | done |].
    by intros [a|ex] s. }
  intros result.
  apply (triple_bind _ (fun _ => registry_consistent)); [|intros _; by apply triple_ret].
  apply triple_update. intros mg [Hrun Hinit]. unfold always.
  destruct (instance_metadata mg !! name) as [md|] eqn:Hmd; [|by split].
  split; [|exact Hinit]. intros n. rewrite Hrun. unfold marked_running. simpl.
  destruct (decide (n = name)) as [->|Hn].
  - rewrite lookup_insert_eq, Hmd. split.
    + intros (md' & [= <-] & Hst). eauto.
    + intros (md' & [= <-] & Hst). eauto.
  - by rewrite lookup_insert_ne.
Qed.

Lemma consistent_start_session (name : string) (sid : option string) :
  triple registry_consistent (start_session name sid) (always registry_consistent).
Proof.
  unfold start_session.
  apply (triple_bind _ (fun _ => registry_consistent)); [by apply triple_self|].
  intros mg0. destruct (get_instance mg0 name); [apply consistent_session|].
  apply (triple_bind _ (fun _ => registry_consistent)).
  { eapply triple_weaken; [apply consistent_start_instance | done |].
    by intros [a|ex] s. }
  intros [|]; [apply consistent_session | by apply triple_ret].
Qed.

Lemma consistent_after (r : request) (mg : t P S) (w : World) :
  registry_consistent mg -> registry_consistent (fst (after_request r mg w)).
Proof.
  intros Hc. destruct r as [name|name|name|name sid|name|name m]; simpl.
  - pose proof (consistent_start_instance name mg w Hc) as Hk.
    by destruct (start_instance name mg w) as [[r mg'] w'].
  - pose proof (consistent_stop_instance name mg w Hc) as Hk.
    by destruct (stop_instance name mg w) as [[r mg'] w'].
  - pose proof (consistent_restart_instance name mg w Hc) as Hk.
    by destruct (restart_instance name mg w) as [[r mg'] w'].
  - pose proof (consistent_start_session name sid mg w Hc) as Hk.
    by destruct (start_session name sid mg w) as [[r mg'] w'].
  - assert (registry_consistent (snd (fst (stop_session name mg w)))) as Hk.
    { unfold stop_session. run. destruct (get_instance mg name); [|done].
      apply (triple_on_instance name _ (keeps_stays _ keeps_stop_session)), Hc. }
    by destruct (stop_session name mg w) as [[r mg'] w'].
  - assert (registry_consistent (snd (fst (process_message name m mg w)))) as Hk.
    { unfold process_message. run. destruct (get_instance mg name); [|done].
      destruct (negb _); [done|].
      apply (triple_on_instance name _ (keeps_stays _ (keeps_process_message m))), Hc. }
    by destruct (process_message name m mg w) as [[r mg'] w'].
Qed.

(** X21.  The registry and the metadata stay in step.  Whatever calls a new
    manager has served ([start_instance], [stop_instance],
    [restart_instance], [start_session], [stop_session],
    [process_message], in any order and however each ended), the running
    instances are exactly the names whose metadata says ['running'], and
    every engine in the registry is initialized. *)
Theorem registry_stays_consistent (mg : t P S) :
  served mg -> registry_consistent mg.
Proof.
  induction 1 as [|r mg w _ IH].
  - split.
    + intros name. unfold marked_running, new. simpl. rewrite !lookup_empty.
      split; [by intros [? ?] | by intros (? & ? & _)].
    + intros name e. unfold new. simpl. by rewrite lookup_empty.
  - by apply consistent_after.
Qed.
End RegistryInvariant.

Lemma registry_stays_consistent_witness :
  registry_consistent
    (fst (after_request (Stop_instance "a")
            (fst (after_request (Start_instance "a")
                    (InstanceManager.new (P:=Fixture.plugin) (S:=unit))
                    Fixture.world0))
            Fixture.world0)).
Proof.
  apply (registry_stays_consistent
           (fst (after_request (Stop_instance "a")
                   (fst (after_request (Start_instance "a")
                           (InstanceManager.new (P:=Fixture.plugin) (S:=unit))
                           Fixture.world0))
                   Fixture.world0))).
  apply served_after, served_after, served_new.
Defined.

Section ManagerFacts.
Context {P S : Type}.
Context `{Runtime} `{RealtimeProxy.Network} `{Plugin P} `{Speech S}
        `{AvatarEngine.Files P} `{InstanceManager.Factory P S}.
Import InstanceManager.

(** [start_instance] on a name that is not running. *)
Lemma start_instance_fresh (name : string) (mg : t P S) (w : World) :
  instances mg !! name = None ->
  exists (b : bool) mg' w',
    start_instance name mg w = (Returned b, mg', w') /\
    if b then
      exists e md started,
        mg' = set_instance_metadata (<[name := md]> (instance_metadata mg))
                (set_instances (<[name := e]> (instances mg)) mg) /\
        AvatarEngine._initialized e = true /\
        md = {| started_at := started; status := "running"; sessions := 0;
                stopped_at := None |} /\
        last (trace w') = Some (Log INFO ("Instance started: " +:+ name))
    else
      mg' = mg /\ exists msg, last (trace w') = Some (Log ERROR msg).
Proof.
  intros Hreg. unfold start_instance. rewrite run_try_except, run_bind, run_self.
  rewrite Hreg.
  destruct (Z.leb _ _) eqn:Hcap.
  { run. exists false. eexists _, _. split; [reflexivity|]. split; [done|].
    simpl. rewrite last_snoc. eauto. }
  run. destruct (create_avatar name) as [a|ex]; simpl; run.
  2: { exists false. eexists _, _. split; [reflexivity|]. split; [done|].
       simpl. rewrite last_snoc. eauto. }
  unfold on_local.
  pose proof (initialize_flag a a w eq_refl) as Hflag.
  destruct (AvatarEngine.initialize a w) as [[[u|ex] a'] w']; simpl in Hflag; run.
  2: { exists false. eexists _, _. split; [reflexivity|]. split; [done|].
       simpl. rewrite last_snoc. eauto. }
  exists true. eexists _, _. split; [reflexivity|].
  eexists _, _, _. split; [reflexivity|]. split; [done|]. split; [reflexivity|].
  simpl. by rewrite last_snoc.
Qed.

(** X22.  A start that fails leaves no trace in the manager.
    [start_instance] on a name that is not running never raises.  When it
    answers [False] (the registry is full, the factory or the engine's
    [initialize] raised) the manager is exactly as before and the last
    record of the log is an error.  When it answers [True] the registry
    has gained the engine, which is initialized, and the metadata of the
    name say ['running'] with no session counted. *)
Theorem start_instance_registers_only_initialized_engines
    (name : string) (mg : t P S) (w : World) :
  instances mg !! name = None ->
  exists (b : bool) mg' w',
    start_instance name mg w = (Returned b, mg', w') /\
    if b then
      exists e md,
        instances mg' = <[name := e]> (instances mg) /\
        instance_metadata mg' = <[name := md]> (instance_metadata mg) /\
        max_instances mg' = max_instances mg /\
        AvatarEngine._initialized e = true /\
        status md = "running" /\ sessions md = 0 /\ stopped_at md = None
    else
      mg' = mg /\ exists msg, last (trace w') = Some (Log ERROR msg).
Proof.
  intros Hreg.
  destruct (start_instance_fresh name mg w Hreg) as (b & mg' & w' & Hrun & Hb).
  exists b, mg', w'. split; [exact Hrun|]. destruct b; [|exact Hb].
  destruct Hb as (e & md & started & -> & Hi & -> & _).
  eexists e, _. simpl. repeat split; try reflexivity. done.
Qed.

(** X23.  [start_session] on a running instance starts a session on its
    engine and counts it.  The engine being initialized (with a persona if
    it has a speech handler), the engine in the registry has a new active
    session afterwards, whether or not a session was active before.  When
    the engine's call returns, which it does whenever the persona's
    ['avatar'] entry is one that [start_avatar] merges, the manager
    returns the record of the active session and the session count of the
    instance has gone up by one.  When [start_avatar] raises, the
    exception comes out of the manager's call and the session is not
    counted. *)
Theorem manager_start_session_counts
    (name : string) (session_id : option string) (mg : t P S)
    (e : AvatarEngine.t P S) (md : Metadata) (w : World) :
  instances mg !! name = Some e ->
  instance_metadata mg !! name = Some md ->
  ready e ->
  exists r e' mg' w',
    start_session name session_id mg w = (r, mg', w') /\
    instances mg' = <[name := e']> (instances mg) /\
    AvatarEngine.active (AvatarEngine.session_state e') = true /\
    AvatarEngine.messages (AvatarEngine.session_state e') = [] /\
    match r with
    | Returned d =>
        d = {[ "session_id" := PStr (chosen_session_id session_id w);
               "status" := PStr "active" ]} /\
        instance_metadata mg' =
          <[name := {| started_at := started_at md; status := status md;
                       sessions := sessions md + 1; stopped_at := stopped_at md |}]>
            (instance_metadata mg)
    | Raised ex =>
        instance_metadata mg' = instance_metadata mg /\
        exists h d,
          AvatarEngine.speech_handler e = Some h /\
          AvatarEngine.persona e = Some d /\
          fst (start_avatar h (dict_get d "avatar" (PDict ∅))) = Raised ex
    end /\
    (avatar_config_merges e -> exists d, r = Returned d).
Proof.
  intros Hreg Hmd Hready.
  pose proof (start_session_returns session_id e w Hready) as Hret.
  destruct (start_session_initialized session_id e w Hready)
    as (r & e' & w' & started & evs & Hrun & Hss & _ & _ & _ & _ & _ & _ & _ & _ & _ & Hr).
  rewrite Hrun in Hret. simpl in Hret.
  unfold start_session. run. unfold get_instance. rewrite Hreg. run.
  unfold on_instance. rewrite Hreg, Hrun. destruct r as [d|ex]; run.
  - simpl. rewrite Hmd.
    eexists _, e', _, _. split; [reflexivity|]. simpl. rewrite Hss.
    repeat split; try done. eauto.
  - eexists _, e', _, _. split; [reflexivity|]. simpl. rewrite Hss.
    repeat split; try done.
    intros Hmerges. specialize (Hret Hmerges). discriminate Hret.
Qed.

(** X24.  [start_session] for an instance that is not running starts the
    instance first; when that fails, no session is started: the call
    returns the error record for the instance, it does not raise, and the
    manager is as it was. *)
Theorem manager_start_session_when_start_fails
    (name : string) (session_id : option string) (mg : t P S) (w : World) :
  instances mg !! name = None ->
  fst (fst (start_instance name mg w)) = Returned false ->
  exists w',
    start_session name session_id mg w =
      (Returned {[ "error" := PStr ("Failed to start instance " +:+ name) ]},
       mg, w') /\
    exists msg, last (trace w') = Some (Log ERROR msg).
Proof.
  intros Hreg Hfalse.
  destruct (start_instance_fresh name mg w Hreg) as (b & mg' & w' & Hrun & Hb).
  rewrite Hrun in Hfalse. simpl in Hfalse. injection Hfalse as ->.
  destruct Hb as [-> Hlog].
  unfold start_session. run. unfold get_instance. rewrite Hreg. run.
  rewrite Hrun. run. eauto.
Qed.
End ManagerFacts.

Lemma start_instance_registers_only_initialized_engines_witness :
  let mg := Fixture.manager_with 10 [] in
  exists (b : bool) mg' w',
    InstanceManager.start_instance "a" mg Fixture.world0 = (Returned b, mg', w') /\
    if b then
      exists e md,
        InstanceManager.instances mg' = <["a" := e]> (InstanceManager.instances mg) /\
        InstanceManager.instance_metadata mg' =
          <["a" := md]> (InstanceManager.instance_metadata mg) /\
        InstanceManager.max_instances mg' = InstanceManager.max_instances mg /\
        AvatarEngine._initialized e = true /\
        InstanceManager.status md = "running" /\
        InstanceManager.sessions md = 0 /\
        InstanceManager.stopped_at md = None
    else
      mg' = mg /\ exists msg, last (trace w') = Some (Log ERROR msg).
Proof.
  intros mg.
  apply (start_instance_registers_only_initialized_engines "a" mg Fixture.world0).
  reflexivity.
Defined.

Lemma manager_start_session_counts_witness :
  let e := Fixture.in_session
             (Fixture.with_avatar (PDict {[ "character" := PStr "lisa" ]})
                (Fixture.engine_with "a" Fixture.scenario_plugins)) in
  let mg := Fixture.manager_with 10 [e] in
  let md := {| InstanceManager.started_at := "T0"; InstanceManager.status := "running";
               InstanceManager.sessions := 0; InstanceManager.stopped_at := None |} in
  exists e' mg' w',
    InstanceManager.start_session "a" (Some "s2") mg Fixture.world0 =
      (Returned {[ "session_id" := PStr (chosen_session_id (Some "s2") Fixture.world0);
                   "status" := PStr "active" ]}, mg', w') /\
    InstanceManager.instances mg' = <["a" := e']> (InstanceManager.instances mg) /\
    AvatarEngine.active (AvatarEngine.session_state e') = true /\
    AvatarEngine.messages (AvatarEngine.session_state e') = [] /\
    InstanceManager.instance_metadata mg' =
      <["a" := {| InstanceManager.started_at := InstanceManager.started_at md;
                  InstanceManager.status := InstanceManager.status md;
                  InstanceManager.sessions := InstanceManager.sessions md + 1;
                  InstanceManager.stopped_at := InstanceManager.stopped_at md |}]>
        (InstanceManager.instance_metadata mg).
Proof.
  intros e mg md.
  destruct (manager_start_session_counts "a" (Some "s2") mg e md Fixture.world0)
    as (r & e' & mg' & w' & Hrun & Hreg & Hact & Hmsg & Hr & Hret).
  - reflexivity.
  - reflexivity.
  - split; [reflexivity | right; discriminate].
  - destruct Hret as [d ->]; [by right|]. destruct Hr as [-> Hmd].
    exists e', mg', w'. split; [exact Hrun|]. split; [exact Hreg|].
    split; [exact Hact|]. split; [exact Hmsg | exact Hmd].
Defined.

(** The session that is not counted: with a persona whose ['avatar'] entry
    is a string, the manager's call raises, the count stays where it was,
    and the engine in the registry has the new session. *)
Example manager_start_session_not_counted :
  let e := Fixture.with_avatar (PStr "lisa")
             (Fixture.engine_with "a" Fixture.scenario_plugins) in
  let mg := Fixture.manager_with 10 [e] in
  let '(r, mg', _) := InstanceManager.start_session "a" (Some "s2") mg Fixture.world0 in
  r = Raised (Exception "ValueError"
                "dictionary update sequence element #0 has length 1; 2 is required") /\
  InstanceManager.sessions <$> (InstanceManager.instance_metadata mg' !! "a") = Some 0 /\
  (AvatarEngine.active ∘ AvatarEngine.session_state) <$>
    (InstanceManager.instances mg' !! "a") = Some true.
Proof. vm_compute. by repeat split. Qed.

Lemma manager_start_session_when_start_fails_witness :
  let mg := Fixture.manager_with 10 [] in
  exists w',
    InstanceManager.start_session "missing" None mg Fixture.world0 =
      (Returned {[ "error" := PStr ("Failed to start instance " +:+ "missing") ]},
       mg, w') /\
    exists msg, last (trace w') = Some (Log ERROR msg).
Proof.
  intros mg.
  apply (manager_start_session_when_start_fails "missing" None mg Fixture.world0);
    reflexivity.
Defined.

Section StopInstanceMore.
Context {P S : Type}.
Context `{Runtime} `{RealtimeProxy.Network} `{Plugin P} `{Speech S}
        `{AvatarEngine.Files P} `{InstanceManager.Factory P S}.
Import InstanceManager.

(** The loop of [stop_instance] over plugins whose [cleanup] returns. *)
Lemma cleanup_loop_returns (items : list (string * P)) (w : World) :
  Forall (fun np => cleanup_returns np.2) items ->
  for_items_from cleanup_step items tt w =
    (Returned tt,
     (map (fun np => (np.1, after_cleanup np.2)) items, tt),
     logged w (map PluginCleanup (cleanable items))).
Proof.
  intros Hall. revert w. induction Hall as [|[name p] rest Hp _ IH]; intros w.
  - simpl. by rewrite logged_nil.
  - simpl. unfold cleanup_step at 1. run. simpl.
    unfold cleanup_returns in Hp. simpl in Hp. unfold after_cleanup. simpl.
    rewrite cleanable_cons.
    destruct (has_cleanup p) eqn:Hc.
    + destruct (Hp eq_refl) as [u Hu]. run.
      destruct (cleanup p) as [o p'] eqn:Hcl. simpl in Hu. subst o. run.
      rewrite IH. by rewrite logged_logged.
    + run. by rewrite IH.
Qed.

Lemma cleaned_cleanup (names : list string) : cleaned (map PluginCleanup names) = names.
Proof. induction names as [|n names IH]; simpl; [done|]. by rewrite <- IH at 2. Qed.

(** X25.  [stop_instance] when no [cleanup] of its own loop raises.  The
    call answers [True], the name is no longer in the registry, and its
    metadata, if any, say ['stopped'] with the time of the stop.  On an
    instance without a session [cleanup] is called once on every plugin
    that has one.  On an instance with an active session the session is
    stopped first, which already cleans up every plugin: [cleanup] is
    called a second time on every plugin. *)
Theorem stop_instance_cleans_up_twice_after_a_session
    (name : string) (mg : t P S) (e : AvatarEngine.t P S) (w : World) :
  instances mg !! name = Some e ->
  (AvatarEngine.active (AvatarEngine.session_state e) = true ->
   is_Some (AvatarEngine.start_time (AvatarEngine.session_state e))) ->
  Forall (fun np => cleanup_returns np.2) (plugins_at_cleanup e) ->
  exists mg' w',
    stop_instance name mg w = (Returned true, mg', w') /\
    instances mg' = delete name (instances mg) /\
    (forall md, instance_metadata mg !! name = Some md ->
       exists stopped,
         instance_metadata mg' =
           <[name := {| started_at := started_at md; status := "stopped";
                        sessions := sessions md; stopped_at := Some stopped |}]>
             (instance_metadata mg)) /\
    (instance_metadata mg !! name = None ->
     instance_metadata mg' = instance_metadata mg) /\
    cleaned (trace w') =
      cleaned (trace w) ++
      (if AvatarEngine.active (AvatarEngine.session_state e)
       then cleanable (AvatarEngine.plugins e) else []) ++
      cleanable (plugins_at_cleanup e).
Proof.
  intros Hreg Hstart Hall. unfold plugins_at_cleanup in *.
  unfold stop_instance. rewrite run_try_except, run_bind, run_self, Hreg.
  destruct (AvatarEngine.active (AvatarEngine.session_state e)) eqn:Hact.
  - destruct (Hstart eq_refl) as [started Hst].
    destruct (stop_session_active e w started Hact Hst)
      as (e1 & w1 & Hrun & Hss & Hpl & Hcl).
    run. unfold on_instance at 1. rewrite Hreg, Hrun. run.
    unfold on_instance. cbn [instances set_instances]. rewrite lookup_insert_eq.
    unfold scoped, for_items. rewrite Hpl, cleanup_loop_returns by done. run.
    cbn [instances instance_metadata set_instances set_instance_metadata].
    destruct (instance_metadata mg !! name) as [md|] eqn:Hmd; run.
    + eexists _, _. split; [reflexivity|].
      cbn [instances instance_metadata set_instances set_instance_metadata trace logged].
      split; [by rewrite insert_insert_eq, delete_insert_eq|].
      split; [intros md' [= <-]; eauto|]. split; [done|].
      rewrite <- !app_assoc, !cleaned_app, Hcl, cleaned_cleanup. simpl.
      by rewrite app_nil_r, <- app_assoc.
    + eexists _, _. split; [reflexivity|].
      cbn [instances instance_metadata set_instances set_instance_metadata trace logged].
      split; [by rewrite insert_insert_eq, delete_insert_eq|].
      split; [done|]. split; [done|].
      rewrite <- !app_assoc, !cleaned_app, Hcl, cleaned_cleanup. simpl.
      by rewrite app_nil_r, <- app_assoc.
  - run. unfold on_instance. rewrite Hreg.
    unfold scoped, for_items. rewrite cleanup_loop_returns by done. run.
    cbn [instances instance_metadata set_instances set_instance_metadata].
    destruct (instance_metadata mg !! name) as [md|] eqn:Hmd; run.
    + eexists _, _. split; [reflexivity|].
      cbn [instances instance_metadata set_instances set_instance_metadata trace logged].
      split; [by rewrite delete_insert_eq|].
      split; [intros md' [= <-]; eauto|]. split; [done|].
      rewrite <- !app_assoc, !cleaned_app, cleaned_cleanup. simpl.
      by rewrite app_nil_r.
    + eexists _, _. split; [reflexivity|].
      cbn [instances instance_metadata set_instances set_instance_metadata trace logged].
      split; [by rewrite delete_insert_eq|].
      split; [done|]. split; [done|].
      rewrite <- !app_assoc, !cleaned_app, cleaned_cleanup. simpl.
      by rewrite app_nil_r.
Qed.

(** X26.  [restart_instance] can answer [True] without restarting anything.
    When a plugin's [cleanup] raises in the stop of a running instance
    without a session, the stop fails and leaves the instance in the
    registry; the start that follows finds it running and answers [True].
    The engine in the registry is the old one, with the plugins as the
    interrupted clean-up left them; the factory is not asked for a new
    one. *)
Theorem restart_instance_after_failed_stop
    (name : string) (mg : t P S) (e : AvatarEngine.t P S) (w : World)
    (pre post : list (string * P)) (plugin_name : string) (p : P) (ex : exn) :
  instances mg !! name = Some e ->
  AvatarEngine.active (AvatarEngine.session_state e) = false ->
  AvatarEngine.plugins e = pre ++ (plugin_name, p) :: post ->
  Forall (fun np => cleanup_returns np.2) pre ->
  has_cleanup p = true -> fst (cleanup p) = Raised ex ->
  exists w',
    restart_instance name mg w =
      (Returned true,
       set_instances
         (<[name := AvatarEngine.set_plugins
                      (map (fun np => (np.1, after_cleanup np.2)) pre ++
                       (plugin_name, snd (cleanup p)) :: post) e]>
            (instances mg)) mg,
       w') /\
    errors (trace w') =
      errors (trace w) ++
      ["Failed to stop instance " +:+ name +:+ ": " +:+ exn_str ex] /\
    last (trace w') =
      Some (Log WARNING ("Instance " +:+ name +:+ " is already running")).
Proof.
  intros Hreg Hact Hsplit Hpre Hc Hex.
  unfold restart_instance. run. rewrite Hreg. run.
  unfold stop_instance. run. rewrite Hreg. run. rewrite Hact. run.
  unfold on_instance. rewrite Hreg. unfold scoped, for_items. rewrite Hsplit.
  destruct (cleanup_loop_raises pre post plugin_name p ex w Hpre Hc Hex)
    as (evs & -> & Hcl & Herr).
  run. unfold start_instance. run.
  cbn [instances set_instances]. rewrite lookup_insert_eq. run.
  eexists. split; [reflexivity|]. simpl.
  split; [|by rewrite last_snoc].
  rewrite <- !app_assoc, !errors_app, Herr. simpl. reflexivity.
Qed.
End StopInstanceMore.

Lemma stop_instance_cleans_up_twice_after_a_session_witness :
  let e := Fixture.in_session (Fixture.engine_with "a" Fixture.scenario_plugins) in
  let mg := Fixture.manager_with 10 [e] in
  let w := Fixture.world0 in
  exists mg' w',
    InstanceManager.stop_instance "a" mg w = (Returned true, mg', w') /\
    InstanceManager.instances mg' = delete "a" (InstanceManager.instances mg) /\
    (forall md, InstanceManager.instance_metadata mg !! "a" = Some md ->
       exists stopped,
         InstanceManager.instance_metadata mg' =
           <["a" := {| InstanceManager.started_at := InstanceManager.started_at md;
                       InstanceManager.status := "stopped";
                       InstanceManager.sessions := InstanceManager.sessions md;
                       InstanceManager.stopped_at := Some stopped |}]>
             (InstanceManager.instance_metadata mg)) /\
    (InstanceManager.instance_metadata mg !! "a" = None ->
     InstanceManager.instance_metadata mg' = InstanceManager.instance_metadata mg) /\
    cleaned (trace w') =
      cleaned (trace w) ++
      (if AvatarEngine.active (AvatarEngine.session_state e)
       then cleanable (AvatarEngine.plugins e) else []) ++
      cleanable (plugins_at_cleanup e).
Proof.
  intros e mg w.
  apply (stop_instance_cleans_up_twice_after_a_session "a" mg e w).
  - reflexivity.
  - intros _. by eexists.
  - repeat constructor; intros _; by eexists.
Defined.

Lemma restart_instance_after_failed_stop_witness :
  let e := Fixture.engine_with "a" Fixture.bad_then_good in
  let mg := Fixture.manager_with 10 [e] in
  let w := Fixture.world0 in
  let p := Fixture.failing "boom" in
  exists w',
    InstanceManager.restart_instance "a" mg w =
      (Returned true,
       InstanceManager.set_instances
         (<["a" := AvatarEngine.set_plugins
                     (map (fun np => (np.1, after_cleanup np.2)) [] ++
                      ("bad", snd (cleanup p)) :: [("good", Fixture.silent)]) e]>
            (InstanceManager.instances mg)) mg,
       w') /\
    errors (trace w') =
      errors (trace w) ++
      ["Failed to stop instance " +:+ "a" +:+ ": " +:+
       exn_str (Exception "RuntimeError" "boom")] /\
    last (trace w') =
      Some (Log WARNING ("Instance " +:+ "a" +:+ " is already running")).
Proof.
  intros e mg w p.
  apply (restart_instance_after_failed_stop "a" mg e w [] [("good", Fixture.silent)]
           "bad" p (Exception "RuntimeError" "boom")); try reflexivity.
  constructor.
Defined.

